(** * Upload normalisation and image delivery of the vision route

    A shallow embedding of [src/app/api/analyze/route.js] (the route that
    imports its tables from [@/lib/uploads/constants]) and of the constants
    module itself, followed by the properties of the upload pipeline.

    Conventions of the embedding.
    - A JavaScript string is a Rocq [string]; each character stands for one
      code unit below U+0100.  The built-ins [trim], [toLowerCase] and the
      regular expressions of the route are written out for that range.
    - A JavaScript [number] is [NaN], an infinity, or a finite value kept as a
      rational: the route only compares finite numbers and copies them.
    - A [Buffer] is a [list byte]; its base64 codec is written out.
    - What the route calls but does not define ([path], [fs], the S3 client,
      the presigner, [randomUUID], the model client, the environment and the
      schematic configuration) is gathered in the record [Platform]. *)

From Stdlib Require Import List String Ascii Bool Arith ZArith NArith QArith Lia.
From Stdlib.Strings Require Import Byte.
From Stdlib Require Import DecimalString.
Import ListNotations.
Close Scope Q_scope.
Open Scope string_scope.

Set Implicit Arguments.

(* ================================================================== *)
(** ** JavaScript strings *)

Module JsString.

(** WhiteSpace and LineTerminator code units below U+0100, the set
    [String.prototype.trim] strips. *)
Definition isWhiteSpace (c : ascii) : bool :=
  let n := nat_of_ascii c in
  (((9 <=? n) && (n <=? 13)) || (n =? 32) || (n =? 160))%nat.

(** LineTerminator: what [.] of a regular expression refuses. *)
Definition isLineTerminator (c : ascii) : bool :=
  let n := nat_of_ascii c in ((n =? 10) || (n =? 13))%nat.

Fixpoint trimStart (s : string) : string :=
  match s with
  | EmptyString => EmptyString
  | String c rest => if isWhiteSpace c then trimStart rest else s
  end.

Fixpoint trimEnd (s : string) : string :=
  match s with
  | EmptyString => EmptyString
  | String c rest =>
      match trimEnd rest with
      | EmptyString => if isWhiteSpace c then EmptyString else String c EmptyString
      | kept => String c kept
      end
  end.

Definition trim (s : string) : string := trimEnd (trimStart s).

(** [toLowerCase] on one code unit: A-Z, and U+00C0-U+00DE but U+00D7. *)
Definition lowerChar (c : ascii) : ascii :=
  let n := nat_of_ascii c in
  if (((65 <=? n) && (n <=? 90))
      || ((192 <=? n) && (n <=? 222) && negb (n =? 215)))%nat
  then ascii_of_nat (n + 32) else c.

Fixpoint toLowerCase (s : string) : string :=
  match s with
  | EmptyString => EmptyString
  | String c rest => String (lowerChar c) (toLowerCase rest)
  end.

(** Canonicalisation of the [i] flag: only ASCII letters fold onto the
    ASCII characters the route's patterns are written with. *)
Definition foldChar (c : ascii) : ascii :=
  let n := nat_of_ascii c in
  if ((97 <=? n) && (n <=? 122))%nat then ascii_of_nat (n - 32) else c.

Definition eqChar_i (a b : ascii) : bool :=
  Ascii.eqb (foldChar a) (foldChar b).

(** [prefix_i p s]: the literal [p] matches at the start of [s] under the
    [i] flag; the rest of [s] is returned. *)
Fixpoint prefix_i (p s : string) : option string :=
  match p, s with
  | EmptyString, _ => Some s
  | String a p', String b s' => if eqChar_i a b then prefix_i p' s' else None
  | String _ _, EmptyString => None
  end.

(** [/literal/i.test(s)]: the literal occurs somewhere in [s]. *)
Fixpoint test_i (p s : string) : bool :=
  match prefix_i p s with
  | Some _ => true
  | None => match s with
            | EmptyString => false
            | String _ rest => test_i p rest
            end
  end.

(** The longest prefix without [stop], and what follows it. *)
Fixpoint span_not (stop : ascii) (s : string) : string * string :=
  match s with
  | EmptyString => (EmptyString, EmptyString)
  | String c rest =>
      if Ascii.eqb c stop then (EmptyString, s)
      else let '(a, b) := span_not stop rest in (String c a, b)
  end.

Fixpoint forallb (p : ascii -> bool) (s : string) : bool :=
  match s with
  | EmptyString => true
  | String c rest => p c && forallb p rest
  end.

Definition isEmpty (s : string) : bool :=
  match s with EmptyString => true | _ => false end.

(** A string in a boolean position: the empty string is falsy. *)
Definition truthy (s : string) : bool := negb (isEmpty s).

Fixpoint dropSlashes (s : string) : string :=
  match s with
  | String "/" rest => dropSlashes rest
  | _ => s
  end.

Fixpoint dropTrailingSlashes (s : string) : string :=
  match s with
  | EmptyString => EmptyString
  | String c rest =>
      match dropTrailingSlashes rest with
      | EmptyString => if Ascii.eqb c "/" then EmptyString else String c EmptyString
      | kept => String c kept
      end
  end.

(** [`${n}`] for a non-negative integer. *)
Definition ofNat (n : nat) : string := NilZero.string_of_uint (Nat.to_uint n).

(** [segments.join("/")]. *)
Fixpoint join (sep : string) (l : list string) : string :=
  match l with
  | [] => EmptyString
  | [x] => x
  | x :: rest => x ++ sep ++ join sep rest
  end.

End JsString.

(* ================================================================== *)
(** ** JavaScript values met in an upload descriptor *)

Inductive number : Type :=
| Finite (q : Q)
| PosInfinity
| NegInfinity
| NaN.

(** The three classes [normalizeUploads] accepts as a byte source. *)
Inductive BufferClass : Type := NodeBuffer | ArrayBuffer | Uint8Array.

Inductive value : Type :=
| VUndefined
| VNull
| VBool (b : bool)
| VNumber (n : number)
| VString (s : string)
| VBytes (c : BufferClass) (bytes : list byte)
| VObject.                         (* any other object or array *)

Definition isNullish (v : value) : bool :=
  match v with VUndefined | VNull => true | _ => false end.

(** [typeof v === "string" ? Some v : None]. *)
Definition asString (v : value) : option string :=
  match v with VString s => Some s | _ => None end.

(** [typeof v === "number" && Number.isFinite(v)]. *)
Definition asFinite (v : value) : option Q :=
  match v with VNumber (Finite q) => Some q | _ => None end.

(** [a ?? b] on an optional result. *)
Definition orElse {A} (a : option A) (b : option A) : option A :=
  match a with Some _ => a | None => b end.

(** What the route itself can throw: a [TypeError] of the engine (a call on
    something that is no function, a property read on [null]) or an
    [Error] made by the route, with its message. *)
Inductive exception : Type :=
| TypeError
| Error (message : string).

(** The double quote that the messages of the route put around names. *)
Definition quote : string := String (ascii_of_nat 34) EmptyString.

(* ================================================================== *)
(** ** [@/lib/uploads/constants] *)

(** Both tables are read by their own keys; the names every object inherits
    ([constructor], [toString], ...) are not keys of the model. *)
Definition MIME_LOOKUP : list (string * string) :=
  [ (".png", "image/png"); (".jpg", "image/jpeg"); (".jpeg", "image/jpeg");
    (".webp", "image/webp"); (".tif", "image/tiff"); (".tiff", "image/tiff") ].

Definition EXT_LOOKUP_BY_MIME : list (string * string) :=
  [ ("image/png", "png"); ("image/jpeg", "jpg");
    ("image/webp", "webp"); ("image/tiff", "tiff") ].

Fixpoint lookup (table : list (string * string)) (key : string) : option string :=
  match table with
  | [] => None
  | (k, v) :: rest => if String.eqb k key then Some v else lookup rest key
  end.

Definition MAX_UPLOAD_BYTES : Z := 45 * 1024 * 1024.
Definition MAX_UPLOAD_COUNT : nat := 6.

(** [trimSlashes] on a string: the slashes at its start and at its end are
    removed ([/^\/+|\/+$/g] replaced by the empty string). *)
Definition trimSlashes (s : string) : string :=
  JsString.dropTrailingSlashes (JsString.dropSlashes s).

(* ================================================================== *)
(** ** The base64 codec of [Buffer] *)

Module Base64.

Definition alphabet : string :=
  "ABCDEFGHIJKLMNOPQRSTUVWXYZabcdefghijklmnopqrstuvwxyz0123456789+/".

Definition digit (n : N) : ascii :=
  match String.get (N.to_nat n) alphabet with
  | Some c => c
  | None => "="%char
  end.

(** The value of a character of the standard or of the URL-safe alphabet. *)
Definition unbase64 (c : ascii) : option N :=
  let n := N_of_ascii c in
  (if (65 <=? n) && (n <=? 90) then Some (n - 65)
   else if (97 <=? n) && (n <=? 122) then Some (n - 71)
   else if (48 <=? n) && (n <=? 57) then Some (n + 4)
   else if (n =? 43) || (n =? 45) then Some 62
   else if (n =? 47) || (n =? 95) then Some 63
   else None)%N.

Definition byteOf (n : N) : byte :=
  match Byte.of_N (n mod 256) with
  | Some b => b
  | None => x00
  end.

(** [buffer.toString("base64")]: three bytes make four digits, the last
    group is padded with [=]. *)
Fixpoint encode (bs : list byte) : string :=
  match bs with
  | [] => EmptyString
  | [a] =>
      let x := Byte.to_N a in
      String (digit (x / 4)) (String (digit ((x mod 4) * 16)) "==")
  | [a; b] =>
      let x := Byte.to_N a in
      let y := Byte.to_N b in
      String (digit (x / 4))
        (String (digit ((x mod 4) * 16 + y / 16))
           (String (digit ((y mod 16) * 4)) "="))
  | a :: b :: c :: rest =>
      let x := Byte.to_N a in
      let y := Byte.to_N b in
      let z := Byte.to_N c in
      String (digit (x / 4))
        (String (digit ((x mod 4) * 16 + y / 16))
           (String (digit ((y mod 16) * 4 + z / 64))
              (String (digit (z mod 64)) (encode rest))))
  end%N.

(** [Buffer.from(text, "base64")] reads leniently: characters outside the
    alphabets are skipped and the first [=] ends the input. *)
Fixpoint sextets (s : string) : list N :=
  match s with
  | EmptyString => []
  | String c rest =>
      match unbase64 c with
      | Some v => v :: sextets rest
      | None => if Ascii.eqb c "=" then [] else sextets rest
      end
  end.

Fixpoint bytesOfSextets (l : list N) : list byte :=
  match l with
  | s1 :: s2 :: s3 :: s4 :: rest =>
      byteOf (s1 * 4 + s2 / 16)
        :: byteOf ((s2 mod 16) * 16 + s3 / 4)
        :: byteOf ((s3 mod 4) * 64 + s4)
        :: bytesOfSextets rest
  | [s1; s2; s3] =>
      [byteOf (s1 * 4 + s2 / 16); byteOf ((s2 mod 16) * 16 + s3 / 4)]
  | [s1; s2] => [byteOf (s1 * 4 + s2 / 16)]
  | _ => []
  end%N.

Definition decode (s : string) : list byte := bytesOfSextets (sextets s).

End Base64.

(* ================================================================== *)
(** ** [route.js]: normalisation of the uploads *)

(** [`data:${mimeType};base64,${buffer.toString("base64")}`]; the default
    of the parameter serves a caller that passes no MIME type. *)
Definition bufferToDataUrl (buffer : list byte) (mimeType : option string) : string :=
  let mime := match mimeType with
              | Some m => m
              | None => "application/octet-stream"
              end in
  "data:" ++ mime ++ ";base64," ++ Base64.encode buffer.

(** [/^data:(?<mime>[^;]+);base64,(?<data>.+)$/i.exec(s)]: the groups
    [(mime, data)] of the match.  The class [[^;]+] can only stop in front
    of a [;], so the match, when there is one, is unique. *)
Definition dataUrlPattern (s : string) : option (string * string) :=
  match JsString.prefix_i "data:" s with
  | None => None
  | Some rest =>
      let '(mime, after) := JsString.span_not ";" rest in
      if JsString.isEmpty mime then None
      else
        match JsString.prefix_i ";base64," after with
        | None => None
        | Some data =>
            if JsString.isEmpty data then None
            else if JsString.forallb (fun c => negb (JsString.isLineTerminator c)) data
                 then Some (mime, data)
                 else None
        end
  end.

(** An element of the [uploads] array as [normalizeUploads] reads it: the
    twelve properties it looks at.  Every property can hold any value; a
    missing one reads [VUndefined]. *)
Module Raw.
Record t : Type := make {
  name : value;
  detail : value;
  dataUrl : value;
  url : value;
  s3Key : value;
  blobPathname : value;
  blobPath : value;
  buffer : value;
  bytes : value;
  size : value;
  mimeType : value;
  type : value
}.


End Raw.

(** An array element: [null] or [undefined], on which the first property
    read throws, or anything else.  A primitive, an array or an object
    without the properties reads as [Raw.empty]. *)
Inductive element : Type :=
| Nullish
| Item (upload : Raw.t).

(** The object [normalizeUploads] returns for one element; an absent
    property is [None]. *)
Module Upload.
Record t : Type := make {
  id : string;
  name : string;
  detail : value;
  buffer : option (list byte);
  mimeType : option string;
  bytes : option Q;
  dataUrl : option string;
  remoteUrl : option string;
  s3Key : option string;
  blobPathname : option string
}.
End Upload.

Section Normalizer.

(** [path.extname] of the platform. *)
Variable extname : string -> string.

(** [`Uploaded image ${index + 1}`]. *)
Definition placeholderName (index : nat) : string :=
  "Uploaded image " ++ JsString.ofNat (index + 1).

(** [upload.name?.trim() || `Uploaded image ${index + 1}`]: a name that is
    neither nullish nor a string has no [trim] to call. *)
Definition displayName (index : nat) (upload : Raw.t) : exception + string :=
  match Raw.name upload with
  | VUndefined | VNull => inr (placeholderName index)
  | VString s =>
      let trimmed := JsString.trim s in
      inr (if JsString.truthy trimmed then trimmed else placeholderName index)
  | _ => inl TypeError
  end.

(** [upload.name ?? `#${index + 1}`] inside the size message; by then the
    name is a string or nullish. *)
Definition nameOrOrdinal (index : nat) (upload : Raw.t) : string :=
  match Raw.name upload with
  | VString s => s
  | _ => "#" ++ JsString.ofNat (index + 1)
  end.

Definition sizeLimitMessage (index : nat) (upload : Raw.t) : string :=
  "Uploaded image " ++ quote ++ nameOrOrdinal index upload ++ quote
    ++ " exceeds the "
    ++ JsString.ofNat (Z.to_nat (MAX_UPLOAD_BYTES / (1024 * 1024)))
    ++ "MB limit.".

Definition invalidDataUrlMessage (index : nat) : string :=
  "Uploaded image #" ++ JsString.ofNat (index + 1)
    ++ " is missing a valid base64 data URL.".

Definition noSourceMessage (name : string) : string :=
  "Upload " ++ quote ++ name ++ quote
    ++ " must include either a base64 dataUrl, direct url, or s3Key.".

(** [bytes > MAX_UPLOAD_BYTES]. *)
Definition overLimit (bytes : Q) : bool :=
  negb (Qle_bool bytes (inject_Z MAX_UPLOAD_BYTES)).

(** [v.trim()] when [typeof v === "string"], the empty string otherwise. *)
Definition trimmedOrEmpty (v : value) : string :=
  match asString v with
  | Some s => JsString.trim s
  | None => EmptyString
  end.

(** [typeof v === "string" ? trimSlashes(v.trim()) : undefined]. *)
Definition slashTrimmed (v : value) : option string :=
  option_map (fun s => trimSlashes (JsString.trim s)) (asString v).

(** [text || undefined]. *)
Definition nonEmpty (s : string) : option string :=
  if JsString.truthy s then Some s else None.

Definition bufferCandidate (upload : Raw.t) : option (list byte) :=
  match Raw.buffer upload with
  | VBytes _ bytes => Some bytes
  | _ => None
  end.

Definition reportedBytes (upload : Raw.t) : option Q :=
  orElse (asFinite (Raw.bytes upload)) (asFinite (Raw.size upload)).

Definition explicitMime (upload : Raw.t) : option string :=
  orElse (option_map JsString.toLowerCase (asString (Raw.mimeType upload)))
         (option_map JsString.toLowerCase (asString (Raw.type upload))).

Definition lengthOf (buffer : list byte) : Q :=
  inject_Z (Z.of_nat (List.length buffer)).

(** [reportedBytes ?? bufferCandidate.length]. *)
Definition declaredOrMeasured (upload : Raw.t) (buffer : list byte) : Q :=
  match reportedBytes upload with
  | Some reported => reported
  | None => lengthOf buffer
  end.

(** The callback that [normalizeUploads] maps over the array. *)
Definition normalizeUpload (index : nat) (upload : Raw.t)
  : exception + Upload.t :=
  let id := "upload-" ++ JsString.ofNat (index + 1) in
  match displayName index upload with
  | inl e => inl e
  | inr name =>
      let detail :=
        if isNullish (Raw.detail upload) then VString "high"
        else Raw.detail upload in
      let dataUrl := trimmedOrEmpty (Raw.dataUrl upload) in
      let remoteUrl := trimmedOrEmpty (Raw.url upload) in
      let s3Key := slashTrimmed (Raw.s3Key upload) in
      let blobPathname :=
        orElse (slashTrimmed (Raw.blobPathname upload))
               (slashTrimmed (Raw.blobPath upload)) in
      match bufferCandidate upload with
      | Some buffer =>
          let bytes := declaredOrMeasured upload buffer in
          if overLimit bytes then inl (Error (sizeLimitMessage index upload))
          else
            let ext := JsString.toLowerCase (extname name) in
            let inferredMime :=
              match explicitMime upload with
              | Some mime => mime
              | None =>
                  match lookup MIME_LOOKUP ext with
                  | Some mime => mime
                  | None => "application/octet-stream"
                  end
              end in
            inr (Upload.make id name detail (Some buffer) (Some inferredMime)
                   (Some bytes) (nonEmpty dataUrl) None None blobPathname)
      | None =>
          if JsString.truthy dataUrl then
            match dataUrlPattern dataUrl with
            | None => inl (Error (invalidDataUrlMessage index))
            | Some (mime, data) =>
                let buffer := Base64.decode data in
                if overLimit (lengthOf buffer)
                then inl (Error (sizeLimitMessage index upload))
                else
                  inr (Upload.make id name detail (Some buffer)
                         (Some (JsString.toLowerCase mime))
                         (Some (lengthOf buffer)) (Some dataUrl)
                         None None blobPathname)
            end
          else if JsString.truthy remoteUrl then
            inr (Upload.make id name detail None (explicitMime upload)
                   (reportedBytes upload) None (Some remoteUrl) None
                   blobPathname)
          else
            match s3Key with
            | Some key =>
                if JsString.truthy key then
                  inr (Upload.make id name detail None (explicitMime upload)
                         (reportedBytes upload) None None (Some key)
                         blobPathname)
                else inl (Error (noSourceMessage name))
            | None => inl (Error (noSourceMessage name))
            end
      end
  end.

Definition normalizeElement (index : nat) (e : element)
  : exception + Upload.t :=
  match e with
  | Nullish => inl TypeError
  | Item upload => normalizeUpload index upload
  end.

(** [array.map(callback)] from a given index on: the first throw ends it. *)
Fixpoint mapFrom (index : nat) (uploads : list element)
  : exception + list Upload.t :=
  match uploads with
  | [] => inr []
  | e :: rest =>
      match normalizeElement index e with
      | inl thrown => inl thrown
      | inr upload =>
          match mapFrom (S index) rest with
          | inl thrown => inl thrown
          | inr others => inr (upload :: others)
          end
      end
  end.

(** [normalizeUploads(uploads)] on an array; the route only ever passes
    one ([uploadPayloads] starts as [[]] and is replaced by [body.uploads]
    under [Array.isArray]). *)
Definition normalizeUploads (uploads : list element)
  : exception + list Upload.t :=
  mapFrom 0 (firstn MAX_UPLOAD_COUNT uploads).

End Normalizer.

(* ================================================================== *)
(** ** What the route is given *)

(** [sanitizeEnv]: a string is trimmed, then loses one quote character
    (single or double) at its start and one at its end; anything else is
    [undefined]. *)
Definition isQuoteChar (c : ascii) : bool :=
  let n := nat_of_ascii c in ((n =? 34) || (n =? 39))%nat.

Definition dropLeadingQuote (s : string) : string :=
  match s with
  | String c rest => if isQuoteChar c then rest else s
  | EmptyString => EmptyString
  end.

Fixpoint dropTrailingQuote (s : string) : string :=
  match s with
  | EmptyString => EmptyString
  | String c EmptyString => if isQuoteChar c then EmptyString else s
  | String c rest => String c (dropTrailingQuote rest)
  end.

Definition sanitizeEnv (v : option string) : option string :=
  option_map (fun s => dropTrailingQuote (dropLeadingQuote (JsString.trim s))) v.

(** [@/config/schematic]. *)
Module Config.
Record Image : Type := makeImage {
  id : string;
  label : string;
  caption : option string;
  path : string;
  detail : value
}.
Record Pricing : Type := makePricing { input : number; output : number }.
Record t : Type := make {
  systemPrompt : string;
  images : list Image;
  modelName : string;
  maxOutputTokens : nat;
  pricingUsdPerMTok : option Pricing
}.
End Config.

Inductive ContentBlock : Type :=
| input_text (text : string)
| input_image (image_url : string) (detail : value).

Record PutObjectCommand : Type := {
  put_Bucket : option string;
  put_Key : string;
  put_Body : list byte;
  put_ContentType : option string;
  put_CacheControl : string
}.

Record GetObjectCommand : Type := {
  get_Bucket : option string;
  get_Key : string
}.

Record Usage : Type := {
  input_tokens : option number;
  output_tokens : option number
}.

Record ModelRequest : Type := {
  req_model : string;
  req_max_output_tokens : nat;
  req_system : list ContentBlock;
  req_user : list ContentBlock
}.

Record ModelResponse : Type := {
  output_text : value;
  usage : option Usage
}.

(** The collaborators of the route.  [World] is whatever they depend on and
    change (files, the bucket, the clock, the random source); [Failure] is
    what their promises reject with. *)
Record Platform (World Failure : Type) : Type := {
  env : string -> option string;                       (* process.env *)
  schematicConfig : Config.t;
  extname : string -> string;                          (* path.extname *)
  publicPath : string -> string;    (* path.join(process.cwd(), "public", p) *)
  readFile : string -> World -> World * (Failure + list byte);
  randomUUID : World -> World * string;
  sendPutObject : PutObjectCommand -> World -> World * (Failure + unit);
  getSignedUrl : GetObjectCommand -> nat -> World -> World * (Failure + string);
  responsesCreate : ModelRequest -> World -> World * (Failure + ModelResponse);
  numDiv : number -> number -> number;                 (* IEEE 754 [/] *)
  numMul : number -> number -> number;
  numAdd : number -> number -> number
}.

(** The entry of [uploadSummaries] for one upload. *)
Module Summary.
Record t : Type := make {
  id : string;
  name : string;
  bytes : option Q;
  mimeType : option string;
  strategy : option string;
  key : option string;
  url : option string;
  blobPathname : option string
}.
End Summary.

Record CostEstimate : Type := {
  inputUsd : number;
  outputUsd : number;
  totalUsd : number
}.

Record SuccessBody : Type := {
  output : value;
  body_usage : option Usage;
  costEstimate : option CostEstimate;
  model : string;
  uploadsAttached : nat;
  uploadSummaries : list Summary.t
}.

(* ================================================================== *)
(** ** [route.js]: delivery of the images *)

Section Route.

Context {World Failure : Type} (P : Platform World Failure).

(** A value caught by a [catch] or leaving the route. *)
Inductive thrown : Type :=
| Threw (e : exception)
| Rejected (failure : Failure).

(** One call of [console.error]: the text, the error, the named fields. *)
Record LogEntry : Type := console_error {
  log_text : string;
  log_error : thrown;
  log_fields : list (string * string)
}.

Record State : Type := {
  world : World;
  console : list LogEntry
}.

(** An [async] computation of the route: it moves the state and either
    throws or returns. *)
Definition M (A : Type) : Type := State -> State * (thrown + A).

Definition ret {A} (a : A) : M A := fun st => (st, inr a).

Definition throw {A} (e : exception) : M A := fun st => (st, inl (Threw e)).

Definition bind {A B} (m : M A) (k : A -> M B) : M B :=
  fun st =>
    match m st with
    | (st', inl t) => (st', inl t)
    | (st', inr a) => k a st'
    end.

(** [try { m } catch (error) { handler error }]. *)
Definition tryCatch {A} (m : M A) (handler : thrown -> M A) : M A :=
  fun st =>
    match m st with
    | (st', inl t) => handler t st'
    | done => done
    end.

(** [await] of a collaborator's promise. *)
Definition await {A} (call : World -> World * (Failure + A)) : M A :=
  fun st =>
    match call (world st) with
    | (w, inl failure) => ({| world := w; console := console st |}, inl (Rejected failure))
    | (w, inr a) => ({| world := w; console := console st |}, inr a)
    end.

Definition log (entry : LogEntry) : M unit :=
  fun st => ({| world := world st; console := console st ++ [entry] |}, inr tt).

Definition ofResult {A} (r : exception + A) : M A :=
  match r with
  | inl e => throw e
  | inr a => ret a
  end.

Notation "x <- m ;; k" := (bind m (fun x => k))
  (at level 61, m at next level, right associativity).

(** The constants the module computes once from the environment. *)
Definition AWS_UPLOAD_PREFIX : string :=
  match sanitizeEnv (env P "AWS_VISION_PREFIX") with
  | Some v => v
  | None => "vision-uploads"
  end.

Definition AWS_BUCKET : option string := sanitizeEnv (env P "AWS_BUCKET_NAME").
Definition AWS_ACCESS_KEY_ID : option string :=
  sanitizeEnv (env P "AWS_ACCESS_KEY_ID").
Definition AWS_ACCESS_KEY_SECRET : option string :=
  sanitizeEnv (env P "AWS_ACCESS_KEY_SECRET").

Definition AWS_SCHEMATICS_FOLDER : string :=
  match sanitizeEnv (env P "AWS_SCHEMATICS_FOLDER") with
  | Some v => v
  | None => "schematics"
  end.

(** An optional string in a boolean position. *)
Definition truthy (v : option string) : bool :=
  match v with
  | Some s => JsString.truthy s
  | None => false
  end.

Definition hasAwsConfig : bool :=
  truthy AWS_BUCKET && truthy AWS_ACCESS_KEY_ID && truthy AWS_ACCESS_KEY_SECRET.

(** [s3Client] is a client exactly when [hasAwsConfig], [null] otherwise. *)
Definition s3Client : bool := hasAwsConfig.

Definition unsupportedExtensionMessage (ext : string) : string :=
  "Unsupported schematic image extension " ++ quote ++ ext ++ quote
    ++ ". Update MIME_LOOKUP to continue.".

Definition toDataUrl (filePath : string) (fileBuffer : list byte)
  : exception + string :=
  let ext := JsString.toLowerCase (extname P filePath) in
  match lookup MIME_LOOKUP ext with
  | Some mimeType =>
      if JsString.truthy mimeType
      then inr ("data:" ++ mimeType ++ ";base64," ++ Base64.encode fileBuffer)
      else inl (Error (unsupportedExtensionMessage ext))
  | None => inl (Error (unsupportedExtensionMessage ext))
  end.

Definition uploadBufferToS3 (buffer : list byte) (mimeType : option string)
  : M (option (string * string)) :=
  if negb s3Client then ret None
  else
    let extension :=
      match mimeType with
      | Some mime =>
          match lookup EXT_LOOKUP_BY_MIME mime with
          | Some ext => ext
          | None => "bin"
          end
      | None => "bin"
      end in
    uuid <- await (fun w => let '(w', u) := randomUUID P w in (w', inr u)) ;;
    let keySegments :=
      filter JsString.truthy
        [ trimSlashes AWS_UPLOAD_PREFIX;
          trimSlashes AWS_SCHEMATICS_FOLDER;
          uuid ++ "." ++ extension ] in
    let key := JsString.join "/" keySegments in
    _ <- await (sendPutObject P
                  {| put_Bucket := AWS_BUCKET;
                     put_Key := key;
                     put_Body := buffer;
                     put_ContentType := mimeType;
                     put_CacheControl := "max-age=3600" |}) ;;
    signedUrl <- await (getSignedUrl P
                          {| get_Bucket := AWS_BUCKET; get_Key := key |}
                          (60 * 60)) ;;
    ret (Some (key, signedUrl)).

Definition createSignedUrlForKey (key : string) : M (string * string) :=
  if negb s3Client
  then throw (Error "AWS credentials are not configured for S3 access.")
  else
    let sanitizedKey := trimSlashes key in
    signedUrl <- await (getSignedUrl P
                          {| get_Bucket := AWS_BUCKET; get_Key := sanitizedKey |}
                          (60 * 60)) ;;
    ret (sanitizedKey, signedUrl).

(** The label of a reference image.  The template carries the dash of the
    source file as it is stored there. *)
Definition referenceLabel (image : Config.Image) : string :=
  "Reference " ++ Config.id image ++ ": " ++ Config.label image
    ++ (if truthy (Config.caption image)
        then " â€” " ++ match Config.caption image with
                         | Some c => c
                         | None => EmptyString
                         end
        else EmptyString).

(** [v ?? "high"]. *)
Definition detailOrHigh (v : value) : value :=
  if isNullish v then VString "high" else v.

(** The body of the loop over [schematicConfig.images]: the two blocks it
    pushes for one image. *)
Definition referenceBlocks (image : Config.Image) : M (list ContentBlock) :=
  let absolutePath := publicPath P (JsString.dropSlashes (Config.path image)) in
  file <- await (readFile P absolutePath) ;;
  image_url <- ofResult (toDataUrl absolutePath file) ;;
  ret [ input_text (referenceLabel image);
        input_image image_url (detailOrHigh (Config.detail image)) ].

Fixpoint forImages (images : list Config.Image) (contents : list ContentBlock)
  : M (list ContentBlock) :=
  match images with
  | [] => ret contents
  | image :: rest =>
      blocks <- referenceBlocks image ;;
      forImages rest (contents ++ blocks)
  end.

(** The locals of the loop over the uploads. *)
Record Delivery : Type := {
  imageUrlPayload : option string;
  summary : Summary.t
}.

Definition initialSummary (upload : Upload.t) : Summary.t :=
  Summary.make (Upload.id upload) (Upload.name upload)
    (Upload.bytes upload) (Upload.mimeType upload) None None None None.

Definition withStrategy (s : Summary.t) (strategy : string)
    (key : option string) (url : option string) (blob : option string)
  : Summary.t :=
  Summary.make (Summary.id s) (Summary.name s) (Summary.bytes s)
    (Summary.mimeType s) (Some strategy)
    (orElse key (Summary.key s)) (orElse url (Summary.url s))
    (orElse blob (Summary.blobPathname s)).

Definition stringOf (v : option string) : string :=
  match v with
  | Some s => s
  | None => EmptyString
  end.

Definition isSome {A} (v : option A) : bool :=
  match v with
  | Some _ => true
  | None => false
  end.

(** [if (upload.remoteUrl) { ... }]. *)
Definition passRemoteUrl (upload : Upload.t) (d : Delivery) : Delivery :=
  if truthy (Upload.remoteUrl upload) then
    let remoteUrl := stringOf (Upload.remoteUrl upload) in
    let isBlobUrl := JsString.test_i "vercel-storage.com" remoteUrl in
    let strategy := if isBlobUrl then "vercel-blob" else "remote-url" in
    {| imageUrlPayload := Some remoteUrl;
       summary :=
         withStrategy (summary d) strategy None (Some remoteUrl)
           (if truthy (Upload.blobPathname upload)
            then Upload.blobPathname upload else None) |}
  else d.

Definition signingFailedMessage (name : string) : string :=
  "Unable to load uploaded image " ++ quote ++ name ++ quote ++ " from S3.".

(** [if (!imageUrlPayload && upload.s3Key) { try { ... } catch { ... } }]. *)
Definition signExistingKey (upload : Upload.t) (d : Delivery) : M Delivery :=
  if negb (truthy (imageUrlPayload d)) && truthy (Upload.s3Key upload) then
    let s3Key := stringOf (Upload.s3Key upload) in
    tryCatch
      (presigned <- createSignedUrlForKey s3Key ;;
       let '(key, url) := presigned in
       if JsString.truthy url then
         ret {| imageUrlPayload := Some url;
                summary :=
                  withStrategy (summary d) "s3-key" (Some key) (Some url) None |}
       else ret d)
      (fun error =>
         _ <- log (console_error "Failed to sign existing S3 key" error
                     [("key", s3Key); ("name", Upload.name upload)]) ;;
         throw (Error (signingFailedMessage (Upload.name upload))))
  else ret d.

(** [if (!imageUrlPayload && upload.buffer && s3Client) { try ... catch ... }]. *)
Definition offloadBuffer (upload : Upload.t) (d : Delivery) : M Delivery :=
  if negb (truthy (imageUrlPayload d)) && isSome (Upload.buffer upload)
     && s3Client then
    let buffer := match Upload.buffer upload with
                  | Some b => b
                  | None => []
                  end in
    tryCatch
      (offloadResult <- uploadBufferToS3 buffer (Upload.mimeType upload) ;;
       match offloadResult with
       | Some (key, url) =>
           if JsString.truthy url then
             ret {| imageUrlPayload := Some url;
                    summary :=
                      withStrategy (summary d) "s3" (Some key) (Some url) None |}
           else ret d
       | None => ret d
       end)
      (fun error =>
         _ <- log (console_error
                     "Failed to offload upload to S3, falling back to inline"
                     error [("name", Upload.name upload)]) ;;
         ret d)
  else ret d.

(** [if (!imageUrlPayload) { const inlineDataUrl = ...; ... }]. *)
Definition inlineFallback (upload : Upload.t) (d : Delivery) : Delivery :=
  if negb (truthy (imageUrlPayload d)) then
    let inlineDataUrl :=
      if truthy (Upload.dataUrl upload) then Upload.dataUrl upload
      else
        match Upload.buffer upload with
        | Some buffer =>
            if truthy (Upload.mimeType upload)
            then Some (bufferToDataUrl buffer (Upload.mimeType upload))
            else None
        | None => None
        end in
    if truthy inlineDataUrl then
      {| imageUrlPayload := inlineDataUrl;
         summary := withStrategy (summary d) "inline" None None None |}
    else d
  else d.

Definition noImageUrlMessage (name : string) : string :=
  "Unable to determine an image URL for upload " ++ quote ++ name ++ quote ++ ".".

Definition uploadLabel (upload : Upload.t) : string :=
  "Uploaded " ++ Upload.id upload ++ ": " ++ Upload.name upload.

(** The body of the loop over the normalised uploads: the summary and the
    two blocks it pushes.  The buffer it clears at the end belongs to an
    object that nothing reads again. *)
Definition deliverUpload (upload : Upload.t)
  : M (Summary.t * list ContentBlock) :=
  let d0 := {| imageUrlPayload := None; summary := initialSummary upload |} in
  let d1 := passRemoteUrl upload d0 in
  d2 <- signExistingKey upload d1 ;;
  d3 <- offloadBuffer upload d2 ;;
  let d4 := inlineFallback upload d3 in
  if negb (truthy (imageUrlPayload d4))
  then throw (Error (noImageUrlMessage (Upload.name upload)))
  else
    ret (summary d4,
         [ input_text (uploadLabel upload);
           input_image (stringOf (imageUrlPayload d4)) (Upload.detail upload) ]).

Fixpoint forUploads (uploads : list Upload.t)
    (contents : list ContentBlock) (uploadSummaries : list Summary.t)
  : M (list ContentBlock * list Summary.t) :=
  match uploads with
  | [] => ret (contents, uploadSummaries)
  | upload :: rest =>
      pushed <- deliverUpload upload ;;
      forUploads rest (contents ++ snd pushed) (uploadSummaries ++ [fst pushed])
  end.

Definition buildImageInputs (uploadPayloads : list element)
  : M (list ContentBlock * list Summary.t) :=
  normalizedUploads <- ofResult (normalizeUploads (extname P) uploadPayloads) ;;
  contents <- forImages (Config.images (schematicConfig P)) [] ;;
  forUploads normalizedUploads contents [].

(** [estimateCostUsd]; a token count left out of [usage] defaults to 0. *)
Definition estimateCostUsd (usage : option Usage) : option CostEstimate :=
  match usage, Config.pricingUsdPerMTok (schematicConfig P) with
  | Some u, Some pricing =>
      let orZero (n : option number) :=
        match n with
        | Some x => x
        | None => Finite 0
        end in
      let million := Finite (inject_Z 1000000) in
      let inputUsd :=
        numMul P (numDiv P (orZero (input_tokens u)) million)
               (Config.input pricing) in
      let outputUsd :=
        numMul P (numDiv P (orZero (output_tokens u)) million)
               (Config.output pricing) in
      Some {| inputUsd := inputUsd;
              outputUsd := outputUsd;
              totalUsd := numAdd P inputUsd outputUsd |}
  | _, _ => None
  end.

(** The body of a JSON answer: the success object, or [{ error, details }]
    where [details] is read off the caught value. *)
Inductive Body : Type :=
| Success (body : SuccessBody)
| Failed (error : string) (caught : option thrown).

Record Response : Type := json {
  status : nat;
  body : Body
}.

Definition isInputImage (item : ContentBlock) : bool :=
  match item with
  | input_image _ _ => true
  | input_text _ => false
  end.

Definition newline : string := String (ascii_of_nat 10) EmptyString.

Definition userText (question : string) : string :=
  JsString.join newline
    [ "A facilities manager is asking a question about the schematic.";
      "Return a concise, direct answer grounded in the drawing.";
      "If applicable, lay out instructions step-by-step with bullet numbers.";
      "If information is missing or unreadable, describe what else is needed.";
      EmptyString;
      "Question: " ++ question ].

(** The [try] block of [POST]. *)
Definition visionRequest (question : string) (uploadPayloads : list element)
  : M SuccessBody :=
  let model :=
    match env P "OPENAI_VISION_MODEL" with
    | Some m => m
    | None => Config.modelName (schematicConfig P)
    end in
  built <- buildImageInputs uploadPayloads ;;
  let imageInputs := fst built in
  response <- await (responsesCreate P
      {| req_model := model;
         req_max_output_tokens := Config.maxOutputTokens (schematicConfig P);
         req_system := [ input_text (Config.systemPrompt (schematicConfig P)) ];
         req_user := input_text (userText question) :: imageInputs |}) ;;
  let costEstimate := estimateCostUsd (usage response) in
  ret {| output := output_text response;
         body_usage := usage response;
         costEstimate := costEstimate;
         model := model;
         uploadsAttached := List.length (filter isInputImage imageInputs);
         uploadSummaries := snd built |}.

(** [POST] once the request is decoded into the question and the upload
    payloads (the decoding of JSON and multipart bodies is the caller's). *)
Definition POST (question : string) (uploadPayloads : list element)
  : State -> State * Response :=
  fun st =>
    if negb (truthy (env P "OPENAI_API_KEY")) then
      (st, json 500
             (Failed "OPENAI_API_KEY is not configured on the server." None))
    else if negb (JsString.truthy question) then
      (st, json 400 (Failed "Prompt is required." None))
    else
      match visionRequest question uploadPayloads st with
      | (st', inr answer) => (st', json 200 (Success answer))
      | (st', inl error) =>
          ({| world := world st';
              console := console st'
                           ++ [console_error "Vision request failed" error []] |},
           json 500 (Failed "Vision request failed." (Some error)))
      end.

End Route.

Arguments Threw {Failure} e.
Arguments Rejected {Failure} failure.

(** The label and the image that the loops push, for a reference image and
    for an upload, given the URL of the image. *)
Definition referencePair (p : Config.Image * string) : list ContentBlock :=
  [ input_text (referenceLabel (fst p));
    input_image (snd p) (detailOrHigh (Config.detail (fst p))) ].

Definition uploadPair (p : Upload.t * string) : list ContentBlock :=
  [ input_text (uploadLabel (fst p));
    input_image (snd p) (Upload.detail (fst p)) ].

(** The locals of the loop over the uploads before any step has chosen,
    and once a step has chosen a URL that is not empty under a tag. *)
Definition untouched (upload : Upload.t) (d : Delivery) : Prop :=
  imageUrlPayload d = None /\ summary d = initialSummary upload.

Definition chosen (upload : Upload.t) (d : Delivery) (tag url : string) : Prop :=
  imageUrlPayload d = Some url
  /\ JsString.truthy url = true
  /\ Summary.strategy (summary d) = Some tag
  /\ Summary.id (summary d) = Upload.id upload
  /\ Summary.name (summary d) = Upload.name upload.

(** Where the image URL of a delivered upload comes from, by the strategy
    recorded: the remote URL of the upload; what [getSignedUrl] resolved
    to for the key of the upload; what it resolved to for the key under
    which the buffer of the upload had just been put; the data URL of the
    upload, or the one written from its buffer. *)
Definition deliveredFrom {World Failure : Type} (P : Platform World Failure)
    (upload : Upload.t) (tag url : string) : Prop :=
  ((tag = "vercel-blob" \/ tag = "remote-url")
   /\ Upload.remoteUrl upload = Some url)
  \/ (tag = "s3-key"
      /\ exists key w w',
           Upload.s3Key upload = Some key
           /\ getSignedUrl P {| get_Bucket := AWS_BUCKET P;
                                get_Key := trimSlashes key |} (60 * 60) w
              = (w', inr url))
  \/ (tag = "s3"
      /\ exists buffer key w0 w1 w2,
           Upload.buffer upload = Some buffer
           /\ sendPutObject P {| put_Bucket := AWS_BUCKET P;
                                 put_Key := key;
                                 put_Body := buffer;
                                 put_ContentType := Upload.mimeType upload;
                                 put_CacheControl := "max-age=3600" |} w0
              = (w1, inr tt)
           /\ getSignedUrl P {| get_Bucket := AWS_BUCKET P; get_Key := key |}
                (60 * 60) w1
              = (w2, inr url))
  \/ (tag = "inline"
      /\ (Upload.dataUrl upload = Some url
          \/ exists buffer,
               Upload.buffer upload = Some buffer
               /\ url = bufferToDataUrl buffer (Upload.mimeType upload))).

(* ================================================================== *)
(** ** A small platform to run the route on *)

Module Demo.

(** Stand-in for [path.extname]: the text from the last dot on.  It agrees
    with the platform's on plain file names such as [plan.png]. *)
Fixpoint fromLastDot (s : string) : option string :=
  match s with
  | EmptyString => None
  | String c rest =>
      match fromLastDot rest with
      | Some e => Some e
      | None => if Ascii.eqb c "." then Some s else None
      end
  end.

Definition extension (s : string) : string :=
  match fromLastDot s with
  | Some e => e
  | None => EmptyString
  end.

(** An environment with the model key and, on demand, the bucket settings. *)
Definition settings (withBucket : bool) (name : string) : option string :=
  if String.eqb name "OPENAI_API_KEY" then Some "sk-demo"
  else if withBucket
          && (String.eqb name "AWS_BUCKET_NAME"
              || String.eqb name "AWS_ACCESS_KEY_ID"
              || String.eqb name "AWS_ACCESS_KEY_SECRET")
       then Some "demo"
       else None.

Definition config (images : list Config.Image) : Config.t :=
  Config.make "You are an expert facilities wayfinding and compliance assistant."
              images "gpt-4.1" 1024 None.

(** The world counts the calls made so far; a failure is its text.  The
    switches make the put or the signing reject. *)
Definition platform (withBucket putFails signFails : bool)
    (images : list Config.Image) : Platform nat string :=
  {| env := settings withBucket;
     schematicConfig := config images;
     extname := extension;
     publicPath := fun p => "/app/public/" ++ p;
     readFile := fun _ w => (S w, inr [x89; x50; x4e; x47]);
     randomUUID := fun w => (S w, "uuid-" ++ JsString.ofNat w);
     sendPutObject := fun _ w =>
       (S w, if putFails then inl "put refused" else inr tt);
     getSignedUrl := fun cmd _ w =>
       (S w, if signFails then inl "signing refused"
             else inr ("https://demo.s3.amazonaws.com/" ++ get_Key cmd ++ "?sig"));
     responsesCreate := fun _ w =>
       (S w, inr {| output_text := VString "Take the east corridor.";
                    usage := None |});
     numDiv := fun _ _ => NaN;
     numMul := fun _ _ => NaN;
     numAdd := fun _ _ => NaN |}.

Definition start : @State nat string := {| world := 0; console := [] |}.

Definition png : list byte := [x89; x50; x4e; x47].

(** [{ name, buffer }]. *)
Definition withBuffer (name : string) (bytes : list byte) : Raw.t :=
  Raw.make (VString name) VUndefined VUndefined VUndefined VUndefined
    VUndefined VUndefined (VBytes NodeBuffer bytes) VUndefined VUndefined
    VUndefined VUndefined.

(** [{ name, dataUrl }]. *)
Definition withDataUrl (name dataUrl : string) : Raw.t :=
  Raw.make (VString name) VUndefined (VString dataUrl) VUndefined VUndefined
    VUndefined VUndefined VUndefined VUndefined VUndefined VUndefined
    VUndefined.

(** [{ name, url }]. *)
Definition withUrl (name url : string) : Raw.t :=
  Raw.make (VString name) VUndefined VUndefined (VString url) VUndefined
    VUndefined VUndefined VUndefined VUndefined VUndefined VUndefined
    VUndefined.

(** [{ name, s3Key }]. *)
Definition withKey (name key : string) : Raw.t :=
  Raw.make (VString name) VUndefined VUndefined VUndefined (VString key)
    VUndefined VUndefined VUndefined VUndefined VUndefined VUndefined
    VUndefined.

(** [{ name, url, buffer }]: a remote URL next to a raw buffer. *)
Definition withUrlAndBuffer (name url : string) (bytes : list byte) : Raw.t :=
  Raw.make (VString name) VUndefined VUndefined (VString url) VUndefined
    VUndefined VUndefined (VBytes NodeBuffer bytes) VUndefined VUndefined
    VUndefined VUndefined.

(** A descriptor by its name, its three textual sources, its buffer, its
    declared [bytes] and its [mimeType]. *)
Definition descriptor (name : string)
    (dataUrl url s3Key buffer bytes mimeType : value) : Raw.t :=
  Raw.make (VString name) VUndefined dataUrl url s3Key VUndefined VUndefined
    buffer bytes VUndefined mimeType VUndefined.

(** [{ name, buffer, bytes }]: a buffer with a declared size. *)
Definition declared (name : string) (bytes : list byte) (size : Z) : Raw.t :=
  descriptor name VUndefined VUndefined VUndefined (VBytes NodeBuffer bytes)
    (VNumber (Finite (inject_Z size))) VUndefined.

(** [{ name, buffer, mimeType }]. *)
Definition typed (name : string) (bytes : list byte) (mime : string) : Raw.t :=
  descriptor name VUndefined VUndefined VUndefined (VBytes NodeBuffer bytes)
    VUndefined (VString mime).

(** A reference schematic of the configuration. *)
Definition levelOne : Config.Image :=
  Config.makeImage "level-1" "Level 1 plan" (Some "east wing")
    "/schematics/level-1.png" VUndefined.

(** Three uploads named A, B and C: a remote URL, a data URL, a key. *)
Definition abc : list element :=
  [ Item (withUrl "A" "https://example.org/a.png");
    Item (withDataUrl "B" "data:image/png;base64,AAAA");
    Item (withKey "C" "plans/c.png") ].

End Demo.

(* ================================================================== *)
(** ** [@/lib/uploads/constants]: the MIME type of a file name *)

(** [deduceMimeFromName]: nothing for a value that is no string or is the
    empty string, else the entry of [MIME_LOOKUP] for the lower-cased
    extension. *)
Definition deduceMimeFromName (extname : string -> string) (filename : value)
  : option string :=
  match filename with
  | VString name =>
      if JsString.isEmpty name then None
      else lookup MIME_LOOKUP (JsString.toLowerCase (extname name))
  | _ => None
  end.

(** [text.includes(part)]. *)
Fixpoint startsWith (part text : string) : bool :=
  match part, text with
  | EmptyString, _ => true
  | String a part', String b text' => Ascii.eqb a b && startsWith part' text'
  | String _ _, EmptyString => false
  end.

Fixpoint includes (part text : string) : bool :=
  startsWith part text
  || match text with
     | EmptyString => false
     | String _ rest => includes part rest
     end.

(* ================================================================== *)
(** ** [src/app/api/uploads/route.js]: tokens for direct uploads *)

Module TokenRoute.

(** The properties [POST] reads off the parsed body; a body that is [null]
    or no object reads [VUndefined] everywhere. *)
Record Body : Type := {
  filename : value;
  contentType : value;
  size : value
}.

(** The argument of [generateClientTokenFromReadWriteToken]. *)
Record TokenOptions : Type := {
  token : string;
  pathname : string;
  maximumSizeInBytes : Z;
  allowedContentTypes : list string;
  addRandomSuffix : bool;
  allowOverwrite : bool
}.

Inductive Answer : Type :=
| Issued (clientToken pathname contentType : string)
| Refused (error : string).

Record Response : Type := respond {
  status : nat;
  answer : Answer
}.

Section Handler.

Context {World Failure : Type} (P : Platform World Failure).

(** [generateClientTokenFromReadWriteToken] of the storage SDK. *)
Variable generateClientToken :
  TokenOptions -> World -> World * (Failure + string).

Notation "x <- m ;; k" := (bind m (fun x => k))
  (at level 61, m at next level, right associativity).

Definition BLOB_PREFIX : string :=
  match sanitizeEnv (env P "BLOB_UPLOAD_PREFIX") with
  | Some v => v
  | None =>
      match sanitizeEnv (env P "AWS_VISION_PREFIX") with
      | Some v => v
      | None => "vision-uploads"
      end
  end.

Definition BLOB_FOLDER : string :=
  match sanitizeEnv (env P "BLOB_UPLOAD_FOLDER") with
  | Some v => v
  | None =>
      match sanitizeEnv (env P "AWS_SCHEMATICS_FOLDER") with
      | Some v => v
      | None => "schematics"
      end
  end.

Definition BLOB_READ_WRITE_TOKEN : option string :=
  sanitizeEnv (env P "BLOB_READ_WRITE_TOKEN").

(** [new Set(Object.keys(EXT_LOOKUP_BY_MIME))], in insertion order. *)
Definition SUPPORTED_MIME_TYPES : list string := map fst EXT_LOOKUP_BY_MIME.

Definition isSupported (mime : string) : bool :=
  existsb (String.eqb mime) SUPPORTED_MIME_TYPES.

Definition buildPathname (extension : string) : @M World Failure string :=
  uuid <- await (fun w => let '(w', u) := randomUUID P w in (w', inr u)) ;;
  ret (JsString.join "/"
         (filter JsString.truthy
            [ trimSlashes BLOB_PREFIX;
              trimSlashes BLOB_FOLDER;
              uuid ++ "." ++ extension ])).

Definition sizeRefusal : string :=
  "File exceeds the "
    ++ JsString.ofNat (Z.to_nat (MAX_UPLOAD_BYTES / (1024 * 1024)))
    ++ "MB limit.".

Definition typeRefusal (mime : string) : string :=
  "Unsupported content type " ++ quote ++ mime ++ quote ++ ". Allowed: "
    ++ JsString.join ", " SUPPORTED_MIME_TYPES ++ ".".

(** [text.replace(/^\./, ...)] with the empty string: one leading dot less. *)
Definition dropDot (s : string) : string :=
  match s with
  | String "." rest => rest
  | _ => s
  end.

(** [a || b] on strings. *)
Definition orText (a b : string) : string :=
  if JsString.truthy a then a else b.

(** [size && size > MAX_UPLOAD_BYTES]: zero is falsy. *)
Definition tooLarge (size : option Q) : bool :=
  match size with
  | Some q => negb (Qeq_bool q 0) && overLimit q
  | None => false
  end.

(** [contentType || deduceMimeFromName(filename) || "application/octet-stream"]
    on the trimmed properties of the body. *)
Definition inferredMime (body : Body) : string :=
  orText (trimmedOrEmpty (contentType body))
    (orText (stringOf (deduceMimeFromName (extname P)
                         (VString (trimmedOrEmpty (filename body)))))
            "application/octet-stream").

(** [EXT_LOOKUP_BY_MIME[inferredMime] || path.extname(filename).replace(...)
    || "bin"]. *)
Definition extensionFor (body : Body) : string :=
  orText (stringOf (lookup EXT_LOOKUP_BY_MIME (inferredMime body)))
    (orText (dropDot (extname P (trimmedOrEmpty (filename body)))) "bin").

(** [POST]; the argument is what [await req.json()] gives. *)
Definition POST (request : Failure + Body) : @M World Failure Response :=
  if negb (truthy BLOB_READ_WRITE_TOKEN) then
    ret (respond 500
           (Refused "BLOB_READ_WRITE_TOKEN is not configured on the server."))
  else
    match request with
    | inl _ => ret (respond 400 (Refused "Invalid JSON payload."))
    | inr body =>
        let filename := trimmedOrEmpty (filename body) in
        let size := asFinite (size body) in
        if negb (JsString.truthy filename) then
          ret (respond 400 (Refused "filename is required."))
        else if tooLarge size then
          ret (respond 400 (Refused sizeRefusal))
        else
          let inferredMime := inferredMime body in
          if negb (isSupported inferredMime) then
            ret (respond 400 (Refused (typeRefusal inferredMime)))
          else
            let extension := extensionFor body in
            pathname <- buildPathname extension ;;
            tryCatch
              (clientToken <- await (generateClientToken
                   {| token := stringOf BLOB_READ_WRITE_TOKEN;
                      pathname := pathname;
                      maximumSizeInBytes := MAX_UPLOAD_BYTES;
                      allowedContentTypes := SUPPORTED_MIME_TYPES;
                      addRandomSuffix := false;
                      allowOverwrite := false |}) ;;
               ret (respond 200 (Issued clientToken pathname inferredMime)))
              (fun error =>
                 _ <- log (console_error "Failed to generate blob upload token"
                             error []) ;;
                 ret (respond 500
                        (Refused "Failed to generate blob upload token.")))
    end.

End Handler.

End TokenRoute.

(* ================================================================== *)
(** ** [route.js]: how [POST] reads the request *)

(** A value that [JSON.parse] or [req.json()] returns.  The fields of an
    object are its own properties, each name once. *)
#[local] Set Warnings "-register-all".

Inductive Json : Type :=
| JNull
| JBool (b : bool)
| JNumber (n : number)
| JString (s : string)
| JArray (items : list Json)
| JObject (fields : list (string * Json)).

Fixpoint assoc (fields : list (string * Json)) (key : string) : option Json :=
  match fields with
  | [] => None
  | (k, v) :: rest => if String.eqb k key then Some v else assoc rest key
  end.

(** A JSON value as a property value; what is inside an array or an object
    is not looked at by the route. *)
Definition valueOfJson (j : Json) : value :=
  match j with
  | JNull => VNull
  | JBool b => VBool b
  | JNumber n => VNumber n
  | JString s => VString s
  | JArray _ | JObject _ => VObject
  end.

(** [j.key] for one of the names the route reads: only an object has them. *)
Definition property (j : Json) (key : string) : value :=
  match j with
  | JObject fields =>
      match assoc fields key with
      | Some v => valueOfJson v
      | None => VUndefined
      end
  | _ => VUndefined
  end.

(** An element of [body.uploads] as [normalizeUploads] will read it. *)
Definition elementOfJson (j : Json) : element :=
  match j with
  | JNull => Nullish
  | _ =>
      Item (Raw.make (property j "name") (property j "detail")
              (property j "dataUrl") (property j "url") (property j "s3Key")
              (property j "blobPathname") (property j "blobPath")
              (property j "buffer") (property j "bytes") (property j "size")
              (property j "mimeType") (property j "type"))
  end.

(** A [File] of a multipart form and an entry of the form. *)
Record File : Type := {
  fileName : string;
  fileType : string;
  fileBytes : list byte
}.

Inductive FormValue : Type :=
| Field (text : string)
| Attached (file : File).

(** The request as [POST] consumes it: the content-type header, what
    [req.json()] settles to and what [req.formData()] settles to. *)
Record Request (Failure : Type) : Type := {
  contentTypeHeader : option string;
  jsonBody : Failure + Json;
  formEntries : Failure + list (string * FormValue)
}.

(** [formData.get(name)]: the first entry of that name. *)
Fixpoint formGet (name : string) (entries : list (string * FormValue))
  : option FormValue :=
  match entries with
  | [] => None
  | (k, v) :: rest => if String.eqb k name then Some v else formGet name rest
  end.

(** The members every object inherits: read through [uploadsMeta[key]] they
    are neither nullish nor a usable entry. *)
Definition inheritedMember (key : string) : bool :=
  existsb (String.eqb key)
    [ "constructor"; "toString"; "toLocaleString"; "valueOf";
      "hasOwnProperty"; "isPrototypeOf"; "propertyIsEnumerable"; "__proto__";
      "__defineGetter__"; "__defineSetter__"; "__lookupGetter__";
      "__lookupSetter__" ].

(** [uploadsMeta[key] ?? uploadsMeta[file.name]] narrowed to an object: the
    own fields of the entry found, none when there is no usable entry. *)
Definition metaFieldsAt (fields : list (string * Json)) (key : string)
  : option (list (string * Json)) :=
  match assoc fields key with
  | Some JNull => None
  | Some (JObject entry) => Some entry
  | Some _ => Some []
  | None => if inheritedMember key then Some [] else None
  end.

Definition metaFor (uploadsMeta : Json) (key : string) (file : File)
  : list (string * Json) :=
  match uploadsMeta with
  | JObject fields =>
      match metaFieldsAt fields key with
      | Some entry => entry
      | None =>
          match metaFieldsAt fields (fileName file) with
          | Some entry => entry
          | None => []
          end
      end
  | _ => []
  end.

Section ReadRequest.

Context {World Failure : Type} (P : Platform World Failure).

(** [JSON.parse] and the UTF-8 decoding behind [file.text()]. *)
Variable parseJson : string -> Failure + Json.
Variable textOf : list byte -> string.

(** What [console.warn] is called with while the form is read. *)
Definition Warning : Type := (string * Failure)%type.

(** The payload pushed for one file that is not empty. *)
Definition payloadOfFile (uploadsMeta : Json) (defaultDetail : option string)
    (index : nat) (key : string) (file : File) : Raw.t :=
  let meta := JObject (metaFor uploadsMeta key file) in
  let detail :=
    match asString (property meta "detail") with
    | Some d => d
    | None =>
        match defaultDetail with
        | Some d => d
        | None => "high"
        end
    end in
  let displayName :=
    match asString (property meta "name") with
    | Some n =>
        if JsString.truthy (JsString.trim n) then JsString.trim n
        else TokenRoute.orText (fileName file) (placeholderName index)
    | None => TokenRoute.orText (fileName file) (placeholderName index)
    end in
  let ext := JsString.toLowerCase (extname P displayName) in
  let rawMime :=
    TokenRoute.orText
      (match asString (property meta "mimeType") with
       | Some m =>
           if JsString.truthy (JsString.trim m) then JsString.trim m
           else fileType file
       | None => fileType file
       end)
      (TokenRoute.orText (stringOf (lookup MIME_LOOKUP ext))
         "application/octet-stream") in
  let mimeType :=
    if JsString.truthy rawMime
    then JsString.toLowerCase (JsString.trim rawMime)
    else "application/octet-stream" in
  Raw.make (VString displayName) (VString detail) VUndefined VUndefined
    VUndefined VUndefined VUndefined (VBytes NodeBuffer (fileBytes file))
    (VNumber (Finite (lengthOf (fileBytes file)))) VUndefined
    (VString mimeType) VUndefined.

(** The loop over the file entries: empty files are skipped and do not
    count. *)
Fixpoint payloadsOfFiles (uploadsMeta : Json) (defaultDetail : option string)
    (index : nat) (entries : list (string * FormValue)) : list element :=
  match entries with
  | [] => []
  | (_, Field _) :: rest =>
      payloadsOfFiles uploadsMeta defaultDetail index rest
  | (key, Attached file) :: rest =>
      match fileBytes file with
      | [] => payloadsOfFiles uploadsMeta defaultDetail index rest
      | _ :: _ =>
          Item (payloadOfFile uploadsMeta defaultDetail index key file)
            :: payloadsOfFiles uploadsMeta defaultDetail (S index) rest
      end
  end.

(** The prompt of a form: the field [prompt], else [question], as text or
    as the text of a file. *)
Definition formPrompt (entries : list (string * FormValue)) : string :=
  match orElse (formGet "prompt" entries) (formGet "question" entries) with
  | Some (Field text) => JsString.trim text
  | Some (Attached file) => JsString.trim (textOf (fileBytes file))
  | None => EmptyString
  end.

Definition formDefaultDetail (entries : list (string * FormValue))
  : option string :=
  match formGet "detail" entries with
  | Some (Field text) => Some (JsString.trim text)
  | _ => None
  end.

(** [uploadsMeta]: the parsed field when it is a string that is not blank,
    [{}] otherwise and when it does not parse (with a warning). *)
Definition formUploadsMeta (entries : list (string * FormValue))
  : Json * list Warning :=
  match formGet "uploadsMeta" entries with
  | Some (Field text) =>
      if JsString.truthy (JsString.trim text) then
        match parseJson text with
        | inr parsed => (parsed, [])
        | inl error => (JObject [], [("Unable to parse uploadsMeta JSON", error)])
        end
      else (JObject [], [])
  | _ => (JObject [], [])
  end.

(** The outcome of reading the request: an answer sent at once, a throw
    that leaves [POST], or the question and the upload payloads. *)
Inductive Read : Type :=
| Answered (response : @Response Failure)
| Thrown (e : exception)
| Parsed (question : string) (uploadPayloads : list element).

(** [body.prompt?.trim()], the empty string when that is nullish, and
    [body.uploads] of the JSON branch. *)
Definition readJson (body : Json) : Read :=
  match body with
  | JNull => Thrown TypeError
  | _ =>
      let uploadPayloads :=
        match body with
        | JObject fields =>
            match assoc fields "uploads" with
            | Some (JArray items) => map elementOfJson items
            | _ => []
            end
        | _ => []
        end in
      match property body "prompt" with
      | VUndefined | VNull => Parsed EmptyString uploadPayloads
      | VString prompt => Parsed (JsString.trim prompt) uploadPayloads
      | _ => Thrown TypeError
      end
  end.

Definition readRequest (req : Request Failure) (st : @State World Failure)
  : @State World Failure * list Warning * Read :=
  let contentType := stringOf (contentTypeHeader req) in
  if includes "multipart/form-data" contentType then
    match formEntries req with
    | inl error =>
        ({| world := world st;
            console := console st
                         ++ [console_error "Failed to parse multipart form data"
                               (Rejected error) []] |},
         [],
         Answered (json 400 (Failed "Invalid multipart form payload." None)))
    | inr entries =>
        let '(uploadsMeta, warnings) := formUploadsMeta entries in
        (st, warnings,
         Parsed (formPrompt entries)
           (payloadsOfFiles uploadsMeta (formDefaultDetail entries) 0 entries))
    end
  else
    match jsonBody req with
    | inl _ => (st, [], Answered (json 400 (Failed "Invalid JSON payload." None)))
    | inr body => (st, [], readJson body)
    end.

(** [POST(req)] as a whole: the key check, the reading of the request and
    the rest of the handler; a throw while reading leaves the handler. *)
Definition POST_request (req : Request Failure) (st : @State World Failure)
  : @State World Failure * list Warning * (exception + @Response Failure) :=
  if negb (truthy (env P "OPENAI_API_KEY")) then
    (st, [],
     inr (json 500
            (Failed "OPENAI_API_KEY is not configured on the server." None)))
  else
    match readRequest req st with
    | (st1, warnings, Answered response) => (st1, warnings, inr response)
    | (st1, warnings, Thrown e) => (st1, warnings, inl e)
    | (st1, warnings, Parsed question uploadPayloads) =>
        let '(st2, response) := POST P question uploadPayloads st1 in
        (st2, warnings, inr response)
    end.

End ReadRequest.

(** The files of a form that the loop of [POST] turns into payloads: the
    attached files that are not empty, with their field names, in the
    order of the form. *)
Fixpoint filesToSend (entries : list (string * FormValue))
  : list (string * File) :=
  match entries with
  | [] => []
  | (_, Field _) :: rest => filesToSend rest
  | (key, Attached file) :: rest =>
      match fileBytes file with
      | [] => filesToSend rest
      | _ :: _ => (key, file) :: filesToSend rest
      end
  end.

(* ================================================================== *)
(** ** More of the small platform *)

Module DemoRoutes.

(** The settings of [Demo] with a quoted token for the blob store. *)
Definition settings (name : string) : option string :=
  if String.eqb name "BLOB_READ_WRITE_TOKEN" then Some " 'rw-demo' "
  else Demo.settings false name.

Definition platform : Platform nat string :=
  {| env := settings;
     schematicConfig := Demo.config [];
     extname := Demo.extension;
     publicPath := fun p => "/app/public/" ++ p;
     readFile := fun _ w => (S w, inr Demo.png);
     randomUUID := fun w => (S w, "uuid-" ++ JsString.ofNat w);
     sendPutObject := fun _ w => (S w, inr tt);
     getSignedUrl := fun cmd _ w => (S w, inr ("https://demo/" ++ get_Key cmd));
     responsesCreate := fun _ w =>
       (S w, inr {| output_text := VString "Take the east corridor.";
                    usage := None |});
     numDiv := fun _ _ => NaN;
     numMul := fun _ _ => NaN;
     numAdd := fun _ _ => NaN |}.

(** A storage SDK that signs every request. *)
Definition generate (options : TokenRoute.TokenOptions) (w : nat)
  : nat * (string + string) :=
  (S w, inr ("client-token:" ++ TokenRoute.pathname options)).

(** [{ filename, contentType, size }]. *)
Definition tokenBody (filename contentType : string) (size : Z)
  : TokenRoute.Body :=
  {| TokenRoute.filename := VString filename;
     TokenRoute.contentType := VString contentType;
     TokenRoute.size := VNumber (Finite (inject_Z size)) |}.

(** A parser for the one metadata text of the examples. *)
Definition parse (text : string) : string + Json :=
  if String.eqb text "{meta}" then
    inr (JObject
           [ ("first", JObject [ ("name", JString " Level 1 ");
                                 ("mimeType", JString " IMAGE/PNG ") ]) ])
  else inl "Unexpected token".

Definition textOf (bytes : list byte) : string :=
  string_of_list_byte bytes.

Definition file (name type : string) (bytes : list byte) : File :=
  {| fileName := name; fileType := type; fileBytes := bytes |}.

(** A form with a prompt, the metadata and three files, the second empty. *)
Definition form : list (string * FormValue) :=
  [ ("prompt", Field " Where is Stair 6? ");
    ("uploadsMeta", Field "{meta}");
    ("first", Attached (file "l1.bin" "application/pdf" Demo.png));
    ("second", Attached (file "empty.png" "image/png" []));
    ("third", Attached (file EmptyString EmptyString Demo.png)) ].

Definition multipart : Request string :=
  {| contentTypeHeader := Some "multipart/form-data; boundary=x";
     jsonBody := inl "not JSON";
     formEntries := inr form |}.

Definition jsonRequest (body : Json) : Request string :=
  {| contentTypeHeader := Some "application/json";
     jsonBody := inr body;
     formEntries := inl "not a form" |}.

End DemoRoutes.

(* ================================================================== *)
(** * Properties *)

(** ** The normaliser, branch by branch *)

Lemma returned_eq {E A} (a b : A) : @inr E A a = inr b -> a = b.
Proof. intro H. injection H as H. exact H. Qed.

Section NormalizerFacts.

Variable extname : string -> string.

Lemma overLimit_true (bytes : Q) :
  overLimit bytes = true <-> (inject_Z MAX_UPLOAD_BYTES < bytes)%Q.
Proof.
  unfold overLimit. rewrite negb_true_iff. split; intro H.
  - apply Qnot_le_lt. intro Hle. apply Qle_bool_iff in Hle. congruence.
  - destruct (Qle_bool bytes (inject_Z MAX_UPLOAD_BYTES)) eqn:E; [|reflexivity].
    apply Qle_bool_iff in E. exfalso. exact (Qlt_not_le _ _ H E).
Qed.

Lemma normalizeUpload_bad_name index upload e :
  displayName index upload = inl e ->
  normalizeUpload extname index upload = inl e.
Proof. intro H. unfold normalizeUpload. rewrite H. reflexivity. Qed.

Lemma normalizeUpload_buffer index upload name buffer :
  displayName index upload = inr name ->
  bufferCandidate upload = Some buffer ->
  normalizeUpload extname index upload =
    if overLimit (declaredOrMeasured upload buffer)
    then inl (Error (sizeLimitMessage index upload))
    else inr (Upload.make
                ("upload-" ++ JsString.ofNat (index + 1)) name
                (if isNullish (Raw.detail upload) then VString "high"
                 else Raw.detail upload)
                (Some buffer)
                (Some match explicitMime upload with
                      | Some mime => mime
                      | None =>
                          match lookup MIME_LOOKUP
                                  (JsString.toLowerCase (extname name)) with
                          | Some mime => mime
                          | None => "application/octet-stream"
                          end
                      end)
                (Some (declaredOrMeasured upload buffer))
                (nonEmpty (trimmedOrEmpty (Raw.dataUrl upload)))
                None None
                (orElse (slashTrimmed (Raw.blobPathname upload))
                        (slashTrimmed (Raw.blobPath upload)))).
Proof. intros Hn Hb. unfold normalizeUpload. rewrite Hn, Hb. reflexivity. Qed.

Lemma normalizeUpload_dataUrl index upload name :
  displayName index upload = inr name ->
  bufferCandidate upload = None ->
  JsString.truthy (trimmedOrEmpty (Raw.dataUrl upload)) = true ->
  normalizeUpload extname index upload =
    match dataUrlPattern (trimmedOrEmpty (Raw.dataUrl upload)) with
    | None => inl (Error (invalidDataUrlMessage index))
    | Some (mime, data) =>
        if overLimit (lengthOf (Base64.decode data))
        then inl (Error (sizeLimitMessage index upload))
        else inr (Upload.make
                    ("upload-" ++ JsString.ofNat (index + 1)) name
                    (if isNullish (Raw.detail upload) then VString "high"
                     else Raw.detail upload)
                    (Some (Base64.decode data))
                    (Some (JsString.toLowerCase mime))
                    (Some (lengthOf (Base64.decode data)))
                    (Some (trimmedOrEmpty (Raw.dataUrl upload)))
                    None None
                    (orElse (slashTrimmed (Raw.blobPathname upload))
                            (slashTrimmed (Raw.blobPath upload))))
    end.
Proof.
  intros Hn Hb Hd. unfold normalizeUpload. rewrite Hn, Hb, Hd.
  destruct (dataUrlPattern _) as [[mime data]|]; reflexivity.
Qed.

Lemma normalizeUpload_remoteUrl index upload name :
  displayName index upload = inr name ->
  bufferCandidate upload = None ->
  JsString.truthy (trimmedOrEmpty (Raw.dataUrl upload)) = false ->
  JsString.truthy (trimmedOrEmpty (Raw.url upload)) = true ->
  normalizeUpload extname index upload =
    inr (Upload.make
           ("upload-" ++ JsString.ofNat (index + 1)) name
           (if isNullish (Raw.detail upload) then VString "high"
            else Raw.detail upload)
           None (explicitMime upload) (reportedBytes upload) None
           (Some (trimmedOrEmpty (Raw.url upload))) None
           (orElse (slashTrimmed (Raw.blobPathname upload))
                   (slashTrimmed (Raw.blobPath upload)))).
Proof.
  intros Hn Hb Hd Hu. unfold normalizeUpload. rewrite Hn, Hb, Hd, Hu.
  reflexivity.
Qed.

Lemma normalizeUpload_s3Key index upload name :
  displayName index upload = inr name ->
  bufferCandidate upload = None ->
  JsString.truthy (trimmedOrEmpty (Raw.dataUrl upload)) = false ->
  JsString.truthy (trimmedOrEmpty (Raw.url upload)) = false ->
  normalizeUpload extname index upload =
    match slashTrimmed (Raw.s3Key upload) with
    | Some key =>
        if JsString.truthy key then
          inr (Upload.make
                 ("upload-" ++ JsString.ofNat (index + 1)) name
                 (if isNullish (Raw.detail upload) then VString "high"
                  else Raw.detail upload)
                 None (explicitMime upload) (reportedBytes upload) None None
                 (Some key)
                 (orElse (slashTrimmed (Raw.blobPathname upload))
                         (slashTrimmed (Raw.blobPath upload))))
        else inl (Error (noSourceMessage name))
    | None => inl (Error (noSourceMessage name))
    end.
Proof.
  intros Hn Hb Hd Hu. unfold normalizeUpload. rewrite Hn, Hb, Hd, Hu.
  reflexivity.
Qed.

(** The length of what [map] returns, and the element that makes it throw. *)
Lemma mapFrom_length uploads : forall index normalized,
  mapFrom extname index uploads = inr normalized ->
  List.length normalized = List.length uploads.
Proof.
  induction uploads as [|e rest IH]; intros index normalized H; simpl in H.
  - inversion H. reflexivity.
  - destruct (normalizeElement extname index e); [discriminate|].
    destruct (mapFrom extname (S index) rest) eqn:E; [discriminate|].
    inversion H; subst. simpl. f_equal. eapply IH; eassumption.
Qed.

Lemma mapFrom_throws uploads : forall index k e thrown,
  nth_error uploads k = Some e ->
  normalizeElement extname (index + k) e = inl thrown ->
  exists thrown', mapFrom extname index uploads = inl thrown'.
Proof.
  induction uploads as [|x rest IH]; intros index k e thrown Hk He.
  - destruct k; discriminate.
  - simpl. destruct k as [|k].
    + inversion Hk; subst. rewrite Nat.add_0_r in He. rewrite He. eauto.
    + destruct (normalizeElement extname index x); [eauto|].
      simpl in Hk. replace (index + S k) with (S index + k) in He by lia.
      destruct (IH (S index) k e thrown Hk He) as [later Hlater].
      rewrite Hlater. eauto.
Qed.

Lemma mapFrom_nth uploads : forall index normalized k n,
  mapFrom extname index uploads = inr normalized ->
  nth_error normalized k = Some n ->
  exists e, nth_error uploads k = Some e
            /\ normalizeElement extname (index + k) e = inr n.
Proof.
  induction uploads as [|x rest IH]; intros index normalized k n H Hk; simpl in H.
  - inversion H; subst. destruct k; discriminate.
  - destruct (normalizeElement extname index x) eqn:Ex; [discriminate|].
    destruct (mapFrom extname (S index) rest) eqn:E; [discriminate|].
    inversion H; subst. destruct k as [|k]; simpl in Hk.
    + inversion Hk; subst. exists x. rewrite Nat.add_0_r. auto.
    + destruct (IH (S index) _ k n E Hk) as [e [H1 H2]].
      exists e. split; [exact H1|].
      replace (index + S k) with (S index + k) by lia. exact H2.
Qed.

Lemma nth_error_firstn_lt {A} (l : list A) : forall n k,
  k < n -> nth_error (firstn n l) k = nth_error l k.
Proof.
  induction l as [|x rest IH]; intros n k Hk.
  - rewrite firstn_nil. reflexivity.
  - destruct n as [|n]; [lia|]. destruct k as [|k]; simpl; [reflexivity|].
    apply IH. lia.
Qed.

End NormalizerFacts.

(* ------------------------------------------------------------------ *)
(** ** The count of normalised uploads *)

(** C6.  Whatever the length of the input array, [normalizeUploads] looks
    at its first [MAX_UPLOAD_COUNT] (6) elements only: the elements beyond
    them change neither the result nor whether it throws, and a returned
    list has the length of the input cut at 6, hence at most 6. *)
Theorem normalized_length_bounded (extname : string -> string)
    (uploads : list element) :
  normalizeUploads extname uploads
    = normalizeUploads extname (firstn MAX_UPLOAD_COUNT uploads)
  /\ (forall extra, MAX_UPLOAD_COUNT <= List.length uploads ->
        normalizeUploads extname (uploads ++ extra)
          = normalizeUploads extname uploads)
  /\ (forall normalized,
        normalizeUploads extname uploads = inr normalized ->
        List.length normalized = Nat.min MAX_UPLOAD_COUNT (List.length uploads)
        /\ List.length normalized <= MAX_UPLOAD_COUNT).
Proof.
  unfold normalizeUploads. split; [|split].
  - rewrite firstn_firstn, Nat.min_id. reflexivity.
  - intros extra Hlen. rewrite firstn_app.
    replace (MAX_UPLOAD_COUNT - List.length uploads) with 0 by lia.
    rewrite firstn_O, app_nil_r. reflexivity.
  - intros normalized H. apply mapFrom_length in H.
    rewrite H, length_firstn. split; [reflexivity|]. apply Nat.le_min_l.
Qed.

(** Seven uploads, the seventh unusable: six come back and nothing throws. *)
Lemma normalized_length_bounded_witness :
  let six := map (fun n => Item (Demo.withUrl n "https://example.org/a.png"))
                 ["A"; "B"; "C"; "D"; "E"; "F"] in
  normalizeUploads Demo.extension (six ++ [Nullish])
    = normalizeUploads Demo.extension six
  /\ exists normalized,
       normalizeUploads Demo.extension (six ++ [Nullish]) = inr normalized
       /\ List.length normalized = 6.
Proof.
  intro six.
  destruct (normalized_length_bounded Demo.extension six) as [_ [Hdrop _]].
  destruct (normalized_length_bounded Demo.extension (six ++ [Nullish]))
    as [_ [_ Hlen]].
  split.
  - apply Hdrop. vm_compute. lia.
  - destruct (normalizeUploads Demo.extension (six ++ [Nullish])) as [e|ns] eqn:E.
    + vm_compute in E. discriminate E.
    + exists ns. split; [reflexivity|].
      destruct (Hlen ns eq_refl) as [Hmin _]. rewrite Hmin. reflexivity.
Defined.

(* ------------------------------------------------------------------ *)
(** ** The size cap *)




(* ------------------------------------------------------------------ *)
(** ** The MIME type of a buffer upload *)

(** C8.  For an upload whose buffer resolves and that is accepted, the
    normalised MIME type follows a strict priority: the explicit field
    ([mimeType], else [type]) in lower case whenever it is a string,
    whatever the name says; else the entry of [MIME_LOOKUP] for the
    lower-cased extension of the display name; else
    [application/octet-stream]. *)
Theorem mime_priority (extname : string -> string) (index : nat)
    (upload : Raw.t) (buffer : list byte) (normalized : Upload.t) :
  bufferCandidate upload = Some buffer ->
  normalizeUpload extname index upload = inr normalized ->
  let ext := JsString.toLowerCase (extname (Upload.name normalized)) in
  (forall mime, Raw.mimeType upload = VString mime ->
      Upload.mimeType normalized = Some (JsString.toLowerCase mime))
  /\ (forall mime, asString (Raw.mimeType upload) = None ->
        Raw.type upload = VString mime ->
        Upload.mimeType normalized = Some (JsString.toLowerCase mime))
  /\ (asString (Raw.mimeType upload) = None ->
      asString (Raw.type upload) = None ->
      forall mime, lookup MIME_LOOKUP ext = Some mime ->
      Upload.mimeType normalized = Some mime)
  /\ (asString (Raw.mimeType upload) = None ->
      asString (Raw.type upload) = None ->
      lookup MIME_LOOKUP ext = None ->
      Upload.mimeType normalized = Some "application/octet-stream").
Proof.
  intros Hb Hn.
  destruct (displayName index upload) as [e|name] eqn:Hname.
  - rewrite (normalizeUpload_bad_name extname index upload Hname) in Hn.
    discriminate.
  - rewrite (normalizeUpload_buffer extname index upload Hname Hb) in Hn.
    destruct (overLimit _); [discriminate|].
    apply returned_eq in Hn. subst normalized. intro ext. subst ext.
    cbn [Upload.name Upload.mimeType]. unfold explicitMime. repeat split.
    + intros mime Hm. rewrite Hm. reflexivity.
    + intros mime Hm Ht. rewrite Hm, Ht. reflexivity.
    + intros Hm Ht mime Hl. rewrite Hm, Ht, Hl. reflexivity.
    + intros Hm Ht Hl. rewrite Hm, Ht, Hl. reflexivity.
Qed.

(** Conflicting signals: the name says PNG, the explicit field says WebP.
    Without the field the name decides, and a name without a known
    extension leaves the generic type. *)
Lemma mime_priority_witness :
  (exists normalized,
      normalizeUpload Demo.extension 0
        (Demo.typed "plan.png" Demo.png "image/WebP") = inr normalized
      /\ Upload.mimeType normalized = Some "image/webp")
  /\ (exists normalized,
        normalizeUpload Demo.extension 0 (Demo.withBuffer "plan.PNG" Demo.png)
          = inr normalized
        /\ Upload.mimeType normalized = Some "image/png")
  /\ (exists normalized,
        normalizeUpload Demo.extension 0 (Demo.withBuffer "plan" Demo.png)
          = inr normalized
        /\ Upload.mimeType normalized = Some "application/octet-stream").
Proof.
  split; [|split].
  - destruct (normalizeUpload Demo.extension 0
                (Demo.typed "plan.png" Demo.png "image/WebP"))
      as [e|normalized] eqn:E.
    + vm_compute in E. discriminate E.
    + exists normalized. split; [reflexivity|].
      destruct (mime_priority Demo.extension 0
                  (Demo.typed "plan.png" Demo.png "image/WebP")
                  (buffer := Demo.png) eq_refl E) as [Hexplicit _].
      exact (Hexplicit "image/WebP" eq_refl).
  - destruct (normalizeUpload Demo.extension 0
                (Demo.withBuffer "plan.PNG" Demo.png))
      as [e|normalized] eqn:E.
    + vm_compute in E. discriminate E.
    + exists normalized. split; [reflexivity|].
      destruct (mime_priority Demo.extension 0
                  (Demo.withBuffer "plan.PNG" Demo.png)
                  (buffer := Demo.png) eq_refl E) as [_ [_ [Hlookup _]]].
      apply (Hlookup eq_refl eq_refl).
      pose proof E as Hvalue. vm_compute in Hvalue.
      apply returned_eq in Hvalue. rewrite <- Hvalue. reflexivity.
  - destruct (normalizeUpload Demo.extension 0
                (Demo.withBuffer "plan" Demo.png))
      as [e|normalized] eqn:E.
    + vm_compute in E. discriminate E.
    + exists normalized. split; [reflexivity|].
      destruct (mime_priority Demo.extension 0
                  (Demo.withBuffer "plan" Demo.png)
                  (buffer := Demo.png) eq_refl E) as [_ [_ [_ Hgeneric]]].
      apply (Hgeneric eq_refl eq_refl).
      pose proof E as Hvalue. vm_compute in Hvalue.
      apply returned_eq in Hvalue. rewrite <- Hvalue. reflexivity.
Defined.

(* ------------------------------------------------------------------ *)
(** ** The priority of the payload sources *)




(* ------------------------------------------------------------------ *)
(** ** Strings *)

Lemma trimEnd_keeps (s : string) :
  JsString.forallb (fun c => negb (JsString.isWhiteSpace c)) s = true ->
  JsString.trimEnd s = s.
Proof.
  induction s as [|c rest IH]; simpl; intro H; [reflexivity|].
  apply andb_true_iff in H. destruct H as [Hc Hrest].
  rewrite (IH Hrest). apply negb_true_iff in Hc. rewrite Hc.
  destruct rest; reflexivity.
Qed.

Lemma trimEnd_app (a b : string) :
  b <> EmptyString -> JsString.trimEnd b = b ->
  JsString.trimEnd (a ++ b) = a ++ b.
Proof.
  intros Hne Hb. induction a as [|c rest IH]; simpl; [exact Hb|].
  rewrite IH. destruct (rest ++ b) eqn:E; [|reflexivity].
  destruct rest; simpl in E; [contradiction|discriminate].
Qed.

Lemma span_not_app (stop : ascii) (a b : string) :
  JsString.forallb (fun c => negb (Ascii.eqb c stop)) a = true ->
  JsString.span_not stop (a ++ String stop b) = (a, String stop b).
Proof.
  induction a as [|c rest IH]; simpl; intro H.
  - rewrite Ascii.eqb_refl. reflexivity.
  - apply andb_true_iff in H. destruct H as [Hc Hrest].
    apply negb_true_iff in Hc. rewrite Hc, (IH Hrest). reflexivity.
Qed.

Lemma forallb_weaken (p q : ascii -> bool) (s : string) :
  (forall c, p c = true -> q c = true) ->
  JsString.forallb p s = true -> JsString.forallb q s = true.
Proof.
  intro Hpq. induction s as [|c rest IH]; simpl; [reflexivity|].
  intro H. apply andb_true_iff in H. destruct H as [Hc Hrest].
  rewrite (Hpq c Hc), (IH Hrest). reflexivity.
Qed.

(* ------------------------------------------------------------------ *)
(** ** The base64 codec *)

Section Base64Facts.

Import Base64.

Local Ltac Zify.zify_post_hook ::= Z.to_euclidean_division_equations.

Lemma by_triples (P : list byte -> Prop) :
  P [] -> (forall a, P [a]) -> (forall a b, P [a; b]) ->
  (forall a b c rest, P rest -> P (a :: b :: c :: rest)) ->
  forall l, P l.
Proof.
  intros H0 H1 H2 H3 l.
  assert (H : P l /\ (forall a, P (a :: l)) /\ (forall a b, P (a :: b :: l))).
  { induction l as [|x rest [IH0 [IH1 IH2]]].
    - auto.
    - repeat split; auto. }
  exact (proj1 H).
Qed.

Lemma digit_value (n : N) : (n < 64)%N -> unbase64 (digit n) = Some n.
Proof.
  intro H. pose (k := N.to_nat n).
  assert (Hk : k < 64) by (unfold k; lia).
  replace n with (N.of_nat k) by (unfold k; apply N2Nat.id).
  clearbody k. clear H.
  do 64 (destruct k as [|k]; [vm_compute; reflexivity|]). lia.
Qed.

Lemma digit_plain (n : N) :
  JsString.isWhiteSpace (digit n) = false
  /\ JsString.isLineTerminator (digit n) = false.
Proof.
  unfold digit. generalize (N.to_nat n) as k. intro k.
  do 64 (destruct k as [|k]; [vm_compute; split; reflexivity|]).
  simpl. vm_compute. split; reflexivity.
Qed.

Lemma byteOf_to_N (b : byte) : byteOf (Byte.to_N b) = b.
Proof.
  unfold byteOf. pose proof (Byte.to_N_bounded b) as Hb.
  rewrite N.mod_small by lia. rewrite Byte.of_to_N. reflexivity.
Qed.

(** What [decode] reads back from a full group and from the padded ones. *)
Lemma sextets_group (a b c : byte) (rest : string) :
  let x := Byte.to_N a in
  let y := Byte.to_N b in
  let z := Byte.to_N c in
  sextets (String (digit (x / 4))
             (String (digit ((x mod 4) * 16 + y / 16))
                (String (digit ((y mod 16) * 4 + z / 64))
                   (String (digit (z mod 64)) rest))))
  = (x / 4 :: (x mod 4) * 16 + y / 16 :: (y mod 16) * 4 + z / 64
       :: z mod 64 :: sextets rest)%N.
Proof.
  intros x y z.
  pose proof (Byte.to_N_bounded a). pose proof (Byte.to_N_bounded b).
  pose proof (Byte.to_N_bounded c).
  cbn [sextets].
  rewrite !digit_value by (subst x y z; lia). reflexivity.
Qed.

Lemma bytes_of_group (a b c : byte) (more : list N) :
  let x := Byte.to_N a in
  let y := Byte.to_N b in
  let z := Byte.to_N c in
  bytesOfSextets
    (x / 4 :: (x mod 4) * 16 + y / 16 :: (y mod 16) * 4 + z / 64
       :: z mod 64 :: more)%N
  = a :: b :: c :: bytesOfSextets more.
Proof.
  intros x y z.
  pose proof (Byte.to_N_bounded a). pose proof (Byte.to_N_bounded b).
  pose proof (Byte.to_N_bounded c).
  cbn [bytesOfSextets].
  replace (x / 4 * 4 + ((x mod 4) * 16 + y / 16) / 16)%N with x
    by (subst x y z; lia).
  replace ((((x mod 4) * 16 + y / 16) mod 16) * 16
           + ((y mod 16) * 4 + z / 64) / 4)%N with y
    by (subst x y z; lia).
  replace ((((y mod 16) * 4 + z / 64) mod 4) * 64 + z mod 64)%N with z
    by (subst x y z; lia).
  subst x y z. rewrite !byteOf_to_N. reflexivity.
Qed.

(** Decoding what [toString("base64")] wrote gives the bytes back. *)
Lemma decode_encode (buffer : list byte) : decode (encode buffer) = buffer.
Proof.
  unfold decode. induction buffer as [|a|a b|a b c rest IH] using by_triples.
  - reflexivity.
  - pose proof (Byte.to_N_bounded a).
    cbn [encode sextets].
    rewrite !digit_value by lia. cbn [bytesOfSextets].
    replace (Byte.to_N a / 4 * 4 + Byte.to_N a mod 4 * 16 / 16)%N
      with (Byte.to_N a) by lia.
    rewrite byteOf_to_N. reflexivity.
  - pose proof (Byte.to_N_bounded a). pose proof (Byte.to_N_bounded b).
    cbn [encode sextets].
    rewrite !digit_value by lia. cbn [bytesOfSextets].
    replace (Byte.to_N a / 4 * 4
             + (Byte.to_N a mod 4 * 16 + Byte.to_N b / 16) / 16)%N
      with (Byte.to_N a) by lia.
    replace ((Byte.to_N a mod 4 * 16 + Byte.to_N b / 16) mod 16 * 16
             + Byte.to_N b mod 16 * 4 / 4)%N
      with (Byte.to_N b) by lia.
    rewrite !byteOf_to_N. reflexivity.
  - cbn [encode]. rewrite sextets_group, bytes_of_group, IH. reflexivity.
Qed.

Lemma encode_plain (buffer : list byte) :
  JsString.forallb
    (fun c => negb (JsString.isWhiteSpace c)
              && negb (JsString.isLineTerminator c)) (encode buffer) = true.
Proof.
  assert (Hd : forall n,
             negb (JsString.isWhiteSpace (digit n))
             && negb (JsString.isLineTerminator (digit n)) = true).
  { intro n. destruct (digit_plain n) as [Hw Hl]. rewrite Hw, Hl. reflexivity. }
  induction buffer as [|a|a b|a b c rest IH] using by_triples;
    cbn [encode JsString.forallb]; rewrite ?Hd, ?IH; reflexivity.
Qed.

Lemma encode_not_empty (buffer : list byte) :
  buffer <> [] -> encode buffer <> EmptyString.
Proof.
  destruct buffer as [|a [|b [|c rest]]]; [congruence| | |];
    intros _; cbn [encode]; discriminate.
Qed.

End Base64Facts.

(* ------------------------------------------------------------------ *)
(** ** Data URLs there and back *)

(** The data URL written for the empty buffer has no payload; the pattern
    of the normaliser asks for at least one character of it, finds no match
    and the upload is refused instead of being decoded to the empty buffer.
    A MIME type with a parameter fails the same way: the pattern lets the
    type end at its first semicolon and then wants [base64,]. *)
Lemma empty_buffer_not_read_back :
  let dataUrl := bufferToDataUrl [] (Some "image/png") in
  let withParameter :=
    bufferToDataUrl Demo.png (Some "text/plain;charset=utf-8") in
  dataUrlPattern (JsString.trim dataUrl) = None
  /\ normalizeUpload Demo.extension 0 (Demo.withDataUrl "empty.png" dataUrl)
     = inl (Error (invalidDataUrlMessage 0))
  /\ dataUrlPattern (JsString.trim withParameter) = None.
Proof. intros dataUrl withParameter. repeat split; vm_compute; reflexivity. Qed.

Lemma isEmpty_false (s : string) : s <> EmptyString -> JsString.isEmpty s = false.
Proof. destruct s; [congruence|reflexivity]. Qed.

Lemma dataUrl_trimmed (buffer : list byte) (mime : string) :
  buffer <> [] ->
  JsString.trim (bufferToDataUrl buffer (Some mime))
    = bufferToDataUrl buffer (Some mime).
Proof.
  intro Hne. unfold JsString.trim, bufferToDataUrl.
  assert (Henc : JsString.trimEnd (Base64.encode buffer) = Base64.encode buffer).
  { apply trimEnd_keeps.
    eapply forallb_weaken; [|apply encode_plain].
    intros c Hc. apply andb_true_iff in Hc. tauto. }
  pose proof (encode_not_empty Hne) as Hne'.
  assert (Htail : JsString.trimEnd ("data:" ++ mime ++ ";base64,"
                                      ++ Base64.encode buffer)
                  = "data:" ++ mime ++ ";base64," ++ Base64.encode buffer).
  { apply trimEnd_app; [|apply trimEnd_app; [|apply trimEnd_app]];
      try assumption; try (cbn [append]; discriminate).
    destruct mime; cbn [append]; discriminate. }
  change (JsString.trimStart ("data:" ++ mime ++ ";base64,"
                                ++ Base64.encode buffer))
    with ("data:" ++ mime ++ ";base64," ++ Base64.encode buffer).
  exact Htail.
Qed.

Lemma dataUrl_matches (buffer : list byte) (mime : string) :
  buffer <> [] -> mime <> EmptyString ->
  JsString.forallb (fun c => negb (Ascii.eqb c ";")) mime = true ->
  dataUrlPattern (bufferToDataUrl buffer (Some mime))
    = Some (mime, Base64.encode buffer).
Proof.
  intros Hne Hmime Hsemi. unfold dataUrlPattern, bufferToDataUrl.
  change (JsString.prefix_i "data:"
            ("data:" ++ mime ++ ";base64," ++ Base64.encode buffer))
    with (Some (mime ++ String ";" ("base64," ++ Base64.encode buffer))).
  cbv beta iota. rewrite (span_not_app ";" mime _ Hsemi).
  rewrite (isEmpty_false Hmime).
  change (JsString.prefix_i ";base64,"
            (String ";" ("base64," ++ Base64.encode buffer)))
    with (Some (Base64.encode buffer)).
  cbv beta iota. rewrite (isEmpty_false (encode_not_empty Hne)).
  assert (Hlt : JsString.forallb
                  (fun c => negb (JsString.isLineTerminator c))
                  (Base64.encode buffer) = true).
  { eapply forallb_weaken; [|apply encode_plain].
    intros c Hc. apply andb_true_iff in Hc. tauto. }
  rewrite Hlt. reflexivity.
Qed.

(** C9, amended.  For every buffer that is not empty and every MIME type
    that is not empty and holds no semicolon, the data URL that
    [bufferToDataUrl] writes is matched by the pattern of the normaliser
    with the MIME type and the payload as its groups, and decoding the
    payload gives the bytes back; a descriptor that carries this data URL
    and no buffer is normalised, whenever it is accepted, to an upload with
    exactly these bytes, and it is accepted when its name can be read and
    the buffer is within the cap. *)
Theorem data_url_roundtrip (buffer : list byte) (mime : string) :
  buffer <> [] -> mime <> EmptyString ->
  JsString.forallb (fun c => negb (Ascii.eqb c ";")) mime = true ->
  let dataUrl := bufferToDataUrl buffer (Some mime) in
  dataUrlPattern (JsString.trim dataUrl) = Some (mime, Base64.encode buffer)
  /\ Base64.decode (Base64.encode buffer) = buffer
  /\ forall extname index upload,
       bufferCandidate upload = None ->
       Raw.dataUrl upload = VString dataUrl ->
       (forall n, normalizeUpload extname index upload = inr n ->
                  Upload.buffer n = Some buffer
                  /\ Upload.bytes n = Some (lengthOf buffer)
                  /\ Upload.mimeType n = Some (JsString.toLowerCase mime))
       /\ (overLimit (lengthOf buffer) = false ->
           forall name, displayName index upload = inr name ->
           exists n, normalizeUpload extname index upload = inr n).
Proof.
  intros Hne Hmime Hsemi dataUrl. subst dataUrl.
  rewrite (dataUrl_trimmed mime Hne).
  pose proof (dataUrl_matches Hne Hmime Hsemi) as Hmatch.
  split; [exact Hmatch|]. split; [apply decode_encode|].
  intros extname index upload Hb Hd.
  assert (Htrim : trimmedOrEmpty (Raw.dataUrl upload)
                  = bufferToDataUrl buffer (Some mime)).
  { unfold trimmedOrEmpty. rewrite Hd. cbn [asString].
    apply dataUrl_trimmed. exact Hne. }
  assert (Htruthy : JsString.truthy (trimmedOrEmpty (Raw.dataUrl upload)) = true).
  { rewrite Htrim. reflexivity. }
  split.
  - intros n Hn.
    destruct (displayName index upload) as [e|name] eqn:Hname.
    + rewrite (normalizeUpload_bad_name extname index upload Hname) in Hn.
      discriminate.
    + rewrite (normalizeUpload_dataUrl extname index upload Hname Hb Htruthy)
        in Hn.
      rewrite Htrim, Hmatch, decode_encode in Hn.
      destruct (overLimit _); [discriminate|].
      apply returned_eq in Hn. subst n. repeat split.
  - intros Hfits name Hname.
    rewrite (normalizeUpload_dataUrl extname index upload Hname Hb Htruthy).
    rewrite Htrim, Hmatch, decode_encode, Hfits. eauto.
Qed.

Lemma data_url_roundtrip_witness :
  dataUrlPattern (JsString.trim (bufferToDataUrl Demo.png (Some "image/png")))
    = Some ("image/png", "iVBORw==")
  /\ Base64.decode "iVBORw==" = Demo.png
  /\ exists n,
       normalizeUpload Demo.extension 0
         (Demo.withDataUrl "plan.png"
            (bufferToDataUrl Demo.png (Some "image/png"))) = inr n
       /\ Upload.buffer n = Some Demo.png.
Proof.
  assert (Hne : Demo.png <> []) by discriminate.
  assert (Hmime : "image/png" <> EmptyString) by discriminate.
  destruct (data_url_roundtrip (buffer := Demo.png) (mime := "image/png")
              Hne Hmime eq_refl) as [Hmatch [Hback Hnormal]].
  split; [exact Hmatch|]. split; [exact Hback|].
  destruct (Hnormal Demo.extension 0
              (Demo.withDataUrl "plan.png"
                 (bufferToDataUrl Demo.png (Some "image/png")))
              eq_refl eq_refl) as [Hbytes Haccepted].
  destruct (Haccepted eq_refl "plan.png" eq_refl) as [n Hn].
  exists n. split; [exact Hn|]. exact (proj1 (Hbytes n Hn)).
Defined.

(* ------------------------------------------------------------------ *)
(** ** The two loops of [buildImageInputs] *)

Section DeliveryFacts.

Context {World Failure : Type} (P : Platform World Failure).

Local Open Scope list_scope.

Lemma referenceBlocks_shape image (st st' : State) blocks :
  referenceBlocks P image st = (st', inr blocks) ->
  exists url, blocks = referencePair (image, url).
Proof.
  unfold referenceBlocks, bind, ofResult. intro H.
  destruct (await _ st) as [s1 [t|file]]; [discriminate|].
  destruct (toDataUrl P _ file) as [e|url]; unfold throw, ret in H;
    [discriminate|].
  exists url. injection H as _ H. symmetry. exact H.
Qed.

Lemma forImages_shape images : forall contents (st st' : State) result,
  forImages P images contents st = (st', inr result) ->
  exists urls,
    List.length urls = List.length images
    /\ result = contents ++ flat_map referencePair (combine images urls).
Proof.
  induction images as [|image rest IH]; intros contents st st' result H.
  - injection H as _ H. exists []. rewrite app_nil_r. auto.
  - cbn [forImages] in H. unfold bind in H.
    destruct (referenceBlocks P image st) as [s1 [t|blocks]] eqn:E;
      [discriminate|].
    destruct (referenceBlocks_shape _ _ E) as [url Hblocks].
    destruct (IH _ _ _ _ H) as [urls [Hlen Hres]].
    exists (url :: urls). split; [simpl; congruence|].
    rewrite Hres, Hblocks, <- app_assoc. reflexivity.
Qed.

(** Every step of the loop body leaves the identifier of the summary. *)
Lemma passRemoteUrl_id upload d :
  Summary.id (summary (passRemoteUrl upload d)) = Summary.id (summary d).
Proof. unfold passRemoteUrl. destruct (truthy _); reflexivity. Qed.

Lemma inlineFallback_id upload d :
  Summary.id (summary (inlineFallback upload d)) = Summary.id (summary d).
Proof.
  unfold inlineFallback. destruct (negb _); [|reflexivity].
  destruct (truthy _); reflexivity.
Qed.

Lemma signExistingKey_id upload d (st st' : State) d' :
  signExistingKey P upload d st = (st', inr d') ->
  Summary.id (summary d') = Summary.id (summary d).
Proof.
  unfold signExistingKey. destruct (_ && _); [|intro H; injection H as _ <-; auto].
  unfold tryCatch, bind.
  destruct (createSignedUrlForKey P _ st) as [s1 [t|[key url]]].
  - unfold log, throw. discriminate.
  - destruct (JsString.truthy url); unfold ret; intro H; injection H as _ <-;
      reflexivity.
Qed.

Lemma offloadBuffer_id upload d (st st' : State) d' :
  offloadBuffer P upload d st = (st', inr d') ->
  Summary.id (summary d') = Summary.id (summary d).
Proof.
  unfold offloadBuffer. destruct (_ && _); [|intro H; injection H as _ <-; auto].
  unfold tryCatch, bind.
  destruct (uploadBufferToS3 P _ _ st) as [s1 [t|[[key url]|]]].
  - unfold log, ret. intro H. injection H as _ <-. reflexivity.
  - destruct (JsString.truthy url); unfold ret; intro H; injection H as _ <-;
      reflexivity.
  - unfold ret. intro H. injection H as _ <-. reflexivity.
Qed.

Lemma deliverUpload_shape upload (st st' : State) pushed :
  deliverUpload P upload st = (st', inr pushed) ->
  Summary.id (fst pushed) = Upload.id upload
  /\ exists url, snd pushed = uploadPair (upload, url).
Proof.
  unfold deliverUpload, bind. intro H.
  destruct (signExistingKey P upload _ st) as [s2 [t|d2]] eqn:E2;
    [discriminate|].
  destruct (offloadBuffer P upload d2 s2) as [s3 [t|d3]] eqn:E3;
    [discriminate|].
  destruct (negb (truthy (imageUrlPayload (inlineFallback upload d3))));
    unfold throw, ret in H; [discriminate|].
  injection H as _ H. subst pushed. cbn [fst snd]. split.
  - rewrite inlineFallback_id, (offloadBuffer_id _ _ _ E3),
      (signExistingKey_id _ _ _ E2), passRemoteUrl_id. reflexivity.
  - eexists. reflexivity.
Qed.

Lemma forUploads_shape uploads : forall contents summaries (st st' : State) result,
  forUploads P uploads contents summaries st = (st', inr result) ->
  exists urls,
    List.length urls = List.length uploads
    /\ fst result = contents ++ flat_map uploadPair (combine uploads urls)
    /\ exists added,
         snd result = summaries ++ added
         /\ map Summary.id added = map Upload.id uploads.
Proof.
  induction uploads as [|upload rest IH]; intros contents summaries st st' result H.
  - injection H as _ H. subst result. exists []. cbn.
    rewrite app_nil_r. repeat split. exists []. rewrite app_nil_r. auto.
  - cbn [forUploads] in H. unfold bind in H.
    destruct (deliverUpload P upload st) as [s1 [t|pushed]] eqn:E;
      [discriminate|].
    destruct (deliverUpload_shape _ _ E) as [Hid [url Hblocks]].
    destruct (IH _ _ _ _ _ H) as [urls [Hlen [Hres [added [Hsum Hids]]]]].
    exists (url :: urls). split; [simpl; congruence|]. split.
    + rewrite Hres, Hblocks, <- app_assoc. reflexivity.
    + exists (fst pushed :: added). split.
      * rewrite Hsum, <- app_assoc. reflexivity.
      * simpl. congruence.
Qed.

Lemma forUploads_app before : forall after contents summaries (st : State),
  forUploads P (before ++ after) contents summaries st
  = match forUploads P before contents summaries st with
    | (st1, inr (contents1, summaries1)) =>
        forUploads P after contents1 summaries1 st1
    | (st1, inl t) => (st1, inl t)
    end.
Proof.
  induction before as [|upload rest IH]; intros after contents summaries st.
  - reflexivity.
  - cbn [app forUploads]. unfold bind.
    destruct (deliverUpload P upload st) as [s1 [t|pushed]]; [reflexivity|].
    apply IH.
Qed.

(** What a returning [buildImageInputs] has built. *)
Lemma buildImageInputs_shape uploadPayloads (st st' : State) contents summaries :
  buildImageInputs P uploadPayloads st = (st', inr (contents, summaries)) ->
  exists normalized referenceUrls uploadUrls,
    normalizeUploads (extname P) uploadPayloads = inr normalized
    /\ List.length referenceUrls
       = List.length (Config.images (schematicConfig P))
    /\ List.length uploadUrls = List.length normalized
    /\ contents
       = flat_map referencePair
           (combine (Config.images (schematicConfig P)) referenceUrls)
         ++ flat_map uploadPair (combine normalized uploadUrls)
    /\ map Summary.id summaries = map Upload.id normalized.
Proof.
  unfold buildImageInputs, bind, ofResult. intro H.
  destruct (normalizeUploads (extname P) uploadPayloads) as [e|normalized];
    unfold throw, ret in H; [discriminate|].
  destruct (forImages P _ [] st) as [s1 [t|refs]] eqn:Erefs; [discriminate|].
  destruct (forImages_shape _ _ _ Erefs) as [referenceUrls [Hrl Hrefs]].
  destruct (forUploads_shape _ _ _ _ H)
    as [uploadUrls [Hul [Hcontents [added [Hsum Hids]]]]].
  cbn [fst snd] in Hcontents, Hsum.
  exists normalized, referenceUrls, uploadUrls. repeat split; try assumption.
  - rewrite Hcontents, Hrefs. reflexivity.
  - rewrite Hsum. exact Hids.
Qed.

End DeliveryFacts.

Lemma nth_error_firstn_some {A} (l : list A) : forall n k x,
  nth_error (firstn n l) k = Some x -> nth_error l k = Some x.
Proof.
  induction l as [|y rest IH]; intros n k x H.
  - rewrite firstn_nil in H. destruct k; discriminate.
  - destruct n as [|n]; [destruct k; discriminate|].
    destruct k as [|k]; simpl in *; [exact H|]. eapply IH. exact H.
Qed.

Lemma count_reference_images (l : list (Config.Image * string)) :
  List.length (filter isInputImage (flat_map referencePair l)) = List.length l.
Proof. induction l as [|p rest IH]; simpl; congruence. Qed.

Lemma count_upload_images (l : list (Upload.t * string)) :
  List.length (filter isInputImage (flat_map uploadPair l)) = List.length l.
Proof. induction l as [|p rest IH]; simpl; congruence. Qed.

(** The identifier is the position, counted from one. *)
Lemma normalizeUpload_id (extname : string -> string) (index : nat)
    (raw : Raw.t) (upload : Upload.t) :
  normalizeUpload extname index raw = inr upload ->
  Upload.id upload = "upload-" ++ JsString.ofNat (index + 1).
Proof.
  intro H.
  destruct (displayName index raw) as [e|name] eqn:Hname.
  { rewrite (normalizeUpload_bad_name extname index raw Hname) in H.
    discriminate. }
  destruct (bufferCandidate raw) as [buffer|] eqn:Hb.
  { rewrite (normalizeUpload_buffer extname index raw Hname Hb) in H.
    destruct (overLimit _); [discriminate|].
    apply returned_eq in H. subst upload. reflexivity. }
  destruct (JsString.truthy (trimmedOrEmpty (Raw.dataUrl raw))) eqn:Hd.
  { rewrite (normalizeUpload_dataUrl extname index raw Hname Hb Hd) in H.
    destruct (dataUrlPattern _) as [[mime data]|]; [|discriminate].
    destruct (overLimit _); [discriminate|].
    apply returned_eq in H. subst upload. reflexivity. }
  destruct (JsString.truthy (trimmedOrEmpty (Raw.url raw))) eqn:Hu.
  { rewrite (normalizeUpload_remoteUrl extname index raw Hname Hb Hd Hu) in H.
    apply returned_eq in H. subst upload. reflexivity. }
  rewrite (normalizeUpload_s3Key extname index raw Hname Hb Hd Hu) in H.
  destruct (slashTrimmed (Raw.s3Key raw)) as [key|]; [|discriminate].
  destruct (JsString.truthy key); [|discriminate].
  apply returned_eq in H. subst upload. reflexivity.
Qed.

(* ------------------------------------------------------------------ *)
(** ** The order of the content and the count of attached images *)

Section AssemblyClaims.

Context {World Failure : Type} (P : Platform World Failure).

Local Open Scope list_scope.

(** C10.  In the success answer of [POST], [uploadsAttached] counts the
    image blocks of the content sent to the model: the configured
    reference images plus the normalised uploads, while [uploadSummaries]
    has one entry per normalised upload only. *)
Theorem uploadsAttached_counts_references (question : string)
    (uploadPayloads : list element) (st st' : State) (answer : SuccessBody) :
  POST P question uploadPayloads st = (st', json 200 (Success answer)) ->
  exists normalized,
    normalizeUploads (extname P) uploadPayloads = inr normalized
    /\ uploadsAttached answer
       = List.length (Config.images (schematicConfig P))
         + List.length normalized
    /\ List.length (uploadSummaries answer) = List.length normalized.
Proof.
  unfold POST. destruct (negb (truthy (env P "OPENAI_API_KEY")));
    [discriminate|].
  destruct (negb (JsString.truthy question)); [discriminate|].
  destruct (visionRequest P question uploadPayloads st)
    as [s1 [t|body]] eqn:E; [discriminate|].
  intro H. injection H as _ H. subst body.
  unfold visionRequest, bind in E.
  destruct (buildImageInputs P uploadPayloads st)
    as [s2 [t|[contents summaries]]] eqn:Eb; [discriminate|].
  destruct (await _ s2) as [s3 [t|response]]; [discriminate|].
  unfold ret in E. injection E as _ E. subst answer.
  cbn [uploadsAttached uploadSummaries fst snd].
  destruct (buildImageInputs_shape _ _ _ Eb)
    as [normalized [referenceUrls [uploadUrls [Hn [Hrl [Hul [Hc Hs]]]]]]].
  exists normalized. split; [exact Hn|]. split.
  - rewrite Hc, filter_app, length_app, count_reference_images,
      count_upload_images, !length_combine, Hrl, Hul, !Nat.min_id.
    reflexivity.
  - rewrite <- (length_map Summary.id), Hs, length_map. reflexivity.
Qed.

End AssemblyClaims.

Lemma uploadsAttached_counts_references_witness :
  let P := Demo.platform false false false [Demo.levelOne] in
  let payloads := [Item (Demo.withDataUrl "plan.png" "data:image/png;base64,AAAA")] in
  exists st' answer,
    POST P "Where is Stair 6?" payloads Demo.start
      = (st', json 200 (Success answer))
    /\ uploadsAttached answer = 2
    /\ List.length (uploadSummaries answer) = 1.
Proof.
  intros P payloads.
  destruct (POST P "Where is Stair 6?" payloads Demo.start)
    as [st' [code [answer|message caught]]] eqn:E.
  - assert (Hcode : code = 200).
    { vm_compute in E. injection E as _ Hcode _. symmetry. exact Hcode. }
    subst code.
    destruct (uploadsAttached_counts_references P _ _ _ E)
      as [normalized [Hn [Hcount Hsum]]].
    vm_compute in Hn. apply returned_eq in Hn. subst normalized.
    exists st', answer. split; [reflexivity|]. split; assumption.
  - vm_compute in E. discriminate E.
Defined.

(* ------------------------------------------------------------------ *)
(** ** The strategies of the loop body *)

(** How an accepted descriptor was resolved, read off its normal form. *)
Lemma normalizeUpload_resolved (extname : string -> string) (index : nat)
    (raw : Raw.t) (upload : Upload.t) :
  normalizeUpload extname index raw = inr upload ->
  (exists buffer mime,
      bufferCandidate raw = Some buffer
      /\ Upload.buffer upload = Some buffer
      /\ Upload.mimeType upload = Some mime
      /\ Upload.dataUrl upload = nonEmpty (trimmedOrEmpty (Raw.dataUrl raw))
      /\ Upload.remoteUrl upload = None /\ Upload.s3Key upload = None)
  \/ (exists buffer mime,
        bufferCandidate raw = None
        /\ JsString.truthy (trimmedOrEmpty (Raw.dataUrl raw)) = true
        /\ Upload.buffer upload = Some buffer
        /\ Upload.mimeType upload = Some mime
        /\ Upload.dataUrl upload = Some (trimmedOrEmpty (Raw.dataUrl raw))
        /\ Upload.remoteUrl upload = None /\ Upload.s3Key upload = None)
  \/ (bufferCandidate raw = None
      /\ JsString.truthy (trimmedOrEmpty (Raw.dataUrl raw)) = false
      /\ JsString.truthy (trimmedOrEmpty (Raw.url raw)) = true
      /\ Upload.buffer upload = None /\ Upload.dataUrl upload = None
      /\ Upload.remoteUrl upload = Some (trimmedOrEmpty (Raw.url raw))
      /\ Upload.s3Key upload = None)
  \/ (exists key,
        bufferCandidate raw = None
        /\ JsString.truthy (trimmedOrEmpty (Raw.dataUrl raw)) = false
        /\ JsString.truthy (trimmedOrEmpty (Raw.url raw)) = false
        /\ JsString.truthy key = true
        /\ Upload.buffer upload = None /\ Upload.dataUrl upload = None
        /\ Upload.remoteUrl upload = None /\ Upload.s3Key upload = Some key).
Proof.
  intro H.
  destruct (displayName index raw) as [e|name] eqn:Hname.
  { rewrite (normalizeUpload_bad_name extname index raw Hname) in H.
    discriminate. }
  destruct (bufferCandidate raw) as [buffer|] eqn:Hb.
  { rewrite (normalizeUpload_buffer extname index raw Hname Hb) in H.
    destruct (overLimit _); [discriminate|].
    apply returned_eq in H. subst upload. left.
    eexists. eexists. repeat split. }
  destruct (JsString.truthy (trimmedOrEmpty (Raw.dataUrl raw))) eqn:Hd.
  { rewrite (normalizeUpload_dataUrl extname index raw Hname Hb Hd) in H.
    destruct (dataUrlPattern _) as [[mime data]|]; [|discriminate].
    destruct (overLimit _); [discriminate|].
    apply returned_eq in H. subst upload. right. left.
    eexists. eexists. repeat split. }
  destruct (JsString.truthy (trimmedOrEmpty (Raw.url raw))) eqn:Hu.
  { rewrite (normalizeUpload_remoteUrl extname index raw Hname Hb Hd Hu) in H.
    apply returned_eq in H. subst upload. right. right. left. repeat split. }
  rewrite (normalizeUpload_s3Key extname index raw Hname Hb Hd Hu) in H.
  destruct (slashTrimmed (Raw.s3Key raw)) as [key|]; [|discriminate].
  destruct (JsString.truthy key) eqn:Hk; [|discriminate].
  apply returned_eq in H. subst upload. right. right. right.
  exists key. repeat split. exact Hk.
Qed.

Section StrategyFacts.

Context {World Failure : Type} (P : Platform World Failure).

Lemma truthy_nonEmpty (s : string) : truthy (nonEmpty s) = JsString.truthy s.
Proof. unfold nonEmpty. destruct (JsString.truthy s) eqn:E; simpl; auto. Qed.

(** Step 1 alone decides when the upload has a remote URL: the other
    steps find [imageUrlPayload] set and the state is left as it was. *)
Lemma deliverUpload_remoteUrl (upload : Upload.t) (url : string) (st : State) :
  Upload.remoteUrl upload = Some url ->
  JsString.truthy url = true ->
  deliverUpload P upload st
  = (st,
     inr (withStrategy (initialSummary upload)
            (if JsString.test_i "vercel-storage.com" url
             then "vercel-blob" else "remote-url")
            None (Some url)
            (if truthy (Upload.blobPathname upload)
             then Upload.blobPathname upload else None),
          uploadPair (upload, url))).
Proof.
  intros Hr Hu. unfold deliverUpload, passRemoteUrl.
  rewrite Hr. cbn [truthy stringOf]. rewrite Hu.
  unfold signExistingKey. cbn [imageUrlPayload truthy]. rewrite Hu.
  cbn [negb andb]. unfold bind at 1. unfold ret at 1.
  unfold offloadBuffer. cbn [imageUrlPayload truthy]. rewrite Hu.
  cbn [negb andb]. unfold bind at 1. unfold ret at 1.
  unfold inlineFallback. cbn [imageUrlPayload truthy]. rewrite Hu.
  cbn [negb imageUrlPayload truthy]. rewrite Hu. cbn [negb].
  reflexivity.
Qed.

(** The signing call of step 2 throws: no client, or the presigner
    rejects. *)
Lemma createSignedUrlForKey_fails (key : string) (st : State) :
  (s3Client P = false
   \/ exists w failure,
        getSignedUrl P {| get_Bucket := AWS_BUCKET P;
                          get_Key := trimSlashes key |} (60 * 60) (world st)
        = (w, inl failure)) ->
  exists st1 error,
    createSignedUrlForKey P key st = (st1, inl error)
    /\ console st1 = console st.
Proof.
  unfold createSignedUrlForKey. intros [Hnone | [w [failure Hsign]]].
  - rewrite Hnone. cbn [negb]. unfold throw. eauto.
  - destruct (negb (s3Client P)); [unfold throw; eauto|].
    unfold bind, await. rewrite Hsign. eauto.
Qed.

(** Step 2 when the signing call throws: the error is logged and replaced
    by the one that names the upload. *)
Lemma deliverUpload_signing_fails (upload : Upload.t) (key : string)
    (st st1 : State) (error : thrown) :
  truthy (Upload.remoteUrl upload) = false ->
  Upload.s3Key upload = Some key ->
  JsString.truthy key = true ->
  createSignedUrlForKey P key st = (st1, inl error) ->
  deliverUpload P upload st
  = ({| world := world st1;
        console := (console st1
                     ++ [console_error "Failed to sign existing S3 key" error
                           [("key", key); ("name", Upload.name upload)]])%list |},
     inl (Threw (Error (signingFailedMessage (Upload.name upload))))).
Proof.
  intros Hr Hk Hkey Hsign. unfold deliverUpload, passRemoteUrl.
  rewrite Hr. unfold signExistingKey. cbn [imageUrlPayload truthy].
  rewrite Hk. cbn [truthy stringOf negb andb]. rewrite Hkey.
  unfold bind at 1. unfold tryCatch. unfold bind at 1. rewrite Hsign.
  unfold bind, log, throw. reflexivity.
Qed.

(** Steps 3 and 4 for an upload with a buffer, no remote URL and no key,
    when the offload throws: the error is logged, then the inline step
    decides. *)
Lemma deliverUpload_offload_fails (upload : Upload.t) (buffer : list byte)
    (st st1 : State) (error : thrown) :
  truthy (Upload.remoteUrl upload) = false ->
  truthy (Upload.s3Key upload) = false ->
  Upload.buffer upload = Some buffer ->
  s3Client P = true ->
  uploadBufferToS3 P buffer (Upload.mimeType upload) st = (st1, inl error) ->
  deliverUpload P upload st
  = ({| world := world st1;
        console := (console st1
                     ++ [console_error
                           "Failed to offload upload to S3, falling back to inline"
                           error [("name", Upload.name upload)]])%list |},
     if truthy (Upload.dataUrl upload) then
       inr (withStrategy (initialSummary upload) "inline" None None None,
            uploadPair (upload, stringOf (Upload.dataUrl upload)))
     else if truthy (Upload.mimeType upload) then
       inr (withStrategy (initialSummary upload) "inline" None None None,
            uploadPair (upload, bufferToDataUrl buffer (Upload.mimeType upload)))
     else inl (Threw (Error (noImageUrlMessage (Upload.name upload))))).
Proof.
  intros Hr Hk Hb Hclient Hoff. unfold deliverUpload, passRemoteUrl.
  rewrite Hr. unfold signExistingKey. cbn [imageUrlPayload truthy].
  rewrite Hk. cbn [negb andb]. unfold bind at 1. unfold ret at 1.
  unfold offloadBuffer. cbn [imageUrlPayload truthy]. rewrite Hb, Hclient.
  cbn [negb andb isSome]. unfold bind at 1. unfold tryCatch.
  unfold bind at 1. rewrite Hoff. unfold bind at 1. unfold log, ret at 1.
  unfold inlineFallback. cbn [imageUrlPayload]. rewrite Hb.
  change (truthy None) with false. cbn [negb].
  destruct (truthy (Upload.dataUrl upload)) eqn:Hd.
  - rewrite Hd. cbn [imageUrlPayload summary]. rewrite Hd. reflexivity.
  - destruct (truthy (Upload.mimeType upload)) eqn:Hm.
    + reflexivity.
    + reflexivity.
Qed.

End StrategyFacts.

(* ------------------------------------------------------------------ *)
(** ** Remote URLs, existing keys and the best-effort offload *)

(** A descriptor with a usable remote URL and a buffer: the buffer wins in
    [normalizeUploads], the URL is dropped there, and with a storage client
    the upload is offloaded. *)
Lemma buffer_overrides_remote_url :
  let P := Demo.platform true false false [] in
  let raw := Demo.withUrlAndBuffer "A" "https://example.org/a.png" Demo.png in
  JsString.truthy (trimmedOrEmpty (Raw.url raw)) = true
  /\ exists st' contents summary,
       buildImageInputs P [Item raw] Demo.start
         = (st', inr (contents, [summary]))
       /\ Summary.strategy summary = Some "s3"
       /\ Summary.strategy summary <> Some "vercel-blob"
       /\ Summary.strategy summary <> Some "remote-url".
Proof.
  intros P raw. split; [reflexivity|].
  eexists. eexists. eexists. split; [vm_compute; reflexivity|].
  split; [reflexivity|]. split; discriminate.
Qed.

Section StrategyClaims.

Context {World Failure : Type} (P : Platform World Failure).

Local Open Scope list_scope.

(** C1, amended.  A normalised upload that carries a remote URL is always
    delivered by passing the URL through, with the tag [vercel-blob] or
    [remote-url]: no storage call is made and the state is untouched, even
    when the normalised upload also holds a buffer.  A descriptor keeps its
    remote URL through normalisation exactly when it has no buffer and no
    data URL that resolves; next to either of them the URL is dropped
    before the delivery. *)
Theorem remote_url_passthrough (st : State) :
  (forall upload, truthy (Upload.remoteUrl upload) = true ->
     exists url summary,
       Upload.remoteUrl upload = Some url
       /\ deliverUpload P upload st
          = (st, inr (summary, uploadPair (upload, url)))
       /\ Summary.strategy summary
          = Some (if JsString.test_i "vercel-storage.com" url
                  then "vercel-blob" else "remote-url")%string
       /\ Summary.url summary = Some url
       /\ Summary.key summary = None)
  /\ (forall index raw upload,
        normalizeUpload (extname P) index raw = inr upload ->
        (truthy (Upload.remoteUrl upload) = true
         <-> bufferCandidate raw = None
             /\ JsString.truthy (trimmedOrEmpty (Raw.dataUrl raw)) = false
             /\ JsString.truthy (trimmedOrEmpty (Raw.url raw)) = true)
        /\ (truthy (Upload.remoteUrl upload) = true ->
            Upload.remoteUrl upload = Some (trimmedOrEmpty (Raw.url raw)))).
Proof.
  split.
  - intros upload Hr.
    destruct (Upload.remoteUrl upload) as [url|] eqn:Hurl; [|discriminate].
    cbn [truthy] in Hr.
    exists url. eexists. split; [reflexivity|]. split.
    + apply deliverUpload_remoteUrl; assumption.
    + repeat split.
  - intros index raw upload Hn.
    destruct (normalizeUpload_resolved _ _ _ Hn)
      as [[buffer [mime [Hb [_ [_ [_ [Hr _]]]]]]]
         |[[buffer [mime [Hb [Hd [_ [_ [_ [Hr _]]]]]]]]
          |[[Hb [Hd [Hu [_ [_ [Hr _]]]]]]
           |[key [Hb [Hd [Hu [_ [_ [_ [Hr _]]]]]]]]]]];
      rewrite Hr; cbn [truthy]; (split; [split|]);
      try discriminate; try congruence; try tauto.
    + intros [Hb' _]. congruence.
    + intros [_ [Hd' _]]. congruence.
    + intros [_ [_ Hu']]. congruence.
Qed.

(** C4.  For an upload that was resolved to a storage key, a signing
    request that fails (no client is configured, or the presigner rejects)
    is not swallowed: the loop body logs it and throws an error that names
    the upload, and [buildImageInputs] throws that error for every request
    whose earlier images and uploads went through, so that no content and
    no summary is returned for any upload. *)
Theorem signing_failure_aborts (index : nat) (raw : Raw.t) (upload : Upload.t)
    (key : string) (st : State) :
  normalizeUpload (extname P) index raw = inr upload ->
  Upload.s3Key upload = Some key ->
  (s3Client P = false
   \/ exists w failure,
        getSignedUrl P {| get_Bucket := AWS_BUCKET P;
                          get_Key := trimSlashes key |} (60 * 60) (world st)
        = (w, inl failure)) ->
  exists st' error,
    deliverUpload P upload st
      = (st', inl (Threw (Error (signingFailedMessage (Upload.name upload)))))
    /\ console st'
       = console st
           ++ [console_error "Failed to sign existing S3 key" error
                 [("key", key); ("name", Upload.name upload)]]
    /\ forall uploadPayloads before after st0 st1 references contents summaries,
         normalizeUploads (extname P) uploadPayloads
           = inr (before ++ upload :: after) ->
         forImages P (Config.images (schematicConfig P)) [] st0
           = (st1, inr references) ->
         forUploads P before references [] st1
           = (st, inr (contents, summaries)) ->
         buildImageInputs P uploadPayloads st0
           = (st', inl (Threw (Error (signingFailedMessage
                                        (Upload.name upload))))).
Proof.
  intros Hn Hk Hfail.
  destruct (normalizeUpload_resolved _ _ _ Hn)
    as [[buffer [mime [_ [_ [_ [_ [_ Hk']]]]]]]
       |[[buffer [mime [_ [_ [_ [_ [_ [_ Hk']]]]]]]]
        |[[_ [_ [_ [_ [_ [_ Hk']]]]]]
         |[key' [_ [_ [_ [Hkey [_ [_ [Hr Hk']]]]]]]]]]];
    try congruence.
  assert (key' = key) by congruence. subst key'.
  destruct (createSignedUrlForKey_fails P key st Hfail)
    as [st1 [error [Hsign Hconsole]]].
  assert (Hrun := deliverUpload_signing_fails P upload st
                    (f_equal truthy Hr) Hk Hkey Hsign).
  eexists. exists error. split; [exact Hrun|]. split.
  - cbn [console]. rewrite Hconsole. reflexivity.
  - intros uploadPayloads before after st0 st2 references contents summaries
           Hnorm Himages Hbefore.
    unfold buildImageInputs, bind. rewrite Hnorm. cbn [ofResult].
    unfold ret at 1. rewrite Himages, forUploads_app, Hbefore.
    cbn [forUploads]. unfold bind. rewrite Hrun. reflexivity.
Qed.

(** C5, amended.  For an upload that was resolved to a raw buffer, with a
    storage client configured, a failing offload (the put or the signing
    rejects) is caught and logged and is never what the request fails
    with: the loop body goes on to the inline step.  That step delivers
    inline, by the data URL kept beside the buffer or else by the buffer
    encoded under its MIME type, whenever one of the two is there; an
    upload with neither (an explicit empty MIME type and no data URL)
    makes it throw the error of the last check, which names the upload. *)
Theorem offload_failure_falls_back (index : nat) (raw : Raw.t)
    (buffer : list byte) (upload : Upload.t) (st st1 : State)
    (error : thrown) :
  normalizeUpload (extname P) index raw = inr upload ->
  bufferCandidate raw = Some buffer ->
  s3Client P = true ->
  uploadBufferToS3 P buffer (Upload.mimeType upload) st = (st1, inl error) ->
  let logged :=
    {| world := world st1;
       console :=
         console st1
           ++ [console_error
                 "Failed to offload upload to S3, falling back to inline"
                 error [("name", Upload.name upload)]] |} in
  let inline := withStrategy (initialSummary upload) "inline" None None None in
  (forall dataUrl, Upload.dataUrl upload = Some dataUrl ->
     deliverUpload P upload st
       = (logged, inr (inline, uploadPair (upload, dataUrl))))
  /\ (Upload.dataUrl upload = None ->
      truthy (Upload.mimeType upload) = true ->
      deliverUpload P upload st
        = (logged,
           inr (inline,
                uploadPair
                  (upload, bufferToDataUrl buffer (Upload.mimeType upload)))))
  /\ (Upload.dataUrl upload = None ->
      truthy (Upload.mimeType upload) = false ->
      deliverUpload P upload st
        = (logged,
           inl (Threw (Error (noImageUrlMessage (Upload.name upload)))))).
Proof.
  intros Hn Hb Hclient Hoff logged inline. subst logged inline.
  destruct (normalizeUpload_resolved _ _ _ Hn)
    as [[buffer' [mime [Hb' [Hbuf [_ [Hd [Hr Hk]]]]]]]
       |[[buffer' [mime [Hb' _]]]
        |[[Hb' _]
         |[key [Hb' _]]]]];
    try congruence.
  assert (buffer' = buffer) by congruence. subst buffer'.
  pose proof (deliverUpload_offload_fails P upload st
                (f_equal truthy Hr) (f_equal truthy Hk) Hbuf Hclient Hoff)
    as Hrun.
  split; [|split].
  - intros dataUrl Hdata. rewrite Hrun.
    assert (Ht : truthy (Upload.dataUrl upload) = true).
    { rewrite Hd, truthy_nonEmpty.
      rewrite Hd in Hdata. unfold nonEmpty in Hdata.
      destruct (JsString.truthy _); [reflexivity|discriminate]. }
    rewrite Ht, Hdata. reflexivity.
  - intros Hdata Hmime. rewrite Hrun, Hdata, Hmime. reflexivity.
  - intros Hdata Hmime. rewrite Hrun, Hdata, Hmime. reflexivity.
Qed.

End StrategyClaims.

Lemma remote_url_passthrough_witness :
  let P := Demo.platform true false false [] in
  exists upload summary,
    normalizeUpload Demo.extension 0
      (Demo.withUrl "A" "https://x.public.blob.vercel-storage.com/a.png")
      = inr upload
    /\ deliverUpload P upload Demo.start
       = (Demo.start,
          inr (summary,
               uploadPair
                 (upload, "https://x.public.blob.vercel-storage.com/a.png")))
    /\ Summary.strategy summary = Some "vercel-blob".
Proof.
  intro P.
  destruct (normalizeUpload Demo.extension 0
              (Demo.withUrl "A" "https://x.public.blob.vercel-storage.com/a.png"))
    as [e|upload] eqn:E.
  - vm_compute in E. discriminate E.
  - destruct (remote_url_passthrough P Demo.start) as [Hpass Hkeep].
    destruct (Hkeep 0 _ upload E) as [[_ Hkept] Hsame].
    assert (Hr : truthy (Upload.remoteUrl upload) = true)
      by (apply Hkept; repeat split).
    destruct (Hpass upload Hr) as [url [summary [Hurl [Hrun [Hs _]]]]].
    pose proof (Hsame Hr) as Hurl'. rewrite Hurl in Hurl'.
    apply (f_equal stringOf) in Hurl'. cbn [stringOf] in Hurl'.
    change (trimmedOrEmpty
              (Raw.url
                 (Demo.withUrl "A"
                    "https://x.public.blob.vercel-storage.com/a.png")))
      with "https://x.public.blob.vercel-storage.com/a.png"%string in Hurl'.
    subst url.
    exists upload, summary. split; [reflexivity|]. split; [exact Hrun|].
    exact Hs.
Defined.

Lemma signing_failure_aborts_witness :
  let P := Demo.platform true false true [] in
  let raw := Demo.withKey "C" "plans/c.png" in
  exists upload st',
    normalizeUpload Demo.extension 0 raw = inr upload
    /\ deliverUpload P upload Demo.start
       = (st', inl (Threw (Error (signingFailedMessage "C"))))
    /\ buildImageInputs P [Item raw] Demo.start
       = (st', inl (Threw (Error (signingFailedMessage "C")))).
Proof.
  intros P raw.
  destruct (normalizeUpload Demo.extension 0 raw) as [e|upload] eqn:E.
  - vm_compute in E. discriminate E.
  - pose proof E as Hvalue. vm_compute in Hvalue. apply returned_eq in Hvalue.
    assert (Hkey : Upload.s3Key upload = Some "plans/c.png")
      by (rewrite <- Hvalue; reflexivity).
    assert (Hname : Upload.name upload = "C")
      by (rewrite <- Hvalue; reflexivity).
    assert (Hfail : s3Client P = false
                    \/ exists w failure,
                         getSignedUrl P
                           {| get_Bucket := AWS_BUCKET P;
                              get_Key := trimSlashes "plans/c.png" |}
                           (60 * 60) (world Demo.start) = (w, inl failure)).
    { right. eexists. eexists. vm_compute. reflexivity. }
    destruct (signing_failure_aborts P 0 raw Demo.start E Hkey Hfail)
      as [st' [error [Hrun [_ Hall]]]].
    rewrite Hname in Hrun, Hall.
    exists upload, st'. split; [reflexivity|]. split; [exact Hrun|].
    apply (Hall [Item raw] [] [] Demo.start Demo.start [] [] []).
    + unfold normalizeUploads. cbn [MAX_UPLOAD_COUNT firstn mapFrom normalizeElement].
      change (extname P) with Demo.extension. rewrite E. reflexivity.
    + reflexivity.
    + reflexivity.
Defined.

(** An upload whose explicit MIME type is the empty string: offloaded when
    the bucket answers, but once the put is refused the inline step has
    nothing to encode it under and the request fails, after the log entry
    of the fallback. *)
Lemma offload_failure_can_abort :
  let raw := Demo.typed "scan" Demo.png EmptyString in
  bufferCandidate raw = Some Demo.png
  /\ (exists st' contents summary,
        buildImageInputs (Demo.platform true false false []) [Item raw]
          Demo.start = (st', inr (contents, [summary]))
        /\ Summary.strategy summary = Some "s3")
  /\ (exists st' entry,
        buildImageInputs (Demo.platform true true false []) [Item raw]
          Demo.start
          = (st', inl (Threw (Error (noImageUrlMessage "scan"))))
        /\ console st' = [entry]
        /\ log_text entry
           = "Failed to offload upload to S3, falling back to inline"
        /\ log_error entry = Rejected "put refused").
Proof.
  intro raw. split; [reflexivity|]. split.
  - eexists. eexists. eexists. split; vm_compute; reflexivity.
  - eexists. eexists. split; [vm_compute; reflexivity|].
    repeat split; reflexivity.
Qed.

Lemma offload_failure_falls_back_witness :
  let P := Demo.platform true true false [] in
  let raw := Demo.withBuffer "D.png" Demo.png in
  exists upload st' summary,
    normalizeUpload Demo.extension 0 raw = inr upload
    /\ deliverUpload P upload Demo.start
       = (st', inr (summary,
                    uploadPair (upload, "data:image/png;base64,iVBORw==")))
    /\ Summary.strategy summary = Some "inline"
    /\ map log_error (console st') = [Rejected "put refused"].
Proof.
  intros P raw.
  destruct (normalizeUpload Demo.extension 0 raw) as [e|upload] eqn:E.
  - vm_compute in E. discriminate E.
  - pose proof E as Hvalue. vm_compute in Hvalue. apply returned_eq in Hvalue.
    assert (Hdata : Upload.dataUrl upload = None)
      by (rewrite <- Hvalue; reflexivity).
    assert (Hmime : Upload.mimeType upload = Some "image/png")
      by (rewrite <- Hvalue; reflexivity).
    destruct (uploadBufferToS3 P Demo.png (Upload.mimeType upload) Demo.start)
      as [st1 [error|done]] eqn:Eoff.
    + destruct (offload_failure_falls_back P 0 raw (buffer := Demo.png)
                  Demo.start E eq_refl eq_refl Eoff)
        as [_ [Hinline _]].
      assert (Htruthy : truthy (Upload.mimeType upload) = true)
        by (rewrite Hmime; reflexivity).
      pose proof (Hinline Hdata Htruthy) as Hrun.
      rewrite Hmime in Hrun.
      rewrite Hmime in Eoff. vm_compute in Eoff.
      injection Eoff as Hst Herr. subst st1 error.
      eexists upload, _, _. split; [reflexivity|]. split; [exact Hrun|].
      split; reflexivity.
    + rewrite Hmime in Eoff. vm_compute in Eoff. discriminate Eoff.
Defined.

(* ================================================================== *)
(** * Further properties of the constants module *)

Section SlashFacts.

Lemma dropSlashes_other (c : ascii) (s : string) :
  c <> "/"%char -> JsString.dropSlashes (String c s) = String c s.
Proof.
  intro H. destruct c as [b0 b1 b2 b3 b4 b5 b6 b7].
  destruct b0, b1, b2, b3, b4, b5, b6, b7; try reflexivity.
  exfalso. apply H. reflexivity.
Qed.

Lemma dropSlashes_slash (s : string) :
  JsString.dropSlashes (String "/" s) = JsString.dropSlashes s.
Proof. reflexivity. Qed.

Lemma dropSlashes_no_lead (s : string) :
  forall rest, JsString.dropSlashes s <> String "/" rest.
Proof.
  induction s as [|c s IH]; intros rest.
  - discriminate.
  - destruct (Ascii.eqb c "/") eqn:E.
    + apply Ascii.eqb_eq in E. subst c. rewrite dropSlashes_slash. apply IH.
    + apply Ascii.eqb_neq in E. rewrite (dropSlashes_other s E).
      intro H. injection H as H _. contradiction.
Qed.

Lemma dropSlashes_keeps (s : string) :
  (forall rest, s <> String "/" rest) -> JsString.dropSlashes s = s.
Proof.
  destruct s as [|c s]; intro H; [reflexivity|].
  apply dropSlashes_other. intro E. subst c. exact (H s eq_refl).
Qed.

Lemma append_slash_inv (front : string) (c : ascii) (kept : string) :
  (front ++ "/")%string = String c kept ->
  (front = EmptyString /\ c = "/"%char /\ kept = EmptyString)
  \/ exists front', front = String c front' /\ (front' ++ "/")%string = kept.
Proof.
  destruct front as [|a front']; simpl; intro H; injection H as Hc Hk.
  - left. auto.
  - right. exists front'. subst a. auto.
Qed.

Lemma dropTrailingSlashes_no_tail (s : string) :
  forall front, JsString.dropTrailingSlashes s <> (front ++ "/")%string.
Proof.
  induction s as [|c s IH]; intros front H; simpl in H.
  - destruct front; discriminate.
  - symmetry in H.
    destruct (JsString.dropTrailingSlashes s) as [|k kept] eqn:E.
    + destruct (Ascii.eqb c "/") eqn:Ec.
      * destruct front; discriminate.
      * destruct (append_slash_inv _ H) as [[_ [Hc _]] | [front' [_ Hk]]].
        -- subst c. rewrite Ascii.eqb_refl in Ec. discriminate.
        -- destruct front'; discriminate.
    + destruct (append_slash_inv _ H) as [[_ [_ Hk]] | [front' [_ Hk]]].
      * discriminate.
      * apply (IH front'). symmetry. exact Hk.
Qed.

Lemma dropTrailingSlashes_keeps (s : string) :
  (forall front, s <> (front ++ "/")%string) ->
  JsString.dropTrailingSlashes s = s.
Proof.
  induction s as [|c s IH]; intro H; [reflexivity|].
  simpl. destruct s as [|k rest].
  - simpl. destruct (Ascii.eqb c "/") eqn:Ec; [|reflexivity].
    apply Ascii.eqb_eq in Ec. subst c. exfalso. exact (H EmptyString eq_refl).
  - rewrite IH.
    + reflexivity.
    + intros front Hf. apply (H (String c front)). simpl. rewrite Hf.
      reflexivity.
Qed.

Lemma dropTrailingSlashes_lead (s : string) :
  (forall rest, s <> String "/" rest) ->
  forall rest, JsString.dropTrailingSlashes s <> String "/" rest.
Proof.
  destruct s as [|c s]; intros H rest; simpl; [discriminate|].
  assert (Hc : c <> "/"%char) by (intro E; subst c; exact (H s eq_refl)).
  destruct (JsString.dropTrailingSlashes s).
  - destruct (Ascii.eqb c "/"); [discriminate|].
    intro E. injection E as E _. contradiction.
  - intro E. injection E as E _. contradiction.
Qed.

End SlashFacts.

(** X1.  [trimSlashes] returns a text that neither starts nor ends with a
    slash; it leaves a text that is already so, and so applying it twice
    is applying it once. *)
Theorem trimSlashes_clean (s : string) :
  (forall rest, trimSlashes s <> String "/" rest)
  /\ (forall front, trimSlashes s <> (front ++ "/")%string)
  /\ trimSlashes (trimSlashes s) = trimSlashes s
  /\ ((forall rest, s <> String "/" rest) ->
      (forall front, s <> (front ++ "/")%string) ->
      trimSlashes s = s).
Proof.
  assert (Hlead : forall rest, trimSlashes s <> String "/" rest).
  { apply dropTrailingSlashes_lead. apply dropSlashes_no_lead. }
  assert (Htail : forall front, trimSlashes s <> (front ++ "/")%string).
  { apply dropTrailingSlashes_no_tail. }
  assert (Hkeep : forall t, (forall rest, t <> String "/" rest) ->
                            (forall front, t <> (front ++ "/")%string) ->
                            trimSlashes t = t).
  { intros t H1 H2. unfold trimSlashes.
    rewrite (dropSlashes_keeps H1). apply dropTrailingSlashes_keeps. exact H2. }
  repeat split; auto.
Qed.

Lemma trimSlashes_clean_witness :
  trimSlashes "//vision-uploads/schematics/" = "vision-uploads/schematics"
  /\ trimSlashes "vision-uploads/schematics" = "vision-uploads/schematics".
Proof.
  split; [reflexivity|].
  destruct (trimSlashes_clean "//vision-uploads/schematics/")
    as [Hlead [Htail [_ _]]].
  destruct (trimSlashes_clean "vision-uploads/schematics") as [_ [_ [_ Hkeep]]].
  apply Hkeep.
  - exact Hlead.
  - exact Htail.
Defined.

Lemma quote_not_space (q : ascii) :
  isQuoteChar q = true -> JsString.isWhiteSpace q = false.
Proof.
  unfold isQuoteChar, JsString.isWhiteSpace. intro H.
  apply orb_true_iff in H. destruct H as [H|H]; apply Nat.eqb_eq in H;
    rewrite H; reflexivity.
Qed.

Lemma dropTrailingQuote_last (core : string) (q : ascii) :
  isQuoteChar q = true ->
  dropTrailingQuote (core ++ String q EmptyString) = core.
Proof.
  intro Hq. induction core as [|c rest IH]; simpl.
  - rewrite Hq. reflexivity.
  - rewrite IH. destruct (rest ++ String q EmptyString)%string eqn:E;
      [destruct rest; discriminate | reflexivity].
Qed.

Lemma dropTrailingQuote_keeps (s : string) :
  (forall q front, isQuoteChar q = true ->
                   s <> (front ++ String q EmptyString)%string) ->
  dropTrailingQuote s = s.
Proof.
  induction s as [|c s IH]; intro H; [reflexivity|].
  simpl. destruct s as [|k rest].
  - destruct (isQuoteChar c) eqn:Ec; [|reflexivity].
    exfalso. exact (H c EmptyString Ec eq_refl).
  - rewrite IH; [reflexivity|].
    intros q front Hq Hf. apply (H q (String c front) Hq). simpl.
    rewrite Hf. reflexivity.
Qed.

(** X2.  [sanitizeEnv] leaves [undefined] alone, takes exactly one quote
    character off each end of a quoted setting (whatever is in between,
    further quotes included, stays), and returns unchanged a setting that
    has no blank and no quote at its ends. *)
Theorem sanitizeEnv_unquotes :
  sanitizeEnv None = None
  /\ (forall q1 q2 core,
        isQuoteChar q1 = true -> isQuoteChar q2 = true ->
        sanitizeEnv (Some (String q1 (core ++ String q2 EmptyString)))
          = Some core)
  /\ (forall s,
        JsString.trim s = s ->
        (forall q rest, isQuoteChar q = true -> s <> String q rest) ->
        (forall q front, isQuoteChar q = true ->
                         s <> (front ++ String q EmptyString)%string) ->
        sanitizeEnv (Some s) = Some s).
Proof.
  split; [reflexivity|]. split.
  - intros q1 q2 core H1 H2. unfold sanitizeEnv, option_map. f_equal.
    assert (Htrim : JsString.trim (String q1 (core ++ String q2 EmptyString))
                    = String q1 (core ++ String q2 EmptyString)).
    { unfold JsString.trim. cbn [JsString.trimStart].
      rewrite (quote_not_space q1 H1).
      change (String q1 (core ++ String q2 EmptyString))
        with (String q1 core ++ String q2 EmptyString)%string.
      apply trimEnd_app; [discriminate|].
      cbn [JsString.trimEnd]. rewrite (quote_not_space q2 H2). reflexivity. }
    rewrite Htrim. cbn [dropLeadingQuote]. rewrite H1.
    apply dropTrailingQuote_last. exact H2.
  - intros s Htrim Hlead Htail. unfold sanitizeEnv, option_map. f_equal.
    rewrite Htrim.
    assert (Hl : dropLeadingQuote s = s).
    { destruct s as [|c rest]; [reflexivity|]. cbn [dropLeadingQuote].
      destruct (isQuoteChar c) eqn:Ec; [|reflexivity].
      exfalso. exact (Hlead c rest Ec eq_refl). }
    rewrite Hl. apply dropTrailingQuote_keeps. exact Htail.
Qed.

Lemma sanitizeEnv_unquotes_witness :
  sanitizeEnv (Some (quote ++ "my-bucket" ++ quote)) = Some "my-bucket".
Proof.
  destruct sanitizeEnv_unquotes as [_ [Hquoted _]].
  exact (Hquoted (ascii_of_nat 34) (ascii_of_nat 34) "my-bucket"
           eq_refl eq_refl).
Defined.

(* ================================================================== *)
(** * Further properties of the delivery *)

Section DeliverySteps.

Context {World Failure : Type} (P : Platform World Failure).

Local Open Scope list_scope.

(** A step that finds [imageUrlPayload] set does nothing. *)
Lemma signExistingKey_skips upload d (st : State) :
  truthy (imageUrlPayload d) = true ->
  signExistingKey P upload d st = (st, inr d).
Proof. intro H. unfold signExistingKey. rewrite H. reflexivity. Qed.

Lemma offloadBuffer_skips upload d (st : State) :
  truthy (imageUrlPayload d) = true ->
  offloadBuffer P upload d st = (st, inr d).
Proof. intro H. unfold offloadBuffer. rewrite H. reflexivity. Qed.

Lemma inlineFallback_skips upload d :
  truthy (imageUrlPayload d) = true -> inlineFallback upload d = d.
Proof. intro H. unfold inlineFallback. rewrite H. reflexivity. Qed.

Lemma chosen_truthy upload d tag url :
  chosen upload d tag url -> truthy (imageUrlPayload d) = true.
Proof. intros [H1 [H2 _]]. rewrite H1. exact H2. Qed.

Lemma passRemoteUrl_outcome upload d :
  untouched upload d ->
  untouched upload (passRemoteUrl upload d)
  \/ exists url,
       Upload.remoteUrl upload = Some url
       /\ (chosen upload (passRemoteUrl upload d) "vercel-blob" url
           \/ chosen upload (passRemoteUrl upload d) "remote-url" url)
       /\ Summary.url (summary (passRemoteUrl upload d)) = Some url
       /\ Summary.key (summary (passRemoteUrl upload d)) = None.
Proof.
  intros [Hp Hs]. unfold passRemoteUrl.
  destruct (Upload.remoteUrl upload) as [url|] eqn:Hr; cbn [truthy].
  - destruct (JsString.truthy url) eqn:Hu; [|left; split; assumption].
    right. exists url. split; [reflexivity|]. cbn [stringOf summary].
    rewrite Hs. split.
    + destruct (JsString.test_i "vercel-storage.com" url);
        [left|right]; repeat split; assumption.
    + split; reflexivity.
  - left. split; assumption.
Qed.

Lemma signExistingKey_outcome upload d (st st' : State) d' :
  untouched upload d ->
  signExistingKey P upload d st = (st', inr d') ->
  untouched upload d'
  \/ exists url key,
       chosen upload d' "s3-key" url
       /\ Summary.url (summary d') = Some url
       /\ Summary.key (summary d') = Some key.
Proof.
  intros [Hp Hs]. unfold signExistingKey. rewrite Hp. cbn [truthy negb andb].
  destruct (truthy (Upload.s3Key upload)).
  - unfold tryCatch, bind.
    destruct (createSignedUrlForKey P _ st) as [s1 [t|[key url]]].
    + unfold log, throw. discriminate.
    + destruct (JsString.truthy url) eqn:Hu; unfold ret; intro H;
        injection H as _ <-.
      * right. exists url, key. cbn [summary]. rewrite Hs.
        repeat split; assumption.
      * left. split; assumption.
  - unfold ret. intro H. injection H as _ <-. left. split; assumption.
Qed.

Lemma offloadBuffer_outcome upload d (st st' : State) d' :
  untouched upload d ->
  offloadBuffer P upload d st = (st', inr d') ->
  untouched upload d'
  \/ exists url key,
       chosen upload d' "s3" url
       /\ Summary.url (summary d') = Some url
       /\ Summary.key (summary d') = Some key.
Proof.
  intros [Hp Hs]. unfold offloadBuffer. rewrite Hp. cbn [truthy negb andb].
  destruct (isSome (Upload.buffer upload) && s3Client P).
  - unfold tryCatch, bind.
    destruct (uploadBufferToS3 P _ _ st) as [s1 [t|[[key url]|]]].
    + unfold log, ret. intro H. injection H as _ <-. left. split; assumption.
    + destruct (JsString.truthy url) eqn:Hu; unfold ret; intro H;
        injection H as _ <-.
      * right. exists url, key. cbn [summary]. rewrite Hs.
        repeat split; assumption.
      * left. split; assumption.
    + unfold ret. intro H. injection H as _ <-. left. split; assumption.
  - unfold ret. intro H. injection H as _ <-. left. split; assumption.
Qed.

Lemma inlineFallback_outcome upload d :
  untouched upload d ->
  untouched upload (inlineFallback upload d)
  \/ exists url,
       chosen upload (inlineFallback upload d) "inline" url
       /\ Summary.url (summary (inlineFallback upload d)) = None
       /\ Summary.key (summary (inlineFallback upload d)) = None.
Proof.
  intros [Hp Hs]. unfold inlineFallback. rewrite Hp. cbn [truthy negb].
  match goal with
  | |- context [if truthy ?x then _ else d] => destruct x as [url|] eqn:Hx
  end; cbn [truthy].
  - destruct (JsString.truthy url) eqn:Hu; [|left; split; assumption].
    right. exists url. cbn [summary imageUrlPayload]. rewrite Hs.
    repeat split; assumption.
  - left. split; assumption.
Qed.

End DeliverySteps.

(* ------------------------------------------------------------------ *)
(** ** The order of the content *)

Section DeliveryOrigins.

Context {World Failure : Type} (P : Platform World Failure).

Local Open Scope list_scope.

Lemma referenceBlocks_origin image (st st' : State) blocks :
  referenceBlocks P image st = (st', inr blocks) ->
  exists url file w',
    blocks = referencePair (image, url)
    /\ readFile P (publicPath P (JsString.dropSlashes (Config.path image)))
         (world st) = (w', inr file)
    /\ toDataUrl P (publicPath P (JsString.dropSlashes (Config.path image)))
         file = inr url.
Proof.
  unfold referenceBlocks, bind, ofResult, await. intro H.
  destruct (readFile P _ (world st)) as [w' [failure|file]] eqn:Er;
    [discriminate|].
  destruct (toDataUrl P _ file) as [e|url] eqn:Eu; unfold throw, ret in H;
    [discriminate|].
  exists url, file, w'. injection H as _ H. subst blocks.
  repeat split. exact Eu.
Qed.

Lemma forImages_origin images : forall contents (st st' : State) result,
  forImages P images contents st = (st', inr result) ->
  exists urls,
    List.length urls = List.length images
    /\ result = contents ++ flat_map referencePair (combine images urls)
    /\ forall j image, nth_error images j = Some image ->
         exists url file w w',
           nth_error urls j = Some url
           /\ readFile P
                (publicPath P (JsString.dropSlashes (Config.path image))) w
              = (w', inr file)
           /\ toDataUrl P
                (publicPath P (JsString.dropSlashes (Config.path image))) file
              = inr url.
Proof.
  induction images as [|image rest IH]; intros contents st st' result H.
  - injection H as _ H. exists []. rewrite app_nil_r. repeat split; auto.
    intros j image Hj. destruct j; discriminate.
  - cbn [forImages] in H. unfold bind in H.
    destruct (referenceBlocks P image st) as [s1 [t|blocks]] eqn:E;
      [discriminate|].
    destruct (referenceBlocks_origin _ _ E) as [url [file [w' [Hb [Hr Hu]]]]].
    destruct (IH _ _ _ _ H) as [urls [Hlen [Hres Hrest]]].
    exists (url :: urls). split; [simpl; congruence|]. split.
    + rewrite Hres, Hb, <- app_assoc. reflexivity.
    + intros j other Hj. destruct j as [|j]; cbn [nth_error] in *.
      * injection Hj as <-. exists url, file, (world st), w'. auto.
      * exact (Hrest j other Hj).
Qed.

Lemma signExistingKey_origin upload d (st st' : State) d' :
  untouched upload d ->
  signExistingKey P upload d st = (st', inr d') ->
  untouched upload d'
  \/ exists url,
       chosen upload d' "s3-key" url /\ deliveredFrom P upload "s3-key" url.
Proof.
  intros [Hp Hs]. unfold signExistingKey. rewrite Hp. cbn [truthy negb andb].
  destruct (Upload.s3Key upload) as [key|] eqn:Hk.
  2:{ unfold ret. intro H. injection H as _ <-. left. split; assumption. }
  change (truthy (Some key)) with (JsString.truthy key).
  destruct (JsString.truthy key).
  2:{ unfold ret. intro H. injection H as _ <-. left. split; assumption. }
  unfold tryCatch, bind, createSignedUrlForKey. cbn [stringOf].
  destruct (negb (s3Client P)).
  { unfold throw, log. discriminate. }
  unfold bind, await.
  destruct (getSignedUrl P _ _ (world st)) as [w' [failure|signed]] eqn:Eg.
  { unfold throw, log. discriminate. }
  unfold ret. destruct (JsString.truthy signed) eqn:Hu; intro H;
    injection H as _ <-.
  - right. exists signed. split.
    + cbn [summary imageUrlPayload]. rewrite Hs. repeat split; assumption.
    + right. left. split; [reflexivity|].
      exists key, (world st), w'. split; [exact Hk|exact Eg].
  - left. split; assumption.
Qed.

Lemma offloadBuffer_origin upload d (st st' : State) d' :
  untouched upload d ->
  offloadBuffer P upload d st = (st', inr d') ->
  untouched upload d'
  \/ exists url,
       chosen upload d' "s3" url /\ deliveredFrom P upload "s3" url.
Proof.
  intros [Hp Hs]. unfold offloadBuffer. rewrite Hp. cbn [truthy negb andb].
  destruct (Upload.buffer upload) as [buffer|] eqn:Hb; cbn [isSome andb].
  2:{ unfold ret. intro H. injection H as _ <-. left. split; assumption. }
  destruct (s3Client P) eqn:Hc.
  2:{ unfold ret. intro H. injection H as _ <-. left. split; assumption. }
  unfold tryCatch, bind, uploadBufferToS3. rewrite Hc. cbn [negb].
  unfold bind, await.
  destruct (randomUUID P (world st)) as [w0 uuid].
  cbn [world console].
  match goal with
  | |- context [sendPutObject P ?cmd w0] =>
      destruct (sendPutObject P cmd w0) as [w1 [failure|[]]] eqn:Eput
  end.
  { unfold log, ret. intro H. injection H as _ <-. left. split; assumption. }
  cbn [world console].
  match goal with
  | |- context [getSignedUrl P ?cmd ?ttl w1] =>
      destruct (getSignedUrl P cmd ttl w1) as [w2 [failure|signed]] eqn:Eget
  end.
  { unfold log, ret. intro H. injection H as _ <-. left. split; assumption. }
  unfold ret. destruct (JsString.truthy signed) eqn:Hu; intro H;
    injection H as _ <-.
  - right. exists signed. split.
    + cbn [summary imageUrlPayload]. rewrite Hs. repeat split; assumption.
    + right. right. left. split; [reflexivity|].
      eexists buffer, _, w0, w1, w2. split; [exact Hb|].
      split; [exact Eput|exact Eget].
  - left. split; assumption.
Qed.

Lemma inlineFallback_origin upload d :
  untouched upload d ->
  untouched upload (inlineFallback upload d)
  \/ exists url,
       chosen upload (inlineFallback upload d) "inline" url
       /\ deliveredFrom P upload "inline" url.
Proof.
  intros [Hp Hs]. unfold inlineFallback. rewrite Hp. cbn [truthy negb].
  match goal with
  | |- context [if truthy ?x then _ else d] => destruct x as [url|] eqn:Hx
  end; cbn [truthy].
  - destruct (JsString.truthy url) eqn:Hu; [|left; split; assumption].
    right. exists url. split.
    + cbn [summary imageUrlPayload]. rewrite Hs. repeat split; assumption.
    + right. right. right. split; [reflexivity|].
      destruct (truthy (Upload.dataUrl upload)); [left; exact Hx|].
      destruct (Upload.buffer upload) as [buffer|]; [|discriminate].
      destruct (truthy (Upload.mimeType upload)); [|discriminate].
      right. exists buffer. split; [reflexivity|].
      injection Hx as <-. reflexivity.
  - left. split; assumption.
Qed.

Lemma deliverUpload_origin upload (st st' : State) pushed :
  deliverUpload P upload st = (st', inr pushed) ->
  exists url tag,
    snd pushed = uploadPair (upload, url)
    /\ JsString.truthy url = true
    /\ Summary.id (fst pushed) = Upload.id upload
    /\ Summary.strategy (fst pushed) = Some tag
    /\ deliveredFrom P upload tag url.
Proof.
  unfold deliverUpload, bind. intro H.
  set (d0 := {| imageUrlPayload := None; summary := initialSummary upload |})
    in H.
  assert (H0 : untouched upload d0) by (split; reflexivity).
  destruct (signExistingKey P upload (passRemoteUrl upload d0) st)
    as [s2 [t|d2]] eqn:E2; [discriminate|].
  destruct (offloadBuffer P upload d2 s2) as [s3 [t|d3]] eqn:E3;
    [discriminate|].
  destruct (negb (truthy (imageUrlPayload (inlineFallback upload d3))))
    eqn:E4; unfold throw, ret in H; [discriminate|].
  apply negb_false_iff in E4.
  injection H as _ H. subst pushed. cbn [fst snd].
  assert (Hfinal : exists tag url,
             chosen upload (inlineFallback upload d3) tag url
             /\ deliveredFrom P upload tag url).
  { destruct (passRemoteUrl_outcome H0) as [H1 | [url [Hr [Hc _]]]].
    - destruct (signExistingKey_origin st H1 E2) as [H2 | [url [Hc Ho]]].
      + destruct (offloadBuffer_origin s2 H2 E3) as [H3 | [url [Hc Ho]]].
        * destruct (inlineFallback_origin H3) as [H4 | [url [Hc Ho]]].
          -- destruct H4 as [H4 _]. rewrite H4 in E4. discriminate.
          -- exists "inline"%string, url. split; assumption.
        * rewrite (inlineFallback_skips upload _ (chosen_truthy Hc)).
          exists "s3"%string, url. split; assumption.
      + rewrite (offloadBuffer_skips P upload _ s2 (chosen_truthy Hc)) in E3.
        injection E3 as _ <-.
        rewrite (inlineFallback_skips upload _ (chosen_truthy Hc)).
        exists "s3-key"%string, url. split; assumption.
    - assert (Ht : truthy (imageUrlPayload (passRemoteUrl upload d0)) = true)
        by (destruct Hc as [Hc|Hc]; exact (chosen_truthy Hc)).
      rewrite (signExistingKey_skips P upload _ st Ht) in E2.
      injection E2 as _ <-.
      rewrite (offloadBuffer_skips P upload _ s2 Ht) in E3. injection E3 as _ <-.
      rewrite (inlineFallback_skips upload _ Ht).
      destruct Hc as [Hc|Hc]; eexists; exists url; (split; [exact Hc|]);
        left; split; auto. }
  destruct Hfinal as [tag [url [[Hp [Hu [Hs [Hid _]]]] Ho]]].
  exists url, tag. rewrite Hp. cbn [stringOf].
  split; [reflexivity|]. split; [exact Hu|]. split; [exact Hid|].
  split; [exact Hs|exact Ho].
Qed.

Lemma forUploads_origin uploads :
  forall contents summaries (st st' : State) result,
    forUploads P uploads contents summaries st = (st', inr result) ->
    exists urls added,
      List.length urls = List.length uploads
      /\ List.length added = List.length uploads
      /\ fst result = contents ++ flat_map uploadPair (combine uploads urls)
      /\ snd result = summaries ++ added
      /\ forall k n, nth_error uploads k = Some n ->
           exists url recorded tag,
             nth_error urls k = Some url
             /\ nth_error added k = Some recorded
             /\ JsString.truthy url = true
             /\ Summary.id recorded = Upload.id n
             /\ Summary.strategy recorded = Some tag
             /\ deliveredFrom P n tag url.
Proof.
  induction uploads as [|upload rest IH];
    intros contents summaries st st' result H.
  - injection H as _ H. subst result. exists [], []. cbn [fst snd].
    rewrite !app_nil_r. repeat split.
    intros k n Hk. destruct k; discriminate.
  - cbn [forUploads] in H. unfold bind in H.
    destruct (deliverUpload P upload st) as [s1 [t|pushed]] eqn:E;
      [discriminate|].
    destruct (deliverUpload_origin _ _ E)
      as [url [tag [Hblocks [Hu [Hid [Hs Ho]]]]]].
    destruct (IH _ _ _ _ _ H)
      as [urls [added [Hlu [Hla [Hres [Hsum Hrest]]]]]].
    exists (url :: urls), (fst pushed :: added).
    split; [simpl; congruence|]. split; [simpl; congruence|].
    split; [|split].
    + rewrite Hres, Hblocks, <- app_assoc. reflexivity.
    + rewrite Hsum, <- app_assoc. reflexivity.
    + intros k n Hk. destruct k as [|k]; cbn [nth_error] in *.
      * injection Hk as <-. exists url, (fst pushed), tag. auto 10.
      * exact (Hrest k n Hk).
Qed.

(** C7.  Whenever [buildImageInputs] returns, its content is the label and
    image of every configured reference image, in the order of the
    configuration, followed by the label and image of every normalised
    upload, one pair per upload and in the order of the input array: the
    pair at position [k] comes from the element at position [k] of the
    input (of which the first six are taken), is labelled with its
    identifier [upload-(k+1)] and its name, and its image reference is
    that upload's own, whatever strategy delivered it: a reference that is
    not empty and is the upload's remote URL, or what the signing of the
    upload's key resolved to, or what the signing resolved to for the key
    its buffer had just been put under, or the upload's data URL or the
    one written from its buffer, as the strategy recorded at position [k]
    of the summaries tells.  The image of a reference image is the data
    URL written from the file read at its path. *)
Theorem contents_follow_upload_order (uploadPayloads : list element)
    (st st' : State) (contents : list ContentBlock)
    (summaries : list Summary.t) :
  buildImageInputs P uploadPayloads st = (st', inr (contents, summaries)) ->
  exists normalized referenceUrls uploadUrls,
    normalizeUploads (extname P) uploadPayloads = inr normalized
    /\ List.length referenceUrls
       = List.length (Config.images (schematicConfig P))
    /\ List.length uploadUrls = List.length normalized
    /\ List.length summaries = List.length normalized
    /\ contents
       = flat_map
           (fun p =>
              [ input_text (referenceLabel (fst p));
                input_image (snd p) (detailOrHigh (Config.detail (fst p))) ])
           (combine (Config.images (schematicConfig P)) referenceUrls)
         ++ flat_map
              (fun p =>
                 [ input_text ("Uploaded " ++ Upload.id (fst p) ++ ": "
                                 ++ Upload.name (fst p))%string;
                   input_image (snd p) (Upload.detail (fst p)) ])
              (combine normalized uploadUrls)
    /\ (forall k n, nth_error normalized k = Some n ->
          exists upload url recorded tag,
            nth_error uploadPayloads k = Some (Item upload)
            /\ normalizeUpload (extname P) k upload = inr n
            /\ Upload.id n = ("upload-" ++ JsString.ofNat (k + 1))%string
            /\ nth_error uploadUrls k = Some url
            /\ JsString.truthy url = true
            /\ nth_error summaries k = Some recorded
            /\ Summary.id recorded = Upload.id n
            /\ Summary.strategy recorded = Some tag
            /\ (((tag = "vercel-blob" \/ tag = "remote-url")%string
                 /\ Upload.remoteUrl n = Some url)
                \/ (tag = "s3-key"%string
                    /\ exists key w w',
                         Upload.s3Key n = Some key
                         /\ getSignedUrl P
                              {| get_Bucket := AWS_BUCKET P;
                                 get_Key := trimSlashes key |} (60 * 60) w
                            = (w', inr url))
                \/ (tag = "s3"%string
                    /\ exists buffer key w0 w1 w2,
                         Upload.buffer n = Some buffer
                         /\ sendPutObject P
                              {| put_Bucket := AWS_BUCKET P;
                                 put_Key := key;
                                 put_Body := buffer;
                                 put_ContentType := Upload.mimeType n;
                                 put_CacheControl := "max-age=3600" |} w0
                            = (w1, inr tt)
                         /\ getSignedUrl P
                              {| get_Bucket := AWS_BUCKET P; get_Key := key |}
                              (60 * 60) w1
                            = (w2, inr url))
                \/ (tag = "inline"%string
                    /\ (Upload.dataUrl n = Some url
                        \/ exists buffer,
                             Upload.buffer n = Some buffer
                             /\ url = bufferToDataUrl buffer
                                        (Upload.mimeType n)))))
    /\ (forall j image,
          nth_error (Config.images (schematicConfig P)) j = Some image ->
          exists url file w w',
            nth_error referenceUrls j = Some url
            /\ readFile P
                 (publicPath P (JsString.dropSlashes (Config.path image))) w
               = (w', inr file)
            /\ toDataUrl P
                 (publicPath P (JsString.dropSlashes (Config.path image)))
                 file
               = inr url)
    /\ map Summary.id summaries = map Upload.id normalized.
Proof.
  unfold buildImageInputs, bind, ofResult. intro H.
  destruct (normalizeUploads (extname P) uploadPayloads) as [e|normalized]
    eqn:Hn; unfold throw, ret in H; [discriminate|].
  destruct (forImages P _ [] st) as [s1 [t|refs]] eqn:Erefs; [discriminate|].
  destruct (forImages_origin _ _ _ Erefs) as [referenceUrls [Hrl [Hrefs Hro]]].
  destruct (forUploads_origin _ _ _ _ H)
    as [uploadUrls [added [Hul [Hal [Hcontents [Hsum Huo]]]]]].
  cbn [fst snd app] in Hcontents, Hsum. subst added.
  exists normalized, referenceUrls, uploadUrls.
  split; [reflexivity|]. split; [exact Hrl|]. split; [exact Hul|].
  split; [exact Hal|]. split; [rewrite Hcontents, Hrefs; reflexivity|].
  split; [|split; [exact Hro|]].
  - intros k n Hk. unfold normalizeUploads in Hn.
    destruct (mapFrom_nth _ _ _ _ Hn Hk) as [e [He Hne]].
    apply nth_error_firstn_some in He.
    destruct e as [|upload]; [discriminate|].
    destruct (Huo k n Hk) as [url [recorded [tag [H1 [H2 [H3 [H4 [H5 H6]]]]]]]].
    exists upload, url, recorded, tag.
    split; [exact He|]. split; [exact Hne|].
    split; [eapply normalizeUpload_id; exact Hne|].
    split; [exact H1|]. split; [exact H3|]. split; [exact H2|].
    split; [exact H4|]. split; [exact H5|exact H6].
  - clear - Hal Huo. revert summaries Hal Huo.
    generalize dependent uploadUrls.
    induction normalized as [|n rest IH]; intros urls summaries Hal Huo.
    + destruct summaries; [reflexivity|discriminate].
    + destruct summaries as [|recorded others]; [discriminate|].
      cbn [map]. f_equal.
      * destruct (Huo 0 n eq_refl) as [url [r [tag [_ [Hr [_ [Hid _]]]]]]].
        cbn [nth_error] in Hr. injection Hr as <-. exact Hid.
      * apply (IH (tl urls)); [simpl in Hal; congruence|].
        intros k m Hk.
        destruct (Huo (S k) m Hk) as [url [r [tag [Hu [Hr Hrest]]]]].
        exists url, r, tag. split; [|split; [exact Hr|exact Hrest]].
        destruct urls; [discriminate|exact Hu].
Qed.

End DeliveryOrigins.

Lemma contents_follow_upload_order_witness :
  let P := Demo.platform true true false [Demo.levelOne] in
  exists st' contents summaries normalized referenceUrls uploadUrls,
    buildImageInputs P Demo.abc Demo.start = (st', inr (contents, summaries))
    /\ contents
       = (flat_map referencePair (combine [Demo.levelOne] referenceUrls)
            ++ flat_map uploadPair (combine normalized uploadUrls))%list
    /\ map Upload.name normalized = ["A"; "B"; "C"]
    /\ map Summary.strategy summaries
       = [Some "remote-url"; Some "inline"; Some "s3-key"]
    /\ (exists recorded,
          nth_error uploadUrls 2
          = Some "https://demo.s3.amazonaws.com/plans/c.png?sig"
          /\ nth_error summaries 2 = Some recorded
          /\ Summary.id recorded = "upload-3").
Proof.
  intro P.
  destruct (buildImageInputs P Demo.abc Demo.start)
    as [st' [t|[contents summaries]]] eqn:E.
  - vm_compute in E. discriminate E.
  - destruct (contents_follow_upload_order P Demo.abc Demo.start E)
      as [normalized [referenceUrls [uploadUrls
            [Hn [_ [_ [_ [Hc [Hk _]]]]]]]]].
    exists st', contents, summaries, normalized, referenceUrls, uploadUrls.
    split; [reflexivity|]. split; [exact Hc|].
    vm_compute in Hn. apply returned_eq in Hn. subst normalized.
    split; [reflexivity|]. split.
    + vm_compute in E. injection E as _ _ Hs. subst summaries. reflexivity.
    + destruct (Hk 2 _ eq_refl)
        as [upload [url [recorded [tag [_ [_ [_ [Hu [_ [Hr [Hid [Ht Ho]]]]]]]]]]]].
      exists recorded. split; [|split; [exact Hr|exact Hid]].
      rewrite Hu. f_equal.
      assert (Htag : tag = "s3-key"%string).
      { vm_compute in E. injection E as _ _ Hs. subst summaries.
        cbn [nth_error] in Hr. injection Hr as <-.
        cbn [Summary.strategy] in Ht. injection Ht as <-. reflexivity. }
      subst tag.
      destruct Ho as [[[Hx|Hx] _] | [[_ [key [w [w' [Hkey Hsig]]]]]
                                    | [[Hx _] | [Hx _]]]];
        try discriminate Hx.
      cbn [Upload.s3Key] in Hkey. injection Hkey as <-.
      vm_compute in Hsig. injection Hsig as _ Hsig. symmetry. exact Hsig.
Defined.

Section DeliveryInvariants.

Context {World Failure : Type} (P : Platform World Failure).

Local Open Scope list_scope.

(** X3.  Whenever the loop body returns for an upload, the image URL it
    pushes is not empty and the summary records exactly one of the five
    strategies, with the fields that go with it: a passed-through remote
    URL is the upload's own and has no key, a signed or offloaded upload
    has the pushed URL and a key, an inline upload has neither URL nor key
    in its summary. *)
Theorem delivered_strategy_recorded (upload : Upload.t) (st st' : State)
    (recorded : Summary.t) (blocks : list ContentBlock) :
  deliverUpload P upload st = (st', inr (recorded, blocks)) ->
  exists tag url,
    Summary.strategy recorded = Some tag
    /\ JsString.truthy url = true
    /\ blocks = uploadPair (upload, url)
    /\ Summary.id recorded = Upload.id upload
    /\ Summary.name recorded = Upload.name upload
    /\ (((tag = "vercel-blob" \/ tag = "remote-url")%string
         /\ Upload.remoteUrl upload = Some url
         /\ Summary.url recorded = Some url
         /\ Summary.key recorded = None)
        \/ ((tag = "s3-key" \/ tag = "s3")%string
            /\ Summary.url recorded = Some url
            /\ exists key, Summary.key recorded = Some key)
        \/ (tag = "inline"%string
            /\ Summary.url recorded = None
            /\ Summary.key recorded = None)).
Proof.
  unfold deliverUpload, bind. intro H.
  set (d0 := {| imageUrlPayload := None; summary := initialSummary upload |})
    in H.
  assert (H0 : untouched upload d0) by (split; reflexivity).
  destruct (signExistingKey P upload (passRemoteUrl upload d0) st)
    as [s2 [t|d2]] eqn:E2; [discriminate|].
  destruct (offloadBuffer P upload d2 s2) as [s3 [t|d3]] eqn:E3;
    [discriminate|].
  destruct (negb (truthy (imageUrlPayload (inlineFallback upload d3))))
    eqn:E4; unfold throw, ret in H; [discriminate|].
  apply negb_false_iff in E4.
  injection H as _ Hs Hb. subst recorded blocks.
  assert (Hfinal :
    exists tag url,
      chosen upload (inlineFallback upload d3) tag url
      /\ (((tag = "vercel-blob" \/ tag = "remote-url")%string
           /\ Upload.remoteUrl upload = Some url
           /\ Summary.url (summary (inlineFallback upload d3)) = Some url
           /\ Summary.key (summary (inlineFallback upload d3)) = None)
          \/ ((tag = "s3-key" \/ tag = "s3")%string
              /\ Summary.url (summary (inlineFallback upload d3)) = Some url
              /\ exists key,
                   Summary.key (summary (inlineFallback upload d3))
                   = Some key)
          \/ (tag = "inline"%string
              /\ Summary.url (summary (inlineFallback upload d3)) = None
              /\ Summary.key (summary (inlineFallback upload d3)) = None))).
  { destruct (passRemoteUrl_outcome H0) as [H1 | [url [Hr [Hc [Hu Hk]]]]].
    - destruct (signExistingKey_outcome P st H1 E2)
        as [H2 | [url [key [Hc [Hu Hk]]]]].
      + destruct (offloadBuffer_outcome P s2 H2 E3)
          as [H3 | [url [key [Hc [Hu Hk]]]]].
        * destruct (inlineFallback_outcome H3) as [H4 | [url [Hc [Hu Hk]]]].
          -- destruct H4 as [H4 _]. rewrite H4 in E4. discriminate.
          -- exists "inline"%string, url. split; [exact Hc|]. right. right. auto.
        * rewrite (inlineFallback_skips upload _ (chosen_truthy Hc)).
          exists "s3"%string, url. split; [exact Hc|]. right. left. eauto.
      + rewrite (offloadBuffer_skips P upload _ s2 (chosen_truthy Hc)) in E3.
        injection E3 as _ <-.
        rewrite (inlineFallback_skips upload _ (chosen_truthy Hc)).
        exists "s3-key"%string, url. split; [exact Hc|]. right. left. eauto.
    - assert (Ht : truthy (imageUrlPayload (passRemoteUrl upload d0)) = true)
        by (destruct Hc as [Hc|Hc]; exact (chosen_truthy Hc)).
      rewrite (signExistingKey_skips P upload _ st Ht) in E2.
      injection E2 as _ <-.
      rewrite (offloadBuffer_skips P upload _ s2 Ht) in E3. injection E3 as _ <-.
      rewrite (inlineFallback_skips upload _ Ht).
      destruct Hc as [Hc|Hc]; eexists; exists url; (split; [exact Hc|]);
        left; auto. }
  destruct Hfinal as [tag [url [[Hp [Hu [Hs [Hid Hname]]]] Hfields]]].
  exists tag, url. rewrite Hp. cbn [stringOf]. repeat split; try assumption.
Qed.

End DeliveryInvariants.

Lemma delivered_strategy_recorded_witness :
  let P := Demo.platform true false false [] in
  let upload :=
    Upload.make "upload-1" "D.png" (VString "high") (Some Demo.png)
      (Some "image/png") (Some (lengthOf Demo.png)) None None None None in
  exists st' recorded blocks url,
    deliverUpload P upload Demo.start = (st', inr (recorded, blocks))
    /\ Summary.strategy recorded = Some "s3"
    /\ Summary.url recorded = Some url
    /\ blocks = uploadPair (upload, url).
Proof.
  intros P upload.
  destruct (deliverUpload P upload Demo.start)
    as [st' [t|[recorded blocks]]] eqn:E.
  - vm_compute in E. discriminate E.
  - destruct (delivered_strategy_recorded P upload Demo.start E)
      as [tag [url [Hs [_ [Hb [_ [_ Hfields]]]]]]].
    assert (Htag : Summary.strategy recorded = Some "s3").
    { vm_compute in E. injection E as _ Hr _. rewrite <- Hr. reflexivity. }
    exists st', recorded, blocks, url. split; [reflexivity|].
    split; [exact Htag|]. split; [|exact Hb].
    rewrite Htag in Hs. injection Hs as Hs. subst tag.
    destruct Hfields as [[[Ht|Ht] _] | [[_ [Hu _]] | [Ht _]]];
      try discriminate Ht.
    exact Hu.
Defined.

Section WithoutStorage.

Context {World Failure : Type} (P : Platform World Failure).

Local Open Scope list_scope.

Hypothesis noClient : s3Client P = false.

Lemma signExistingKey_without_client upload d (st st' : State) r :
  signExistingKey P upload d st = (st', r) ->
  world st' = world st /\ (forall d', r = inr d' -> d' = d).
Proof.
  unfold signExistingKey. destruct (_ && _).
  - unfold tryCatch, bind, createSignedUrlForKey. rewrite noClient.
    cbn [negb]. unfold throw, log. intro H. injection H as <- <-.
    split; [reflexivity|]. discriminate.
  - unfold ret. intro H. injection H as <- <-. split; [reflexivity|].
    intros d' Hd. injection Hd as <-. reflexivity.
Qed.

Lemma offloadBuffer_without_client upload d (st : State) :
  offloadBuffer P upload d st = (st, inr d).
Proof.
  unfold offloadBuffer. rewrite noClient, !andb_false_r. reflexivity.
Qed.

Lemma deliverUpload_without_client upload (st st' : State) r :
  deliverUpload P upload st = (st', r) ->
  world st' = world st
  /\ forall recorded blocks, r = inr (recorded, blocks) ->
       Summary.strategy recorded = Some "vercel-blob"%string
       \/ Summary.strategy recorded = Some "remote-url"%string
       \/ Summary.strategy recorded = Some "inline"%string.
Proof.
  unfold deliverUpload, bind.
  set (d0 := {| imageUrlPayload := None; summary := initialSummary upload |}).
  assert (H0 : untouched upload d0) by (split; reflexivity).
  destruct (signExistingKey P upload (passRemoteUrl upload d0) st)
    as [s2 r2] eqn:E2.
  destruct (signExistingKey_without_client _ _ _ E2) as [Hw2 Hd2].
  destruct r2 as [t|d2].
  - intro H. injection H as <- <-. split; [exact Hw2|]. discriminate.
  - rewrite (Hd2 d2 eq_refl), offloadBuffer_without_client.
    destruct (negb (truthy (imageUrlPayload
                (inlineFallback upload (passRemoteUrl upload d0))))) eqn:E4;
      unfold throw, ret; intro H; injection H as <- <-;
      (split; [exact Hw2|]); [discriminate|].
    intros recorded blocks Hr. injection Hr as <- _.
    apply negb_false_iff in E4.
    destruct (passRemoteUrl_outcome H0) as [H1 | [url [_ [Hc _]]]].
    + destruct (inlineFallback_outcome H1) as [[H4 _] | [url [Hc _]]].
      * rewrite H4 in E4. discriminate.
      * right. right. destruct Hc as [_ [_ [Hs _]]]. exact Hs.
    + assert (Ht : truthy (imageUrlPayload (passRemoteUrl upload d0)) = true)
        by (destruct Hc as [Hc|Hc]; exact (chosen_truthy Hc)).
      rewrite (inlineFallback_skips upload _ Ht).
      destruct Hc as [[_ [_ [Hs _]]]|[_ [_ [Hs _]]]]; auto.
Qed.

Lemma forUploads_without_client uploads :
  forall contents summaries (st st' : State) r,
    forUploads P uploads contents summaries st = (st', r) ->
    world st' = world st.
Proof.
  induction uploads as [|upload rest IH]; intros contents summaries st st' r H.
  - injection H as <- _. reflexivity.
  - cbn [forUploads] in H. unfold bind in H.
    destruct (deliverUpload P upload st) as [s1 [t|pushed]] eqn:E.
    + injection H as <- _.
      exact (proj1 (deliverUpload_without_client _ _ E)).
    + rewrite (IH _ _ _ _ _ H).
      exact (proj1 (deliverUpload_without_client _ _ E)).
Qed.

End WithoutStorage.

(** X4.  When no storage client is configured, delivering the uploads
    makes no outside call at all (the world is left as it was, whether the
    loop returns or throws) and no upload is recorded as signed or
    offloaded: every delivered upload is a passed-through remote URL or is
    inline.  In particular an upload that was resolved to a data URL is
    handed on inline as that very data URL, trimmed. *)
Theorem without_storage_inline_only {World Failure : Type}
    (P : Platform World Failure) :
  s3Client P = false ->
  (forall uploads contents summaries (st st' : State) r,
      forUploads P uploads contents summaries st = (st', r) ->
      world st' = world st)
  /\ (forall upload (st st' : State) recorded blocks,
        deliverUpload P upload st = (st', inr (recorded, blocks)) ->
        Summary.strategy recorded = Some "vercel-blob"
        \/ Summary.strategy recorded = Some "remote-url"
        \/ Summary.strategy recorded = Some "inline")
  /\ (forall index raw upload (st : State),
        normalizeUpload (extname P) index raw = inr upload ->
        bufferCandidate raw = None ->
        JsString.truthy (trimmedOrEmpty (Raw.dataUrl raw)) = true ->
        deliverUpload P upload st
        = (st,
           inr (withStrategy (initialSummary upload) "inline" None None None,
                uploadPair (upload, trimmedOrEmpty (Raw.dataUrl raw))))).
Proof.
  intro Hnone. split; [|split].
  - intros uploads contents summaries st st' r H.
    exact (forUploads_without_client P Hnone _ _ _ _ H).
  - intros upload st st' recorded blocks H.
    exact (proj2 (deliverUpload_without_client P Hnone _ _ H) _ _ eq_refl).
  - intros index raw upload st Hn Hb Hd.
    destruct (normalizeUpload_resolved _ _ _ Hn)
      as [[buffer [mime [Hb' _]]]
         |[[buffer [mime [_ [_ [Hbuf [Hm [Hdata [Hr Hk]]]]]]]]
          |[[_ [Hd' _]]
           |[key [_ [Hd' _]]]]]];
      try congruence.
    unfold deliverUpload, passRemoteUrl, bind. rewrite Hr.
    cbn [truthy]. unfold signExistingKey. cbn [imageUrlPayload truthy].
    rewrite Hk. cbn [truthy negb andb]. unfold ret at 1.
    rewrite (offloadBuffer_without_client P Hnone).
    unfold inlineFallback. cbn [imageUrlPayload truthy negb].
    rewrite Hdata. cbn [truthy]. rewrite Hd.
    cbn [imageUrlPayload truthy summary]. rewrite Hd.
    cbn [imageUrlPayload truthy summary]. rewrite Hd. cbn [negb stringOf].
    reflexivity.
Qed.

Lemma without_storage_inline_only_witness :
  let P := Demo.platform false false false [] in
  exists upload recorded,
    normalizeUpload Demo.extension 0
      (Demo.withDataUrl "plan.png" " data:image/png;base64,AAAA ")
      = inr upload
    /\ deliverUpload P upload Demo.start
       = (Demo.start,
          inr (recorded, uploadPair (upload, "data:image/png;base64,AAAA")))
    /\ Summary.strategy recorded = Some "inline".
Proof.
  intro P.
  destruct (normalizeUpload Demo.extension 0
              (Demo.withDataUrl "plan.png" " data:image/png;base64,AAAA "))
    as [e|upload] eqn:E.
  - vm_compute in E. discriminate E.
  - destruct (without_storage_inline_only P eq_refl) as [_ [_ Hinline]].
    pose proof (Hinline 0 _ upload Demo.start E eq_refl eq_refl) as Hrun.
    eexists upload, _. split; [reflexivity|]. split; [exact Hrun|].
    reflexivity.
Defined.

(* ================================================================== *)
(** * Further properties of the handler *)

Lemma truthy_not_empty (s : string) :
  s <> EmptyString -> JsString.truthy s = true.
Proof. destruct s; [congruence|reflexivity]. Qed.

Section HandlerFailures.

Context {World Failure : Type} (P : Platform World Failure).

Local Open Scope list_scope.

(** X5.  With the key configured and a prompt given, [POST] turns every
    throw of [buildImageInputs] into the answer 500 "Vision request
    failed." that carries the thrown value, after logging it.  When it is
    the normalisation of the uploads that throws (an oversized upload, a
    malformed data URL, an upload without a source), this happens before
    any outside call: no file is read, nothing is stored or signed and the
    model is not called. *)
Theorem upload_failures_answer_500 (question : string)
    (uploadPayloads : list element) (st : State) :
  truthy (env P "OPENAI_API_KEY") = true ->
  JsString.truthy question = true ->
  (forall st1 t,
      buildImageInputs P uploadPayloads st = (st1, inl t) ->
      POST P question uploadPayloads st
      = ({| world := world st1;
            console := console st1
                         ++ [console_error "Vision request failed" t []] |},
         json 500 (Failed "Vision request failed." (Some t))))
  /\ (forall e,
        normalizeUploads (extname P) uploadPayloads = inl e ->
        POST P question uploadPayloads st
        = ({| world := world st;
              console := console st
                           ++ [console_error "Vision request failed"
                                 (Threw e) []] |},
           json 500 (Failed "Vision request failed." (Some (Threw e))))).
Proof.
  intros Hkey Hq.
  assert (Hthrow : forall st1 t,
             buildImageInputs P uploadPayloads st = (st1, inl t) ->
             POST P question uploadPayloads st
             = ({| world := world st1;
                   console := console st1
                                ++ [console_error "Vision request failed" t []] |},
                json 500 (Failed "Vision request failed." (Some t)))).
  { intros st1 t H. unfold POST. rewrite Hkey, Hq. cbn [negb].
    unfold visionRequest, bind. rewrite H. reflexivity. }
  split; [exact Hthrow|].
  intros e He. apply Hthrow.
  unfold buildImageInputs, bind. rewrite He. reflexivity.
Qed.

Lemma forImages_unsupported before : forall image after contents (st st' : State) r,
  lookup MIME_LOOKUP
    (JsString.toLowerCase
       (extname P (publicPath P (JsString.dropSlashes (Config.path image)))))
    = None ->
  forImages P (before ++ image :: after) contents st = (st', r) ->
  exists t, r = inl t.
Proof.
  induction before as [|first rest IH];
    intros image after contents st st' r Hext H.
  - cbn [app forImages] in H. unfold bind at 1 in H.
    unfold referenceBlocks, bind, ofResult, toDataUrl in H.
    destruct (await _ st) as [s1 [t|file]].
    + injection H as _ <-. eauto.
    + rewrite Hext in H. unfold throw in H. injection H as _ <-. eauto.
  - cbn [app forImages] in H. unfold bind at 1 in H.
    destruct (referenceBlocks P first st) as [s1 [t|blocks]].
    + injection H as _ <-. eauto.
    + eapply IH; eassumption.
Qed.

(** X6.  The data URL that [toDataUrl] writes for a reference file that is
    not empty is one the pattern of the normaliser matches, with the MIME
    type of [MIME_LOOKUP] and a payload that decodes to the bytes of the
    file; and a configured image whose extension is not in [MIME_LOOKUP]
    makes the loop over the reference images throw, whatever else is
    configured, so that no request can be answered. *)
Theorem reference_images_encoded_or_refused :
  (forall filePath file url,
      toDataUrl P filePath file = inr url ->
      file <> [] ->
      exists mime,
        lookup MIME_LOOKUP (JsString.toLowerCase (extname P filePath))
          = Some mime
        /\ url = bufferToDataUrl file (Some mime)
        /\ dataUrlPattern url = Some (mime, Base64.encode file)
        /\ Base64.decode (Base64.encode file) = file)
  /\ (forall before image after contents (st st' : State) r,
        lookup MIME_LOOKUP
          (JsString.toLowerCase
             (extname P
                (publicPath P (JsString.dropSlashes (Config.path image)))))
          = None ->
        forImages P (before ++ image :: after) contents st = (st', r) ->
        exists t, r = inl t).
Proof.
  split.
  - intros filePath file url H Hfile. unfold toDataUrl in H.
    destruct (lookup MIME_LOOKUP _) as [mime|] eqn:Hl; [|discriminate].
    assert (Hin : In mime (map snd MIME_LOOKUP)).
    { clear H. revert Hl. generalize (JsString.toLowerCase (extname P filePath)).
      intro key. unfold MIME_LOOKUP. cbn [lookup].
      repeat (destruct (String.eqb _ key);
              [intro E; injection E as <-; cbn; tauto|]).
      discriminate. }
    assert (Hgood : mime <> EmptyString
                    /\ JsString.forallb (fun c => negb (Ascii.eqb c ";")) mime
                       = true).
    { cbn in Hin.
      repeat (destruct Hin as [<-|Hin]; [split; [discriminate|reflexivity]|]).
      contradiction. }
    destruct Hgood as [Hne Hsemi].
    rewrite (truthy_not_empty Hne) in H.
    apply returned_eq in H. subst url.
    exists mime. split; [reflexivity|]. split; [reflexivity|]. split.
    + apply dataUrl_matches; assumption.
    + apply decode_encode.
  - intros before image after contents st st' r Hext H.
    eapply forImages_unsupported; eassumption.
Qed.

End HandlerFailures.

Lemma upload_failures_answer_500_witness :
  let P := Demo.platform true false false [Demo.levelOne] in
  let big := Demo.declared "big.png" Demo.png 50000000 in
  POST P "Where is Stair 6?" [Item big] Demo.start
  = ({| world := 0;
        console := [console_error "Vision request failed"
                      (Threw (Error (sizeLimitMessage 0 big))) []] |},
     json 500
       (Failed "Vision request failed."
          (Some (Threw (Error (sizeLimitMessage 0 big)))))).
Proof.
  intros P big.
  destruct (upload_failures_answer_500 P "Where is Stair 6?" [Item big]
              Demo.start eq_refl eq_refl) as [_ Hnormal].
  exact (Hnormal (Error (sizeLimitMessage 0 big)) eq_refl).
Defined.

Lemma reference_images_encoded_or_refused_witness :
  let P := Demo.platform false false false [] in
  dataUrlPattern "data:image/png;base64,iVBORw=="
    = Some ("image/png", "iVBORw==")
  /\ exists t,
       forImages P
         [Demo.levelOne;
          Config.makeImage "site" "Site plan" None "/schematics/site.pdf"
            VUndefined] [] Demo.start
       = (({| world := 2; console := [] |} : @State nat string), inl t).
Proof.
  intro P.
  destruct (reference_images_encoded_or_refused P) as [Hencoded Hrefused].
  split.
  - assert (Hfile : Demo.png <> []) by discriminate.
    destruct (Hencoded "/app/public/schematics/level-1.png" Demo.png
                "data:image/png;base64,iVBORw==" eq_refl Hfile)
      as [mime [Hl [_ [Hmatch _]]]].
    vm_compute in Hl. injection Hl as <-. exact Hmatch.
  - destruct (forImages P
                [Demo.levelOne;
                 Config.makeImage "site" "Site plan" None
                   "/schematics/site.pdf" VUndefined] [] Demo.start)
      as [st' r] eqn:E.
    destruct (Hrefused [Demo.levelOne]
                (Config.makeImage "site" "Site plan" None
                   "/schematics/site.pdf" VUndefined)
                [] [] Demo.start st' r eq_refl E) as [t Ht].
    exists t. subst r. f_equal.
    vm_compute in E. injection E as <- _. reflexivity.
Defined.

(* ================================================================== *)
(** * Properties of the two lookup tables and of the token route *)

(** X7.  The two tables of the constants module agree: every MIME type
    that [MIME_LOOKUP] gives for an extension has an extension in
    [EXT_LOOKUP_BY_MIME], and that extension (with its dot) is mapped back
    to the same MIME type; so whatever [deduceMimeFromName] deduces from a
    file name is a content type the token route supports. *)
Theorem lookup_tables_agree :
  (forall ext mime,
      lookup MIME_LOOKUP ext = Some mime ->
      exists e, lookup EXT_LOOKUP_BY_MIME mime = Some e
                /\ lookup MIME_LOOKUP ("." ++ e) = Some mime)
  /\ (forall mime e,
        lookup EXT_LOOKUP_BY_MIME mime = Some e ->
        lookup MIME_LOOKUP ("." ++ e) = Some mime)
  /\ (forall extname filename mime,
        deduceMimeFromName extname filename = Some mime ->
        TokenRoute.isSupported mime = true).
Proof.
  assert (H1 : forall ext mime,
             lookup MIME_LOOKUP ext = Some mime ->
             exists e, lookup EXT_LOOKUP_BY_MIME mime = Some e
                       /\ lookup MIME_LOOKUP ("." ++ e) = Some mime).
  { intros ext mime. unfold MIME_LOOKUP. cbn [lookup].
    repeat (destruct (String.eqb _ ext);
            [intro E; injection E as <-; eexists; split; reflexivity|]).
    discriminate. }
  split; [exact H1|]. split.
  - intros mime e. unfold EXT_LOOKUP_BY_MIME. cbn [lookup].
    repeat (destruct (String.eqb _ mime) eqn:Ek;
            [apply String.eqb_eq in Ek; subst mime; intro E;
             injection E as <-; reflexivity | clear Ek]).
    intro E. discriminate E.
  - intros extname filename mime H. unfold deduceMimeFromName in H.
    destruct filename as [| | | |name| |]; try discriminate.
    destruct (JsString.isEmpty name); [discriminate|].
    destruct (H1 _ _ H) as [e [He _]].
    revert He. unfold EXT_LOOKUP_BY_MIME. cbn [lookup].
    repeat (destruct (String.eqb _ mime) eqn:Ek;
            [apply String.eqb_eq in Ek; subst mime; intros _; reflexivity
            | clear Ek]).
    intro E. discriminate E.
Qed.

Lemma lookup_tables_agree_witness :
  lookup MIME_LOOKUP ".tiff" = Some "image/tiff"
  /\ TokenRoute.isSupported "image/jpeg" = true.
Proof.
  pose proof lookup_tables_agree as [_ [Hback Hdeduce]].
  split.
  - exact (Hback "image/tiff" "tiff" eq_refl).
  - exact (Hdeduce Demo.extension (VString "photo.JPG") "image/jpeg" eq_refl).
Defined.

Lemma displayName_not_empty (index : nat) (raw : Raw.t) (name : string) :
  displayName index raw = inr name -> name <> EmptyString.
Proof.
  unfold displayName.
  assert (Hp : placeholderName index <> EmptyString)
    by (unfold placeholderName; cbn [append]; discriminate).
  destruct (Raw.name raw); intro H; try discriminate;
    apply returned_eq in H; subst name; try exact Hp.
  destruct (JsString.truthy (JsString.trim s)) eqn:E; [|exact Hp].
  intro E'. rewrite E' in E. discriminate.
Qed.

(** X8.  For a buffer upload that states no MIME type, the normaliser
    infers what [deduceMimeFromName] deduces from the display name, and
    [application/octet-stream] when that deduces nothing; the display name
    it works from is never empty. *)
Theorem buffer_mime_is_deduced (extname : string -> string) (index : nat)
    (raw : Raw.t) (buffer : list byte) (n : Upload.t) :
  bufferCandidate raw = Some buffer ->
  explicitMime raw = None ->
  normalizeUpload extname index raw = inr n ->
  Upload.name n <> EmptyString
  /\ Upload.mimeType n
     = Some match deduceMimeFromName extname (VString (Upload.name n)) with
            | Some mime => mime
            | None => "application/octet-stream"
            end.
Proof.
  intros Hb He Hn.
  destruct (displayName index raw) as [e|name] eqn:Hname.
  - rewrite (normalizeUpload_bad_name extname index raw Hname) in Hn.
    discriminate.
  - pose proof (displayName_not_empty _ _ Hname) as Hne.
    rewrite (normalizeUpload_buffer extname index raw Hname Hb) in Hn.
    destruct (overLimit _); [discriminate|].
    apply returned_eq in Hn. subst n. cbn [Upload.name Upload.mimeType].
    split; [exact Hne|]. rewrite He. unfold deduceMimeFromName.
    rewrite (isEmpty_false Hne). reflexivity.
Qed.

Lemma buffer_mime_is_deduced_witness :
  exists n,
    normalizeUpload Demo.extension 0 (Demo.withBuffer "scan.TIF" Demo.png)
      = inr n
    /\ Upload.mimeType n = Some "image/tiff".
Proof.
  destruct (normalizeUpload Demo.extension 0
              (Demo.withBuffer "scan.TIF" Demo.png)) as [e|n] eqn:E.
  - vm_compute in E. discriminate E.
  - exists n. split; [reflexivity|].
    destruct (buffer_mime_is_deduced Demo.extension 0
                (Demo.withBuffer "scan.TIF" Demo.png) (buffer := Demo.png)
                eq_refl eq_refl E) as [_ Hm].
    rewrite Hm. pose proof E as Hv. vm_compute in Hv.
    apply returned_eq in Hv. rewrite <- Hv. reflexivity.
Defined.

Section TokenFacts.

Context {World Failure : Type} (P : Platform World Failure).

Variable generateClientToken :
  TokenRoute.TokenOptions -> World -> World * (Failure + string).

Local Open Scope list_scope.

Notation "x <- m ;; k" := (bind m (fun x => k))
  (at level 61, m at next level, right associativity).

Lemma supported_has_extension (mime : string) :
  TokenRoute.isSupported mime = true ->
  exists ext, lookup EXT_LOOKUP_BY_MIME mime = Some ext
              /\ JsString.truthy ext = true.
Proof.
  unfold TokenRoute.isSupported, TokenRoute.SUPPORTED_MIME_TYPES,
    EXT_LOOKUP_BY_MIME.
  cbn [map fst existsb lookup]. intro H.
  repeat (destruct (String.eqb mime _) eqn:Ek;
          [apply String.eqb_eq in Ek; subst mime; eexists; split; reflexivity
          | clear Ek]).
  discriminate H.
Qed.

(** The last stretch of [POST], once the request has passed the checks. *)
Lemma issue_runs (mime ext : string) (st : State) :
  exists st' code answer,
    (pathname <- TokenRoute.buildPathname P ext ;;
     tryCatch
       (clientToken <- await (generateClientToken
            {| TokenRoute.token := stringOf (TokenRoute.BLOB_READ_WRITE_TOKEN P);
               TokenRoute.pathname := pathname;
               TokenRoute.maximumSizeInBytes := MAX_UPLOAD_BYTES;
               TokenRoute.allowedContentTypes := TokenRoute.SUPPORTED_MIME_TYPES;
               TokenRoute.addRandomSuffix := false;
               TokenRoute.allowOverwrite := false |}) ;;
        ret (TokenRoute.respond 200 (TokenRoute.Issued clientToken pathname mime)))
       (fun error =>
          _ <- log (console_error "Failed to generate blob upload token"
                      error []) ;;
          ret (TokenRoute.respond 500
                 (TokenRoute.Refused "Failed to generate blob upload token."))))
      st
    = (st', inr (TokenRoute.respond code answer))
    /\ ((code = 200
         /\ exists clientToken uuid,
              answer
              = TokenRoute.Issued clientToken
                  (JsString.join "/"
                     (filter JsString.truthy
                        [ trimSlashes (TokenRoute.BLOB_PREFIX P);
                          trimSlashes (TokenRoute.BLOB_FOLDER P);
                          (uuid ++ "." ++ ext)%string ]))
                  mime)
        \/ (code = 500
            /\ answer
               = TokenRoute.Refused "Failed to generate blob upload token."
            /\ exists entry, console st' = console st ++ [entry])).
Proof.
  unfold bind, TokenRoute.buildPathname, tryCatch, bind, await, ret, log.
  destruct (randomUUID P (world st)) as [w uuid]. cbn [world console].
  match goal with
  | |- context [generateClientToken ?o w] =>
      destruct (generateClientToken o w) as [w2 [failure|clientToken]]
  end.
  - eexists. exists 500. eexists. split; [reflexivity|]. right.
    split; [reflexivity|]. split; [reflexivity|]. cbn [console]. eauto.
  - eexists. exists 200. eexists. split; [reflexivity|]. left.
    split; [reflexivity|]. eauto.
Qed.

Lemma POST_passes (body : TokenRoute.Body) (st : State) :
  truthy (TokenRoute.BLOB_READ_WRITE_TOKEN P) = true ->
  JsString.truthy (trimmedOrEmpty (TokenRoute.filename body)) = true ->
  TokenRoute.tooLarge (asFinite (TokenRoute.size body)) = false ->
  TokenRoute.isSupported (TokenRoute.inferredMime P body) = true ->
  exists ext,
    lookup EXT_LOOKUP_BY_MIME (TokenRoute.inferredMime P body) = Some ext
    /\ TokenRoute.extensionFor P body = ext
    /\ exists st' code answer,
         TokenRoute.POST P generateClientToken (inr body) st
         = (st', inr (TokenRoute.respond code answer))
         /\ ((code = 200
              /\ exists clientToken uuid,
                   answer
                   = TokenRoute.Issued clientToken
                       (JsString.join "/"
                          (filter JsString.truthy
                             [ trimSlashes (TokenRoute.BLOB_PREFIX P);
                               trimSlashes (TokenRoute.BLOB_FOLDER P);
                               (uuid ++ "." ++ ext)%string ]))
                       (TokenRoute.inferredMime P body))
             \/ (code = 500
                 /\ answer
                    = TokenRoute.Refused
                        "Failed to generate blob upload token."
                 /\ exists entry, console st' = console st ++ [entry])).
Proof.
  intros Htoken Hname Hsize Hsup.
  destruct (supported_has_extension _ Hsup) as [ext [Hext Htruthy]].
  exists ext. split; [exact Hext|].
  assert (Hfor : TokenRoute.extensionFor P body = ext).
  { unfold TokenRoute.extensionFor, TokenRoute.orText. rewrite Hext.
    cbn [stringOf]. rewrite Htruthy. reflexivity. }
  split; [exact Hfor|].
  unfold TokenRoute.POST. rewrite Htoken, Hname, Hsize, Hsup, Hfor.
  cbn [negb]. apply issue_runs.
Qed.

End TokenFacts.

Section TokenProperties.

Context {World Failure : Type} (P : Platform World Failure).

Variable generateClientToken :
  TokenRoute.TokenOptions -> World -> World * (Failure + string).

Local Open Scope list_scope.

(** X9.  The token route never throws: every request is answered with
    status 200, 400 or 500; a 200 carries a token, and a 400 is sent
    before anything is touched (no identifier is drawn, the storage SDK is
    not called, nothing is logged). *)
Theorem token_route_always_answers (request : Failure + TokenRoute.Body)
    (st : State) :
  exists st' code answer,
    TokenRoute.POST P generateClientToken request st
    = (st', inr (TokenRoute.respond code answer))
    /\ ((code = 200
         /\ exists clientToken pathname mime,
              answer = TokenRoute.Issued clientToken pathname mime)
        \/ (code = 400 /\ st' = st
            /\ exists message, answer = TokenRoute.Refused message)
        \/ (code = 500
            /\ exists message, answer = TokenRoute.Refused message)).
Proof.
  destruct (truthy (TokenRoute.BLOB_READ_WRITE_TOKEN P)) eqn:Htoken.
  2:{ unfold TokenRoute.POST. rewrite Htoken. cbn [negb]. unfold ret.
      do 3 eexists. split; [reflexivity|]. right. right. eauto. }
  destruct request as [failure|body].
  { unfold TokenRoute.POST. rewrite Htoken. cbn [negb]. unfold ret.
    do 3 eexists. split; [reflexivity|]. right. left. eauto. }
  destruct (JsString.truthy (trimmedOrEmpty (TokenRoute.filename body)))
    eqn:Hname.
  2:{ unfold TokenRoute.POST. rewrite Htoken, Hname. cbn [negb]. unfold ret.
      do 3 eexists. split; [reflexivity|]. right. left. eauto. }
  destruct (TokenRoute.tooLarge (asFinite (TokenRoute.size body))) eqn:Hsize.
  { unfold TokenRoute.POST. rewrite Htoken, Hname, Hsize. cbn [negb].
    unfold ret. do 3 eexists. split; [reflexivity|]. right. left. eauto. }
  destruct (TokenRoute.isSupported (TokenRoute.inferredMime P body)) eqn:Hsup.
  2:{ unfold TokenRoute.POST. rewrite Htoken, Hname, Hsize, Hsup.
      cbn [negb]. unfold ret.
      do 3 eexists. split; [reflexivity|]. right. left. eauto. }
  destruct (POST_passes P generateClientToken body st Htoken Hname Hsize Hsup)
    as [ext [_ [_ [st' [code [answer [Hrun Hcases]]]]]]].
  exists st', code, answer. split; [exact Hrun|].
  destruct Hcases as [[Hc [tok [uuid Ha]]] | [Hc [Ha _]]].
  - left. split; [exact Hc|]. eauto.
  - right. right. split; [exact Hc|]. eauto.
Qed.

(** X10.  A token is only ever issued for one of the four supported content
    types, for a request with a file name and a size within the cap; the
    content type answered is the trimmed one of the request, or the one
    deduced from the file name when the request states none; and the
    path name ends in the extension that [EXT_LOOKUP_BY_MIME] has for that
    content type, never in the extension of the file name. *)
Theorem token_only_for_supported_type (request : Failure + TokenRoute.Body)
    (st st' : State) (code : nat) (clientToken pathname mime : string) :
  TokenRoute.POST P generateClientToken request st
  = (st', inr (TokenRoute.respond code
                 (TokenRoute.Issued clientToken pathname mime))) ->
  exists body ext uuid,
    request = inr body
    /\ code = 200
    /\ mime = TokenRoute.inferredMime P body
    /\ In mime ["image/png"; "image/jpeg"; "image/webp"; "image/tiff"]%string
    /\ lookup EXT_LOOKUP_BY_MIME mime = Some ext
    /\ pathname
       = JsString.join "/"
           (filter JsString.truthy
              [ trimSlashes (TokenRoute.BLOB_PREFIX P);
                trimSlashes (TokenRoute.BLOB_FOLDER P);
                (uuid ++ "." ++ ext)%string ])
    /\ JsString.truthy (trimmedOrEmpty (TokenRoute.filename body)) = true
    /\ TokenRoute.tooLarge (asFinite (TokenRoute.size body)) = false.
Proof.
  intro H.
  destruct (truthy (TokenRoute.BLOB_READ_WRITE_TOKEN P)) eqn:Htoken.
  2:{ unfold TokenRoute.POST in H. rewrite Htoken in H. discriminate H. }
  destruct request as [failure|body].
  { unfold TokenRoute.POST in H. rewrite Htoken in H. discriminate H. }
  destruct (JsString.truthy (trimmedOrEmpty (TokenRoute.filename body)))
    eqn:Hname.
  2:{ unfold TokenRoute.POST in H. rewrite Htoken, Hname in H.
      discriminate H. }
  destruct (TokenRoute.tooLarge (asFinite (TokenRoute.size body))) eqn:Hsize.
  { unfold TokenRoute.POST in H. rewrite Htoken, Hname, Hsize in H.
    discriminate H. }
  destruct (TokenRoute.isSupported (TokenRoute.inferredMime P body)) eqn:Hsup.
  2:{ unfold TokenRoute.POST in H. rewrite Htoken, Hname, Hsize, Hsup in H.
      discriminate H. }
  destruct (POST_passes P generateClientToken body st Htoken Hname Hsize Hsup)
    as [ext [Hext [_ [st1 [code1 [answer1 [Hrun Hcases]]]]]]].
  rewrite Hrun in H. injection H as _ Hcode Hanswer.
  destruct Hcases as [[Hc [tok [uuid Ha]]] | [_ [Ha _]]];
    rewrite Ha in Hanswer; [|discriminate Hanswer].
  injection Hanswer as _ Hpath Hmime.
  exists body, ext, uuid. subst code1 mime pathname.
  repeat split; try assumption; try reflexivity; try congruence.
  revert Hsup. generalize (TokenRoute.inferredMime P body). intro m.
  unfold TokenRoute.isSupported, TokenRoute.SUPPORTED_MIME_TYPES,
    EXT_LOOKUP_BY_MIME. cbn [map fst existsb In].
  intro Hs.
  repeat (destruct (String.eqb m _) eqn:Ek;
          [apply String.eqb_eq in Ek; subst m; tauto | clear Ek]).
  discriminate Hs.
Qed.

(** X11.  A request that states a size above the cap is refused with 400
    and the size message, untouched state, whatever its name and type; and
    the sizes the token route refuses are exactly the sizes above the cap
    that the normaliser of the analyze route refuses. *)
Theorem oversized_token_refused (body : TokenRoute.Body) (declared : Q)
    (st : State) :
  truthy (TokenRoute.BLOB_READ_WRITE_TOKEN P) = true ->
  JsString.truthy (trimmedOrEmpty (TokenRoute.filename body)) = true ->
  asFinite (TokenRoute.size body) = Some declared ->
  TokenRoute.tooLarge (Some declared) = overLimit declared
  /\ ((inject_Z MAX_UPLOAD_BYTES < declared)%Q ->
      TokenRoute.POST P generateClientToken (inr body) st
      = (st, inr (TokenRoute.respond 400
                    (TokenRoute.Refused TokenRoute.sizeRefusal)))).
Proof.
  intros Htoken Hname Hsize.
  assert (Hsame : TokenRoute.tooLarge (Some declared) = overLimit declared).
  { unfold TokenRoute.tooLarge.
    destruct (overLimit declared) eqn:Hover; [|apply andb_false_r].
    rewrite andb_true_r. apply negb_true_iff.
    destruct (Qeq_bool declared 0) eqn:Hz; [|reflexivity].
    apply Qeq_bool_iff in Hz. apply overLimit_true in Hover.
    rewrite Hz in Hover. exfalso. revert Hover. vm_compute. discriminate. }
  split; [exact Hsame|].
  intro Hcap. apply overLimit_true in Hcap.
  unfold TokenRoute.POST. rewrite Htoken, Hname, Hsize, Hsame, Hcap.
  reflexivity.
Qed.

(** X12.  The content type of the request decides before the file name: a
    stated type that is not one of the four supported ones is refused with
    400 whatever the file is called (the comparison is exact, so a type in
    upper case is refused too), and a request that states no type is
    refused when its file name has no extension of [MIME_LOOKUP]. *)
Theorem unsupported_type_refused (body : TokenRoute.Body) (st : State) :
  truthy (TokenRoute.BLOB_READ_WRITE_TOKEN P) = true ->
  JsString.truthy (trimmedOrEmpty (TokenRoute.filename body)) = true ->
  TokenRoute.tooLarge (asFinite (TokenRoute.size body)) = false ->
  let stated := trimmedOrEmpty (TokenRoute.contentType body) in
  (JsString.truthy stated = true ->
   TokenRoute.isSupported stated = false ->
   TokenRoute.POST P generateClientToken (inr body) st
   = (st, inr (TokenRoute.respond 400
                 (TokenRoute.Refused (TokenRoute.typeRefusal stated)))))
  /\ (JsString.truthy stated = false ->
      deduceMimeFromName (extname P)
        (VString (trimmedOrEmpty (TokenRoute.filename body))) = None ->
      TokenRoute.POST P generateClientToken (inr body) st
      = (st, inr (TokenRoute.respond 400
                    (TokenRoute.Refused
                       (TokenRoute.typeRefusal "application/octet-stream"))))).
Proof.
  intros Htoken Hname Hsize stated. subst stated. split.
  - intros Hstated Hsup.
    assert (Hm : TokenRoute.inferredMime P body
                 = trimmedOrEmpty (TokenRoute.contentType body)).
    { unfold TokenRoute.inferredMime, TokenRoute.orText. rewrite Hstated.
      reflexivity. }
    unfold TokenRoute.POST. rewrite Htoken, Hname, Hsize, Hm, Hsup.
    reflexivity.
  - intros Hstated Hdeduce.
    assert (Hm : TokenRoute.inferredMime P body = "application/octet-stream"%string).
    { unfold TokenRoute.inferredMime, TokenRoute.orText.
      rewrite Hstated, Hdeduce. reflexivity. }
    unfold TokenRoute.POST. rewrite Htoken, Hname, Hsize, Hm. reflexivity.
Qed.

End TokenProperties.

Lemma token_only_for_supported_type_witness :
  exists st' clientToken pathname ext uuid,
    TokenRoute.POST DemoRoutes.platform DemoRoutes.generate
      (inr (DemoRoutes.tokenBody " plan.JPG " EmptyString 1000)) Demo.start
    = (st', inr (TokenRoute.respond 200
                   (TokenRoute.Issued clientToken pathname "image/jpeg")))
    /\ lookup EXT_LOOKUP_BY_MIME "image/jpeg" = Some ext
    /\ pathname
       = JsString.join "/"
           (filter JsString.truthy
              [ trimSlashes (TokenRoute.BLOB_PREFIX DemoRoutes.platform);
                trimSlashes (TokenRoute.BLOB_FOLDER DemoRoutes.platform);
                uuid ++ "." ++ ext ]).
Proof.
  destruct (TokenRoute.POST DemoRoutes.platform DemoRoutes.generate
              (inr (DemoRoutes.tokenBody " plan.JPG " EmptyString 1000)) Demo.start)
    as [st' [t|[code [clientToken pathname mime|message]]]] eqn:E;
    try (vm_compute in E; discriminate E).
  destruct (token_only_for_supported_type DemoRoutes.platform
              DemoRoutes.generate _ _ E)
    as [body [ext [uuid [Hreq [Hcode [Hmime [_ [Hext [Hpath _]]]]]]]]].
  injection Hreq as <-.
  assert (Hm : mime = "image/jpeg") by (rewrite Hmime; reflexivity).
  subst code. rewrite Hm in *.
  exists st', clientToken, pathname, ext, uuid.
  split; [reflexivity|]. split; [exact Hext | exact Hpath].
Defined.

Lemma oversized_token_refused_witness :
  TokenRoute.POST DemoRoutes.platform DemoRoutes.generate
    (inr (DemoRoutes.tokenBody "plan.png" "image/png" 50000000)) Demo.start
  = (Demo.start,
     inr (TokenRoute.respond 400 (TokenRoute.Refused TokenRoute.sizeRefusal))).
Proof.
  destruct (oversized_token_refused DemoRoutes.platform DemoRoutes.generate
              (DemoRoutes.tokenBody "plan.png" "image/png" 50000000)
              (declared := inject_Z 50000000) Demo.start
              eq_refl eq_refl eq_refl) as [_ Hrefused].
  apply Hrefused. vm_compute. reflexivity.
Defined.

Lemma unsupported_type_refused_witness :
  TokenRoute.POST DemoRoutes.platform DemoRoutes.generate
    (inr (DemoRoutes.tokenBody "plan.png" "IMAGE/PNG" 10)) Demo.start
  = (Demo.start,
     inr (TokenRoute.respond 400
            (TokenRoute.Refused (TokenRoute.typeRefusal "IMAGE/PNG"))))
  /\ TokenRoute.POST DemoRoutes.platform DemoRoutes.generate
       (inr (DemoRoutes.tokenBody "notes.txt" " " 10)) Demo.start
     = (Demo.start,
        inr (TokenRoute.respond 400
               (TokenRoute.Refused
                  (TokenRoute.typeRefusal "application/octet-stream")))).
Proof.
  split.
  - destruct (unsupported_type_refused DemoRoutes.platform DemoRoutes.generate
                (DemoRoutes.tokenBody "plan.png" "IMAGE/PNG" 10) Demo.start
                eq_refl eq_refl eq_refl) as [Hstated _].
    exact (Hstated eq_refl eq_refl).
  - destruct (unsupported_type_refused DemoRoutes.platform DemoRoutes.generate
                (DemoRoutes.tokenBody "notes.txt" " " 10) Demo.start
                eq_refl eq_refl eq_refl) as [_ Hblank].
    exact (Hblank eq_refl eq_refl).
Defined.

(* ================================================================== *)
(** * Properties of the reading of the request *)

Lemma lowerChar_idempotent (c : ascii) :
  JsString.lowerChar (JsString.lowerChar c) = JsString.lowerChar c.
Proof. destruct c as [[] [] [] [] [] [] [] []]; reflexivity. Qed.

Lemma toLowerCase_idempotent (s : string) :
  JsString.toLowerCase (JsString.toLowerCase s) = JsString.toLowerCase s.
Proof.
  induction s as [|c rest IH]; simpl; [reflexivity|].
  rewrite lowerChar_idempotent, IH. reflexivity.
Qed.

Lemma trimEnd_idempotent (s : string) :
  JsString.trimEnd (JsString.trimEnd s) = JsString.trimEnd s.
Proof.
  induction s as [|c rest IH]; [reflexivity|].
  cbn [JsString.trimEnd].
  destruct (JsString.trimEnd rest) as [|k kept] eqn:E.
  - destruct (JsString.isWhiteSpace c) eqn:Ec; [reflexivity|].
    cbn [JsString.trimEnd]. rewrite Ec. reflexivity.
  - cbn [JsString.trimEnd] in *. rewrite IH. reflexivity.
Qed.

Lemma trimStart_clean (s : string) :
  match JsString.trimStart s with
  | EmptyString => True
  | String c _ => JsString.isWhiteSpace c = false
  end.
Proof.
  induction s as [|c rest IH]; [exact I|].
  cbn [JsString.trimStart].
  destruct (JsString.isWhiteSpace c) eqn:Ec; [exact IH | exact Ec].
Qed.

Lemma trimEnd_clean (s : string) :
  match s with
  | EmptyString => True
  | String c _ => JsString.isWhiteSpace c = false
  end ->
  JsString.trimStart (JsString.trimEnd s) = JsString.trimEnd s.
Proof.
  destruct s as [|c rest]; [reflexivity|]. intro Hc.
  cbn [JsString.trimEnd].
  destruct (JsString.trimEnd rest); [rewrite Hc|];
    cbn [JsString.trimStart]; rewrite Hc; reflexivity.
Qed.

Lemma trim_idempotent (s : string) :
  JsString.trim (JsString.trim s) = JsString.trim s.
Proof.
  unfold JsString.trim.
  rewrite (trimEnd_clean _ (trimStart_clean s)). apply trimEnd_idempotent.
Qed.

Section ReadingProperties.

Context {World Failure : Type} (P : Platform World Failure).

Variable parseJson : string -> Failure + Json.
Variable textOf : list byte -> string.

Local Open Scope list_scope.

Lemma elementOfJson_no_buffer (j : Json) (raw : Raw.t) :
  elementOfJson j = Item raw -> bufferCandidate raw = None.
Proof.
  assert (Hp : match property j "buffer" with
               | VBytes _ _ => False
               | _ => True
               end).
  { unfold property. destruct j; try exact I.
    destruct (assoc fields "buffer") as [v|]; [destruct v|]; exact I. }
  assert (Hb : forall r, elementOfJson j = Item r ->
                         Raw.buffer r = property j "buffer").
  { intros r Hr. destruct j; cbn [elementOfJson] in Hr;
      try discriminate Hr; apply (f_equal (fun e => match e with
                                                    | Item x => Raw.buffer x
                                                    | Nullish => VUndefined
                                                    end)) in Hr;
      cbn [Raw.buffer] in Hr; symmetry; exact Hr. }
  intro H. unfold bufferCandidate. rewrite (Hb raw H).
  destruct (property j "buffer"); try reflexivity. contradiction.
Qed.

(** X13.  A JSON request never carries a buffer: every element of
    [body.uploads] reaches the normaliser without one, whatever its
    [buffer] property holds, so such an upload is resolved by its data URL,
    its remote URL or its key; in particular an element whose name is a
    string or absent, with a remote URL that is not blank and no data URL,
    is accepted, keeps that URL and has no buffer once normalised. *)
Theorem json_uploads_carry_no_buffer (body : Json) (question : string)
    (uploadPayloads : list element) :
  @readJson Failure body = Parsed question uploadPayloads ->
  (forall raw, In (Item raw) uploadPayloads -> bufferCandidate raw = None)
  /\ (forall extname index raw name,
        In (Item raw) uploadPayloads ->
        displayName index raw = inr name ->
        JsString.truthy (trimmedOrEmpty (Raw.dataUrl raw)) = false ->
        JsString.truthy (trimmedOrEmpty (Raw.url raw)) = true ->
        exists n,
          normalizeUpload extname index raw = inr n
          /\ Upload.name n = name
          /\ Upload.remoteUrl n = Some (trimmedOrEmpty (Raw.url raw))
          /\ Upload.buffer n = None).
Proof.
  intro H.
  assert (Hall : forall raw, In (Item raw) uploadPayloads ->
                             bufferCandidate raw = None).
  { assert (Hmap : exists items, uploadPayloads = map elementOfJson items).
    { unfold readJson in H. destruct body; try discriminate H;
        match type of H with
        | match ?p with _ => _ end = _ => destruct p
        end; try discriminate H; injection H as _ <-;
        try (exists []; reflexivity).
      all: destruct (assoc fields "uploads") as [[]|];
        try (exists []; reflexivity); eexists; reflexivity. }
    destruct Hmap as [items ->]. intros raw Hin.
    apply in_map_iff in Hin. destruct Hin as [j [Hj _]].
    exact (elementOfJson_no_buffer _ Hj). }
  split; [exact Hall|].
  intros extname index raw name Hin Hname Hd Hu.
  rewrite (normalizeUpload_remoteUrl extname index raw Hname
             (Hall raw Hin) Hd Hu).
  eexists. split; [reflexivity|]. split; [|split]; reflexivity.
Qed.

End ReadingProperties.

Lemma json_uploads_carry_no_buffer_witness :
  let raw :=
    Raw.make (VString "A") VUndefined VUndefined
      (VString " https://example.org/a.png ") VUndefined VUndefined
      VUndefined VObject VUndefined VUndefined VUndefined VUndefined in
  @readJson string
    (JObject
       [ ("prompt", JString " Where is Stair 6? ");
         ("uploads",
          JArray [ JObject [ ("name", JString "A");
                             ("url", JString " https://example.org/a.png ");
                             ("buffer", JArray [JNumber (Finite 1)]) ] ]) ])
  = Parsed "Where is Stair 6?" [Item raw]
  /\ bufferCandidate raw = None
  /\ exists n,
       normalizeUpload Demo.extension 0 raw = inr n
       /\ Upload.name n = "A"
       /\ Upload.remoteUrl n = Some "https://example.org/a.png"
       /\ Upload.buffer n = None.
Proof.
  intro raw.
  assert (Hread : @readJson string
            (JObject
               [ ("prompt", JString " Where is Stair 6? ");
                 ("uploads",
                  JArray [ JObject [ ("name", JString "A");
                                     ("url", JString " https://example.org/a.png ");
                                     ("buffer", JArray [JNumber (Finite 1)]) ] ]) ])
          = Parsed "Where is Stair 6?" [Item raw]) by reflexivity.
  destruct (json_uploads_carry_no_buffer (Failure := string) _ Hread)
    as [Hnone Hremote].
  split; [exact Hread|]. split.
  - apply Hnone. left. reflexivity.
  - exact (Hremote Demo.extension 0 raw "A" (or_introl eq_refl) eq_refl
             eq_refl eq_refl).
Defined.

Section MalformedRequests.

Context {World Failure : Type} (P : Platform World Failure).

Variable parseJson : string -> Failure + Json.
Variable textOf : list byte -> string.

Local Open Scope list_scope.

Hypothesis keyConfigured : truthy (env P "OPENAI_API_KEY") = true.

(** X14.  How [POST] meets a request it cannot use, with the key
    configured.  A body that is no JSON is answered 400 "Invalid JSON
    payload." and a form that does not parse 400 "Invalid multipart form
    payload." (logged).  A JSON body that is [null], or whose [prompt] is
    neither a string nor absent, is not answered at all: reading the
    prompt throws a [TypeError] out of the handler.  A prompt that is
    absent or blank is answered 400 "Prompt is required." whatever the
    uploads are, which are not looked at. *)
Theorem malformed_requests (req : Request Failure) (st : State) :
  let isForm :=
    includes "multipart/form-data" (stringOf (contentTypeHeader req)) in
  (isForm = false ->
   forall failure, jsonBody req = inl failure ->
   POST_request P parseJson textOf req st
   = (st, [], inr (json 400 (Failed "Invalid JSON payload." None))))
  /\ (isForm = true ->
      forall failure, formEntries req = inl failure ->
      POST_request P parseJson textOf req st
      = ({| world := world st;
            console := console st
                         ++ [console_error "Failed to parse multipart form data"
                               (Rejected failure) []] |},
         [],
         inr (json 400 (Failed "Invalid multipart form payload." None))))
  /\ (isForm = false ->
      forall body, jsonBody req = inr body ->
      (body = JNull
       \/ match property body "prompt" with
          | VUndefined | VNull | VString _ => False
          | _ => True
          end) ->
      POST_request P parseJson textOf req st = (st, [], inl TypeError))
  /\ (isForm = false ->
      forall body, jsonBody req = inr body ->
      body <> JNull ->
      match property body "prompt" with
      | VUndefined | VNull => True
      | VString prompt => JsString.trim prompt = EmptyString
      | _ => False
      end ->
      POST_request P parseJson textOf req st
      = (st, [], inr (json 400 (Failed "Prompt is required." None)))).
Proof.
  intro isForm. subst isForm. unfold POST_request, readRequest.
  rewrite keyConfigured. cbn [negb]. repeat split.
  - intros Hform failure Hbody. rewrite Hform, Hbody. reflexivity.
  - intros Hform failure Hentries. rewrite Hform, Hentries. reflexivity.
  - intros Hform body Hbody Hbad. rewrite Hform, Hbody.
    destruct Hbad as [-> | Hbad]; [reflexivity|].
    unfold readJson. destruct body; try reflexivity;
      destruct (property _ "prompt"); try contradiction; reflexivity.
  - intros Hform body Hbody Hnull Hblank. rewrite Hform, Hbody.
    assert (Hread : exists uploadPayloads,
               @readJson Failure body = Parsed EmptyString uploadPayloads).
    { unfold readJson. destruct body; try congruence;
        destruct (property _ "prompt"); try contradiction;
        try rewrite Hblank; eexists; reflexivity. }
    destruct Hread as [uploadPayloads ->].
    unfold POST. rewrite keyConfigured. reflexivity.
Qed.

End MalformedRequests.

Lemma malformed_requests_witness :
  POST_request DemoRoutes.platform DemoRoutes.parse DemoRoutes.textOf
    {| contentTypeHeader := None;
       jsonBody := inl "Unexpected end of JSON input";
       formEntries := inl "not a form" |} Demo.start
  = (Demo.start, [], inr (json 400 (Failed "Invalid JSON payload." None)))
  /\ POST_request DemoRoutes.platform DemoRoutes.parse DemoRoutes.textOf
       {| contentTypeHeader := Some "multipart/form-data; boundary=x";
          jsonBody := inl "not JSON";
          formEntries := inl "missing boundary" |} Demo.start
     = ({| world := 0;
           console := [console_error "Failed to parse multipart form data"
                         (Rejected "missing boundary") []] |},
        [], inr (json 400 (Failed "Invalid multipart form payload." None)))
  /\ POST_request DemoRoutes.platform DemoRoutes.parse DemoRoutes.textOf
       (DemoRoutes.jsonRequest (JObject [("prompt", JNumber (Finite 7))]))
       Demo.start
     = (Demo.start, [], inl TypeError)
  /\ POST_request DemoRoutes.platform DemoRoutes.parse DemoRoutes.textOf
       (DemoRoutes.jsonRequest
          (JObject [("prompt", JString "   "); ("uploads", JArray [JNull])]))
       Demo.start
     = (Demo.start, [], inr (json 400 (Failed "Prompt is required." None))).
Proof.
  split; [|split; [|split]].
  - exact (proj1 (malformed_requests DemoRoutes.platform DemoRoutes.parse
                    DemoRoutes.textOf eq_refl
                    {| contentTypeHeader := None;
                       jsonBody := inl "Unexpected end of JSON input";
                       formEntries := inl "not a form" |} Demo.start)
             eq_refl "Unexpected end of JSON input" eq_refl).
  - exact (proj1 (proj2 (malformed_requests DemoRoutes.platform
                           DemoRoutes.parse DemoRoutes.textOf eq_refl
                           {| contentTypeHeader :=
                                Some "multipart/form-data; boundary=x";
                              jsonBody := inl "not JSON";
                              formEntries := inl "missing boundary" |}
                           Demo.start))
             eq_refl "missing boundary" eq_refl).
  - exact (proj1 (proj2 (proj2 (malformed_requests DemoRoutes.platform
                                  DemoRoutes.parse DemoRoutes.textOf eq_refl
                                  (DemoRoutes.jsonRequest
                                     (JObject [("prompt", JNumber (Finite 7))]))
                                  Demo.start)))
             eq_refl (JObject [("prompt", JNumber (Finite 7))]) eq_refl
             (or_intror I)).
  - refine (proj2 (proj2 (proj2 (malformed_requests DemoRoutes.platform
                                   DemoRoutes.parse DemoRoutes.textOf eq_refl
                                   (DemoRoutes.jsonRequest
                                      (JObject [("prompt", JString "   ");
                                                ("uploads", JArray [JNull])]))
                                   Demo.start)))
              eq_refl
              (JObject [("prompt", JString "   ");
                        ("uploads", JArray [JNull])]) eq_refl _ eq_refl).
    discriminate.
Defined.

(** ** The files of a multipart request *)

Section MultipartFiles.

Context {World Failure : Type} (P : Platform World Failure).

Variable parseJson : string -> Failure + Json.
Variable textOf : list byte -> string.

Local Open Scope list_scope.

Lemma payloadsOfFiles_length uploadsMeta defaultDetail entries : forall index,
  List.length (payloadsOfFiles P uploadsMeta defaultDetail index entries)
  = List.length (filesToSend entries).
Proof.
  induction entries as [|[key [text|file]] rest IH]; intro index;
    cbn [payloadsOfFiles filesToSend]; [reflexivity|apply IH|].
  destruct (fileBytes file); [apply IH|].
  cbn [List.length]. rewrite IH. reflexivity.
Qed.

Lemma payloadsOfFiles_nth uploadsMeta defaultDetail entries :
  forall index k key file,
    nth_error (filesToSend entries) k = Some (key, file) ->
    nth_error (payloadsOfFiles P uploadsMeta defaultDetail index entries) k
    = Some (Item (payloadOfFile P uploadsMeta defaultDetail (index + k)
                    key file)).
Proof.
  induction entries as [|[name [text|attached]] rest IH];
    intros index k key file; cbn [payloadsOfFiles filesToSend].
  - destruct k; discriminate.
  - apply IH.
  - destruct (fileBytes attached); [apply IH|].
    destruct k as [|k]; cbn [nth_error].
    + intro H. injection H as -> ->. rewrite Nat.add_0_r. reflexivity.
    + intro H. rewrite (IH (S index) k key file H).
      rewrite Nat.add_succ_r. reflexivity.
Qed.

Lemma filesToSend_not_empty entries : forall k key file,
  nth_error (filesToSend entries) k = Some (key, file) ->
  fileBytes file <> [] /\ In (key, Attached file) entries.
Proof.
  induction entries as [|[name [text|attached]] rest IH];
    intros k key file; cbn [filesToSend].
  - destruct k; discriminate.
  - intro H. destruct (IH _ _ _ H). split; [assumption|right; assumption].
  - destruct (fileBytes attached) eqn:Hb.
    + intro H. destruct (IH _ _ _ H). split; [assumption|right; assumption].
    + destruct k as [|k]; cbn [nth_error].
      * intro H. injection H as -> ->. split; [congruence|left; reflexivity].
      * intro H. destruct (IH _ _ _ H). split; [assumption|right; assumption].
Qed.

(** X15.  A multipart request is read into one payload per attached file
    that is not empty, in the order of the form; fields that are text and
    empty files give none and are not counted, so the payload at position
    [k] is built with index [k] (the number of its placeholder name), and
    every payload comes from an attached, non-empty file of the form.
    Reading changes no state. *)
Theorem multipart_payloads_follow_files (req : Request Failure)
    (st : State) (entries : list (string * FormValue)) :
  includes "multipart/form-data" (stringOf (contentTypeHeader req)) = true ->
  formEntries req = inr entries ->
  exists uploadPayloads,
    readRequest P parseJson textOf req st
    = (st, snd (formUploadsMeta parseJson entries),
       Parsed (formPrompt textOf entries) uploadPayloads)
    /\ List.length uploadPayloads = List.length (filesToSend entries)
    /\ (forall k key file,
          nth_error (filesToSend entries) k = Some (key, file) ->
          fileBytes file <> []
          /\ In (key, Attached file) entries
          /\ nth_error uploadPayloads k
             = Some (Item (payloadOfFile P
                             (fst (formUploadsMeta parseJson entries))
                             (formDefaultDetail entries) k key file))).
Proof.
  intros Hform Hentries.
  exists (payloadsOfFiles P (fst (formUploadsMeta parseJson entries))
            (formDefaultDetail entries) 0 entries).
  split; [|split].
  - unfold readRequest. rewrite Hform, Hentries.
    destruct (formUploadsMeta parseJson entries). reflexivity.
  - apply payloadsOfFiles_length.
  - intros k key file H.
    destruct (filesToSend_not_empty _ _ H) as [Hb Hin].
    split; [exact Hb|]. split; [exact Hin|].
    exact (payloadsOfFiles_nth _ _ _ 0 k H).
Qed.

End MultipartFiles.

Lemma multipart_payloads_follow_files_witness :
  exists uploadPayloads,
    readRequest DemoRoutes.platform DemoRoutes.parse DemoRoutes.textOf
      DemoRoutes.multipart Demo.start
    = (Demo.start, [], Parsed "Where is Stair 6?" uploadPayloads)
    /\ List.length uploadPayloads = 2%nat
    /\ option_map
         (fun e => match e with
                   | Item raw => Raw.name raw
                   | Nullish => VUndefined
                   end)
         (nth_error uploadPayloads 1)
       = Some (VString "Uploaded image 2").
Proof.
  destruct (multipart_payloads_follow_files DemoRoutes.platform
              DemoRoutes.parse DemoRoutes.textOf DemoRoutes.multipart
              Demo.start (entries := DemoRoutes.form) eq_refl eq_refl)
    as [uploadPayloads [Hread [Hlen Hnth]]].
  exists uploadPayloads. split; [exact Hread|]. split; [exact Hlen|].
  destruct (Hnth 1%nat "third" (DemoRoutes.file EmptyString EmptyString Demo.png) eq_refl)
    as [_ [_ Hk]].
  rewrite Hk. reflexivity.
Defined.

(** ** A file of a multipart request, normalised *)

Lemma lookup_mime_plain (ext mime : string) :
  lookup MIME_LOOKUP ext = Some mime ->
  JsString.toLowerCase (JsString.trim mime) = mime
  /\ JsString.truthy mime = true.
Proof.
  unfold MIME_LOOKUP. cbn [lookup].
  repeat (destruct (String.eqb _ ext);
          [intro E; injection E as <-; split; reflexivity|]).
  discriminate.
Qed.

Lemma overLimit_length (buffer : list byte) :
  overLimit (lengthOf buffer) = true
  <-> (MAX_UPLOAD_BYTES < Z.of_nat (List.length buffer))%Z.
Proof.
  rewrite overLimit_true. unfold lengthOf. rewrite <- Zlt_Qlt. reflexivity.
Qed.

Lemma VString_eq (a b : string) : VString a = VString b -> a = b.
Proof. intro H. injection H as H. exact H. Qed.

Section MultipartNormalised.

Context {World Failure : Type} (P : Platform World Failure).

Variable uploadsMeta : Json.
Variable defaultDetail : option string.
Variable index : nat.
Variable key : string.
Variable file : File.

Let raw : Raw.t := payloadOfFile P uploadsMeta defaultDetail index key file.

Lemma payloadOfFile_name : exists name, Raw.name raw = VString name.
Proof. eexists. reflexivity. Qed.

Lemma payloadOfFile_mimeType :
  exists mime, Raw.mimeType raw = VString mime
               /\ JsString.toLowerCase mime = mime.
Proof.
  eexists. split; [reflexivity|].
  match goal with
  | |- context [if ?c then _ else _] => destruct c
  end; [apply toLowerCase_idempotent | reflexivity].
Qed.

Lemma payloadOfFile_displayName (position : nat) :
  exists name, displayName position raw = inr name.
Proof. unfold displayName. eexists. reflexivity. Qed.

(** X16.  A file of a multipart request is judged by its measured
    length, whatever the metadata says: its payload is refused with the
    size message exactly when the file is longer than [MAX_UPLOAD_BYTES],
    and is otherwise normalised to an upload that holds the file's bytes
    and their count, the detail and the MIME type the handler chose, and
    no data URL, remote URL, storage key or blob path.  Normalising it
    never throws a [TypeError]. *)
Theorem multipart_file_normalised (position : nat) :
  let size := Z.of_nat (List.length (fileBytes file)) in
  ((MAX_UPLOAD_BYTES < size)%Z ->
   normalizeUpload (extname P) position raw
   = inl (Error (sizeLimitMessage position raw)))
  /\ ((size <= MAX_UPLOAD_BYTES)%Z ->
      exists normalized,
        normalizeUpload (extname P) position raw = inr normalized
        /\ Upload.buffer normalized = Some (fileBytes file)
        /\ Upload.bytes normalized = Some (inject_Z size)
        /\ Upload.detail normalized = Raw.detail raw
        /\ Upload.mimeType normalized = asString (Raw.mimeType raw)
        /\ Upload.dataUrl normalized = None
        /\ Upload.remoteUrl normalized = None
        /\ Upload.s3Key normalized = None
        /\ Upload.blobPathname normalized = None).
Proof.
  intro size.
  destruct (payloadOfFile_displayName position) as [name Hname].
  assert (Hb : bufferCandidate raw = Some (fileBytes file)) by reflexivity.
  assert (Hsize : declaredOrMeasured raw (fileBytes file)
                  = lengthOf (fileBytes file)) by reflexivity.
  pose proof (normalizeUpload_buffer (extname P) position raw Hname Hb) as Hn.
  rewrite Hsize in Hn. split.
  - intro Hbig. apply overLimit_length in Hbig. rewrite Hbig in Hn. exact Hn.
  - intro Hfits.
    assert (Hok : overLimit (lengthOf (fileBytes file)) = false).
    { destruct (overLimit (lengthOf (fileBytes file))) eqn:E; [|reflexivity].
      apply overLimit_length in E. subst size. lia. }
    rewrite Hok in Hn. eexists. split; [exact Hn|].
    destruct payloadOfFile_mimeType as [mime [Hm Hlow]].
    cbn [Upload.buffer Upload.bytes Upload.detail Upload.mimeType
         Upload.dataUrl Upload.remoteUrl Upload.s3Key Upload.blobPathname].
    repeat split.
    + unfold explicitMime. rewrite Hm. cbn [asString option_map orElse].
      rewrite Hlow. reflexivity.
Qed.

Lemma payloadOfFile_mime_shape :
  exists name,
    Raw.name raw = VString name
    /\ Raw.mimeType raw
       = VString
           (let rawMime :=
              TokenRoute.orText
                match asString
                        (property (JObject (metaFor uploadsMeta key file))
                           "mimeType") with
                | Some m =>
                    if JsString.truthy (JsString.trim m) then JsString.trim m
                    else fileType file
                | None => fileType file
                end
                (TokenRoute.orText
                   (stringOf
                      (lookup MIME_LOOKUP
                         (JsString.toLowerCase (extname P name))))
                   "application/octet-stream") in
            if JsString.truthy rawMime
            then JsString.toLowerCase (JsString.trim rawMime)
            else "application/octet-stream").
Proof. eexists. split; reflexivity. Qed.

Lemma orText_left (a b : string) :
  JsString.truthy a = true -> TokenRoute.orText a b = a.
Proof. intro H. unfold TokenRoute.orText. rewrite H. reflexivity. Qed.

Lemma orText_right (a b : string) :
  JsString.truthy a = false -> TokenRoute.orText a b = b.
Proof. intro H. unfold TokenRoute.orText. rewrite H. reflexivity. Qed.

(** X17.  The MIME type a file of a multipart request is normalised
    with follows a priority of its own: the [mimeType] of the file's
    metadata when it is a string that is not blank; else the type the
    browser sent with the file; else the entry of [MIME_LOOKUP] for the
    extension of the name the handler chose; else
    [application/octet-stream].  The first two are trimmed and lower-cased. *)
Theorem multipart_mime_priority (position : nat) (normalized : Upload.t) :
  normalizeUpload (extname P) position raw = inr normalized ->
  let meta := JObject (metaFor uploadsMeta key file) in
  let declared := trimmedOrEmpty (property meta "mimeType") in
  (JsString.truthy declared = true ->
   Upload.mimeType normalized = Some (JsString.toLowerCase declared))
  /\ (JsString.truthy declared = false ->
      JsString.truthy (fileType file) = true ->
      Upload.mimeType normalized
      = Some (JsString.toLowerCase (JsString.trim (fileType file))))
  /\ (JsString.truthy declared = false ->
      JsString.truthy (fileType file) = false ->
      forall name, Raw.name raw = VString name ->
      Upload.mimeType normalized
      = Some match lookup MIME_LOOKUP
                     (JsString.toLowerCase (extname P name)) with
             | Some mime => mime
             | None => "application/octet-stream"
             end).
Proof.
  intros Hn meta declared.
  destruct (payloadOfFile_displayName position) as [shown Hshown].
  assert (Hb : bufferCandidate raw = Some (fileBytes file)) by reflexivity.
  rewrite (normalizeUpload_buffer (extname P) position raw Hshown Hb) in Hn.
  destruct (overLimit _); [discriminate|].
  apply returned_eq in Hn. subst normalized. cbn [Upload.mimeType].
  destruct payloadOfFile_mimeType as [mime [Hm Hlow]].
  unfold explicitMime. rewrite Hm. cbn [asString option_map orElse].
  rewrite Hlow. clear Hlow.
  destruct payloadOfFile_mime_shape as [chosen [Hchosen Hshape]].
  rewrite Hm in Hshape. apply VString_eq in Hshape. cbv zeta in Hshape.
  fold meta in Hshape. subst declared. unfold trimmedOrEmpty.
  set (fallback := TokenRoute.orText
                     (stringOf (lookup MIME_LOOKUP
                                  (JsString.toLowerCase (extname P chosen))))
                     "application/octet-stream") in Hshape.
  assert (Hfallback :
            fallback = match lookup MIME_LOOKUP
                               (JsString.toLowerCase (extname P chosen)) with
                       | Some t => t
                       | None => "application/octet-stream"
                       end
            /\ JsString.truthy fallback = true
            /\ JsString.toLowerCase (JsString.trim fallback) = fallback).
  { subst fallback.
    destruct (lookup MIME_LOOKUP (JsString.toLowerCase (extname P chosen)))
      as [t|] eqn:Ht.
    - destruct (lookup_mime_plain _ Ht) as [Hplain Htruthy].
      cbn [stringOf]. rewrite orText_left by exact Htruthy.
      repeat split; assumption.
    - repeat split. }
  destruct Hfallback as [Hf [Hft Hfl]].
  set (declared := match asString (property meta "mimeType") with
                   | Some m =>
                       if JsString.truthy (JsString.trim m)
                       then JsString.trim m
                       else fileType file
                   | None => fileType file
                   end) in Hshape.
  assert (Hmime : forall rawMime,
             TokenRoute.orText declared fallback = rawMime ->
             JsString.truthy rawMime = true ->
             mime = JsString.toLowerCase (JsString.trim rawMime)).
  { intros rawMime <- Ht. rewrite Hshape, Ht. reflexivity. }
  assert (Hfile : JsString.truthy
                    match asString (property meta "mimeType") with
                    | Some s => JsString.trim s
                    | None => EmptyString
                    end = false ->
                  declared = fileType file).
  { subst declared. destruct (asString (property meta "mimeType")) as [m|];
      [intros ->|]; reflexivity. }
  split; [|split].
  - intro Hd. f_equal. subst declared.
    destruct (asString (property meta "mimeType")) as [m|]; [|discriminate].
    rewrite Hd in Hmime.
    rewrite (Hmime (JsString.trim m)).
    + rewrite trim_idempotent. reflexivity.
    + apply orText_left. exact Hd.
    + exact Hd.
  - intros Hd Htype. f_equal. apply Hmime; [|exact Htype].
    rewrite (Hfile Hd). apply orText_left. exact Htype.
  - intros Hd Htype name Hname. f_equal.
    rewrite Hchosen in Hname. apply VString_eq in Hname. subst name.
    rewrite <- Hf. rewrite <- Hfl. apply Hmime; [|exact Hft].
    rewrite (Hfile Hd). apply orText_right. exact Htype.
Qed.

End MultipartNormalised.

Lemma multipart_file_normalised_witness :
  let meta :=
    JObject [ ("first", JObject [ ("name", JString " Level 1 ");
                                  ("mimeType", JString " IMAGE/PNG ") ]) ] in
  let small := DemoRoutes.file "l1.bin" "application/pdf" Demo.png in
  let big :=
    DemoRoutes.file "big.png" "image/png"
      (repeat x00 (Z.to_nat (MAX_UPLOAD_BYTES + 1))) in
  (exists normalized,
      normalizeUpload Demo.extension 0
        (payloadOfFile DemoRoutes.platform meta None 0 "first" small)
      = inr normalized
      /\ Upload.buffer normalized = Some Demo.png
      /\ Upload.bytes normalized = Some (inject_Z 4)
      /\ Upload.mimeType normalized = Some "image/png"
      /\ Upload.remoteUrl normalized = None)
  /\ normalizeUpload Demo.extension 1
       (payloadOfFile DemoRoutes.platform meta None 1 "second" big)
     = inl (Error
              (sizeLimitMessage 1
                 (payloadOfFile DemoRoutes.platform meta None 1 "second" big))).
Proof.
  intros meta small big. split.
  - destruct (multipart_file_normalised DemoRoutes.platform meta None 0
                "first" small 0) as [_ Hfits].
    destruct Hfits as [normalized [Hn [Hb [Hs [_ [Hm [_ [Hr _]]]]]]]].
    + vm_compute. discriminate.
    + exists normalized. repeat split; assumption.
  - destruct (multipart_file_normalised DemoRoutes.platform meta None 1
                "second" big 1) as [Hbig _].
    apply Hbig. unfold big, DemoRoutes.file. cbn [fileBytes].
    rewrite repeat_length. rewrite Z2Nat.id; unfold MAX_UPLOAD_BYTES; lia.
Defined.

Lemma multipart_mime_priority_witness :
  let meta :=
    JObject [ ("first", JObject [ ("name", JString " Level 1 ");
                                  ("mimeType", JString " IMAGE/PNG ") ]) ] in
  (exists normalized,
      normalizeUpload Demo.extension 0
        (payloadOfFile DemoRoutes.platform meta None 0 "first"
           (DemoRoutes.file "l1.bin" "application/pdf" Demo.png))
      = inr normalized
      /\ Upload.mimeType normalized = Some "image/png")
  /\ (exists normalized,
        normalizeUpload Demo.extension 1
          (payloadOfFile DemoRoutes.platform meta None 1 "second"
             (DemoRoutes.file "plan.TIF" EmptyString Demo.png))
        = inr normalized
        /\ Upload.mimeType normalized = Some "image/tiff").
Proof.
  intro meta. split.
  - destruct (normalizeUpload Demo.extension 0
                (payloadOfFile DemoRoutes.platform meta None 0 "first"
                   (DemoRoutes.file "l1.bin" "application/pdf" Demo.png)))
      as [e|normalized] eqn:Hn.
    + vm_compute in Hn. discriminate Hn.
    + exists normalized. split; [reflexivity|].
      exact (proj1 (multipart_mime_priority DemoRoutes.platform meta None 0
                      "first"
                      (DemoRoutes.file "l1.bin" "application/pdf" Demo.png)
                      0 Hn) eq_refl).
  - destruct (normalizeUpload Demo.extension 1
                (payloadOfFile DemoRoutes.platform meta None 1 "second"
                   (DemoRoutes.file "plan.TIF" EmptyString Demo.png)))
      as [e|normalized] eqn:Hn.
    + vm_compute in Hn. discriminate Hn.
    + exists normalized. split; [reflexivity|].
      exact (proj2 (proj2 (multipart_mime_priority DemoRoutes.platform meta
                             None 1 "second"
                             (DemoRoutes.file "plan.TIF" EmptyString Demo.png) 1 Hn))
               eq_refl eq_refl "plan.TIF" eq_refl).
Defined.

(** ** A multipart request with a file over the cap *)

Lemma mapFrom_thrown_by (extname : string -> string) (uploads : list element) :
  forall index thrown,
    mapFrom extname index uploads = inl thrown ->
    exists k e, nth_error uploads k = Some e
                /\ normalizeElement extname (index + k) e = inl thrown.
Proof.
  induction uploads as [|x rest IH]; intros index thrown H;
    cbn [mapFrom] in H; [discriminate|].
  destruct (normalizeElement extname index x) as [t|n] eqn:Ex.
  - exists 0%nat, x. rewrite Nat.add_0_r. split; [reflexivity|congruence].
  - destruct (mapFrom extname (S index) rest) as [t|others] eqn:Er;
      [|discriminate].
    destruct (IH (S index) t Er) as [k [e [Hk He]]].
    exists (S k), e. split; [exact Hk|].
    rewrite Nat.add_succ_r. injection H as <-. exact He.
Qed.

Section OversizedFormFile.

Context {World Failure : Type} (P : Platform World Failure).

Variable parseJson : string -> Failure + Json.
Variable textOf : list byte -> string.

Local Open Scope list_scope.

Lemma payloadOfFile_refused uploadsMeta defaultDetail index key file
    position thrown :
  normalizeUpload (extname P) position
    (payloadOfFile P uploadsMeta defaultDetail index key file) = inl thrown ->
  (MAX_UPLOAD_BYTES < Z.of_nat (List.length (fileBytes file)))%Z
  /\ thrown
     = Error (sizeLimitMessage position
                (payloadOfFile P uploadsMeta defaultDetail index key file)).
Proof.
  destruct (payloadOfFile_displayName P uploadsMeta defaultDetail index key
              file position) as [name Hname].
  rewrite (normalizeUpload_buffer (extname P) position _ Hname
             (buffer := fileBytes file) eq_refl).
  change (declaredOrMeasured _ (fileBytes file))
    with (lengthOf (fileBytes file)).
  destruct (overLimit (lengthOf (fileBytes file))) eqn:E; [|discriminate].
  intro H. split; [apply overLimit_length; exact E | congruence].
Qed.

Lemma payloadOfFile_oversized uploadsMeta defaultDetail index key file
    position :
  (MAX_UPLOAD_BYTES < Z.of_nat (List.length (fileBytes file)))%Z ->
  normalizeUpload (extname P) position
    (payloadOfFile P uploadsMeta defaultDetail index key file)
  = inl (Error (sizeLimitMessage position
                  (payloadOfFile P uploadsMeta defaultDetail index key file))).
Proof.
  intro Hbig.
  destruct (payloadOfFile_displayName P uploadsMeta defaultDetail index key
              file position) as [name Hname].
  rewrite (normalizeUpload_buffer (extname P) position _ Hname
             (buffer := fileBytes file) eq_refl).
  change (declaredOrMeasured _ (fileBytes file))
    with (lengthOf (fileBytes file)).
  apply overLimit_length in Hbig. rewrite Hbig. reflexivity.
Qed.

(** X18.  A multipart request with a prompt and, among its first six
    files that are not empty, one longer than [MAX_UPLOAD_BYTES] is not
    answered 400: the handler answers 500 "Vision request failed." and
    logs it.  The detail it carries is the size message of a file of the
    form that is itself over the cap, and nothing outside was called: no
    file read, nothing stored or signed, no model request. *)
Theorem oversized_form_file_answers_500 (req : Request Failure) (st : State)
    (entries : list (string * FormValue)) (k : nat) (key : string)
    (file : File) :
  truthy (env P "OPENAI_API_KEY") = true ->
  includes "multipart/form-data" (stringOf (contentTypeHeader req)) = true ->
  formEntries req = inr entries ->
  JsString.truthy (formPrompt textOf entries) = true ->
  nth_error (filesToSend entries) k = Some (key, file) ->
  k < MAX_UPLOAD_COUNT ->
  (MAX_UPLOAD_BYTES < Z.of_nat (List.length (fileBytes file)))%Z ->
  exists j key' file',
    nth_error (filesToSend entries) j = Some (key', file')
    /\ (MAX_UPLOAD_BYTES < Z.of_nat (List.length (fileBytes file')))%Z
    /\ let e :=
         Error (sizeLimitMessage j
                  (payloadOfFile P (fst (formUploadsMeta parseJson entries))
                     (formDefaultDetail entries) j key' file')) in
       POST_request P parseJson textOf req st
       = ({| world := world st;
             console := console st
                          ++ [console_error "Vision request failed"
                                (Threw e) []] |},
          snd (formUploadsMeta parseJson entries),
          inr (json 500 (Failed "Vision request failed." (Some (Threw e))))).
Proof.
  intros Hkey Hform Hentries Hq Hk Hsix Hbig.
  set (uploadsMeta := fst (formUploadsMeta parseJson entries)).
  set (detail := formDefaultDetail entries).
  set (payloads := payloadsOfFiles P uploadsMeta detail 0 entries).
  assert (Hthrows : exists thrown,
             normalizeUploads (extname P) payloads = inl thrown).
  { unfold normalizeUploads.
    apply (mapFrom_throws (extname P) (firstn MAX_UPLOAD_COUNT payloads) 0 k
             (e := Item (payloadOfFile P uploadsMeta detail k key file))
             (thrown := Error (sizeLimitMessage k
                                 (payloadOfFile P uploadsMeta detail k key
                                    file)))).
    - rewrite nth_error_firstn_lt by exact Hsix.
      exact (payloadsOfFiles_nth P uploadsMeta detail entries 0 k Hk).
    - cbn [normalizeElement Nat.add].
      apply payloadOfFile_oversized. exact Hbig. }
  destruct Hthrows as [thrown Hthrown].
  assert (Hfirst := Hthrown). unfold normalizeUploads in Hfirst.
  destruct (mapFrom_thrown_by _ _ _ Hfirst) as [j [e [Hj He]]].
  apply nth_error_firstn_some in Hj. cbn [Nat.add] in He.
  assert (Hlt : j < List.length (filesToSend entries)).
  { rewrite <- (payloadsOfFiles_length P uploadsMeta detail entries 0).
    apply nth_error_Some. fold payloads. congruence. }
  destruct (nth_error (filesToSend entries) j) as [[key' file']|] eqn:Hfile;
    [|apply nth_error_Some in Hlt; congruence].
  pose proof (payloadsOfFiles_nth P uploadsMeta detail entries 0 j Hfile)
    as Hitem.
  fold payloads in Hitem. cbn [Nat.add] in Hitem.
  rewrite Hitem in Hj. injection Hj as <-. cbn [normalizeElement] in He.
  destruct (payloadOfFile_refused _ _ _ _ _ _ He) as [Hbig' ->].
  exists j, key', file'. split; [exact Hfile|]. split; [exact Hbig'|].
  intro e. unfold POST_request, readRequest.
  rewrite Hkey, Hform, Hentries. cbn [negb].
  destruct (formUploadsMeta parseJson entries) as [meta warnings] eqn:Hmeta.
  cbn [fst snd] in *. subst uploadsMeta.
  unfold POST. rewrite Hkey, Hq. cbn [negb].
  unfold visionRequest, bind, buildImageInputs, bind. fold detail payloads.
  rewrite Hthrown. reflexivity.
Qed.

End OversizedFormFile.

Lemma oversized_form_file_answers_500_witness :
  let big :=
    DemoRoutes.file "big.png" "image/png"
      (repeat x00 (Z.to_nat (MAX_UPLOAD_BYTES + 1))) in
  let entries :=
    [ ("prompt", Field "Where is Stair 6?"); ("plan", Attached big) ] in
  exists e,
    POST_request DemoRoutes.platform DemoRoutes.parse DemoRoutes.textOf
      {| contentTypeHeader := Some "multipart/form-data; boundary=x";
         jsonBody := inl "not JSON";
         formEntries := inr entries |} Demo.start
    = ({| world := 0;
          console := [console_error "Vision request failed" (Threw e) []] |},
       [], inr (json 500 (Failed "Vision request failed." (Some (Threw e))))).
Proof.
  intros big entries.
  assert (Hbig : (MAX_UPLOAD_BYTES
                    < Z.of_nat (List.length (fileBytes big)))%Z).
  { unfold big, DemoRoutes.file. cbn [fileBytes].
    rewrite repeat_length. rewrite Z2Nat.id; unfold MAX_UPLOAD_BYTES; lia. }
  assert (Hsix : 0 < MAX_UPLOAD_COUNT) by (unfold MAX_UPLOAD_COUNT; lia).
  destruct (oversized_form_file_answers_500 DemoRoutes.platform
              DemoRoutes.parse DemoRoutes.textOf
              {| contentTypeHeader := Some "multipart/form-data; boundary=x";
                 jsonBody := inl "not JSON";
                 formEntries := inr entries |} Demo.start
              (entries := entries) (k := 0) (key := "plan") (file := big)
              eq_refl eq_refl eq_refl eq_refl eq_refl Hsix Hbig)
    as [j [key' [file' [_ [_ H]]]]].
  eexists. exact H.
Defined.
